(** * SalesCallAnalyser: the [transcribe_video_from_gcs] cloud function

    A shallow embedding of [main.py].  The function is one long body; the
    model follows its layout:

    - strings and the three [os.path] helpers used at lines 56-58;
    - the path resolver (lines 56-61);
    - the recognition data and the transcript reconstruction (lines 121-156);
    - the collaborators (storage, transcoder, recognition, LLM) as a [World]
      of oracles, and the effects as a state-and-exception monad whose state
      is the local file system and the trace of calls made so far;
    - the orchestrator (lines 27-217) with its [try]/[except]/[finally].

    Python [str] is modelled by [string], one [ascii] per character; Python
    [int] by [Z]; [dict] by [gmap]; the local disk by a finite map from the
    paths of the regular files to their sizes.  The scratch directory, which
    is on the disk whatever the files, comes in with the module [Posix]: the
    [finally] clause is given once on the regular files and once with the
    directory, and the two are the same run wherever the object name ends in
    a file name. *)

From Stdlib Require Import ZArith Ascii String List Sorted Permutation.
From Stdlib Require Import Floats.PrimFloat.
From stdpp Require Import gmap strings pretty sorting.

Local Open Scope string_scope.
Local Open Scope Z_scope.

(** ** Strings *)

Module Str.

(** The characters Python writes ["\n"] and ["\t"]. *)
Definition nl : string := String "010"%char "".
Definition tab : string := String "009"%char "".

(** The en dash of the instruction template, as the one character it is in
    the source (code 150 in the single-byte Windows-1252 table). *)
Definition en_dash : string := String "150"%char "".

(** [len(p)]. *)
Definition len (p : string) : Z := Z.of_nat (String.length p).

(** [p[i:]] for [0 <= i]. *)
Fixpoint slice_from (i : nat) (p : string) : string :=
  match i, p with
  | O, _ => p
  | S _, EmptyString => EmptyString
  | S i', String _ r => slice_from i' r
  end.

(** [p[:i]] for [0 <= i]. *)
Fixpoint slice_to (i : nat) (p : string) : string :=
  match i, p with
  | O, _ => EmptyString
  | S _, EmptyString => EmptyString
  | S i', String a r => String a (slice_to i' r)
  end.

(** [p.rfind(c)] for a one-character [c]: the highest index holding [c],
    or [-1]. *)
Fixpoint rfind (c : ascii) (p : string) : Z :=
  match p with
  | EmptyString => -1
  | String a r =>
      let i := rfind c r in
      if 0 <=? i then 1 + i
      else if Ascii.eqb a c then 0 else -1
  end.

(** [p.startswith(prefix)]. *)
Definition startswith (prefix p : string) : bool := String.prefix prefix p.

(** [p.endswith(suffix)]. *)
Definition endswith (suffix p : string) : bool :=
  (String.length suffix <=? String.length p)%nat
  && String.eqb (slice_from (String.length p - String.length suffix) p) suffix.

(** [sep.join(parts)]. *)
Definition join (sep : string) (parts : list string) : string :=
  String.concat sep parts.

(** [c in p] for a one-character [c]. *)
Fixpoint mem (c : ascii) (p : string) : bool :=
  match p with
  | EmptyString => false
  | String a r => Ascii.eqb a c || mem c r
  end.

(** Concatenation of a list of strings, what a run of [+=] builds. *)
Fixpoint cat (parts : list string) : string :=
  match parts with
  | [] => ""
  | s :: r => s ++ cat r
  end.

End Str.

(** ** [os.path] on POSIX, as used at lines 56-58 *)

Module OsPath.

Definition sep : ascii := "/"%char.
Definition extsep : ascii := "."%char.

(** [posixpath.basename]: [i = p.rfind('/') + 1; return p[i:]]. *)
Definition basename (p : string) : string :=
  let i := Str.rfind sep p + 1 in
  Str.slice_from (Z.to_nat i) p.

(** The loop of [genericpath._splitext] that skips leading dots: it runs
    [filenameIndex] up to [dotIndex] and answers [true] at the first
    character that is not a dot ([n] is [dotIndex - filenameIndex]). *)
Fixpoint has_non_dot (p : string) (filenameIndex n : nat) : bool :=
  match n with
  | O => false
  | S n' =>
      if negb (String.eqb (Str.slice_to 1 (Str.slice_from filenameIndex p))
                          (String extsep ""))
      then true
      else has_non_dot p (S filenameIndex) n'
  end.

(** [posixpath.splitext], i.e. [genericpath._splitext(p, '/', None, '.')]. *)
Definition splitext (p : string) : string * string :=
  let sepIndex := Str.rfind sep p in
  let dotIndex := Str.rfind extsep p in
  if (sepIndex <? dotIndex)
       && has_non_dot p (Z.to_nat (sepIndex + 1))
                        (Z.to_nat (dotIndex - (sepIndex + 1)))
  then (Str.slice_to (Z.to_nat dotIndex) p, Str.slice_from (Z.to_nat dotIndex) p)
  else (p, "").

(** [posixpath.join(a, b)] with one component [b]. *)
Definition join (a b : string) : string :=
  if Str.startswith (String sep "") b then b
  else if String.eqb a "" || Str.endswith (String sep "") a
       then a ++ b
       else a ++ String sep "" ++ b.

End OsPath.

(** ** Path resolver (lines 56-61) *)

Record ArtifactPaths := {
  base_file_name : string;
  local_video_path : string;
  local_audio_path : string;
  gcs_audio_path : string;
  gcs_transcript_path : string;
  gcs_analysis_path : string;
}.

Definition TEMP_DIR : string := "/tmp".

(** Lines 56-61 are straight-line assignments: no call in them raises. *)
Definition artifact_paths (file_name : string) : ArtifactPaths :=
  let base := fst (OsPath.splitext (OsPath.basename file_name)) in
  {| base_file_name := base;
     local_video_path := OsPath.join TEMP_DIR (OsPath.basename file_name);
     local_audio_path := OsPath.join TEMP_DIR (base ++ ".flac");
     gcs_audio_path := "audio/" ++ base ++ ".flac";
     gcs_transcript_path := "transcripts/" ++ base ++ ".txt";
     gcs_analysis_path := "analysis/" ++ base ++ "_analysis.txt" |}.

(** ** Recognition results, as the speech collaborator returns them *)

Record WordInfo := {
  word : string;
  speaker_tag : Z;
}.

Record SpeechRecognitionAlternative := {
  transcript : string;
  confidence : float;
  words : list WordInfo;
}.

Record SpeechRecognitionResult := {
  alternatives : list SpeechRecognitionAlternative;
}.

(** ** Transcript reconstruction: the pure steps of lines 126-148 *)

(** Lines 132-136, one word:
    [if speaker_tag not in speaker_transcripts: speaker_transcripts[speaker_tag] = []]
    then [speaker_transcripts[speaker_tag].append(word)]. *)
Definition append_word (speaker_transcripts : gmap Z (list string)) (word_info : WordInfo)
  : gmap Z (list string) :=
  let tag := speaker_tag word_info in
  let d :=
    match speaker_transcripts !! tag with
    | None => <[tag := []]> speaker_transcripts
    | Some _ => speaker_transcripts
    end in
  <[tag := (default [] (d !! tag) ++ [word word_info])%list]> d.

(** Lines 130-139, one result whose top alternative is [alt]; the state is
    the pair of [transcript_content] and [speaker_transcripts]. *)
Definition scan_alternative (acc : string * gmap Z (list string))
    (alt : SpeechRecognitionAlternative) : string * gmap Z (list string) :=
  match words alt with
  | [] => (fst acc ++ transcript alt ++ Str.nl, snd acc)
  | _ :: _ => (fst acc, fold_left append_word (words alt) (snd acc))
  end.

(** [sorted(speaker_transcripts.keys())]. *)
Definition sorted_keys (speaker_transcripts : gmap Z (list string)) : list Z :=
  merge_sort Z.le (map_to_list speaker_transcripts).*1.

(** The line of one speaker, line 144:
    [f"Speaker {speaker_tag}: {' '.join(speaker_transcripts[speaker_tag])}\n"]. *)
Definition speaker_line (speaker_transcripts : gmap Z (list string)) (tag : Z) : string :=
  "Speaker " ++ pretty tag ++ ": "
    ++ Str.join " " (default [] (speaker_transcripts !! tag)) ++ Str.nl.

(** Lines 143-144: what the loop over the sorted tags appends. *)
Definition speaker_lines (speaker_transcripts : gmap Z (list string)) : string :=
  Str.cat (map (speaker_line speaker_transcripts) (sorted_keys speaker_transcripts)).

(** ** Exceptions, log records and calls *)

Inductive exn :=
| ValueError (msg : string)
| IndexError
| FileNotFoundError (path : string)
| IsADirectoryError (path : string)
| CalledProcessError (stderr : string)
| AttributeError
| CollaboratorError (what : string).

(** The levels of [logging] that the function uses, with their numbers. *)
Inductive level := INFO | WARNING | ERROR.


(** One constructor per logging statement, named after its text and carrying
    the values its f-string interpolates (source line in the comment). *)
Inductive message :=
| ReceivedUploadEvent (file_name bucket_name : string)       (* 32 *)
| MimeType (mime_type : string)                              (* 33 *)
| GeminiKeyNotSet                                            (* 42 *)
| IgnoringUnexpectedBucket (bucket_name expected : string)   (* 47 *)
| SkippingNonVideo (file_name mime_type : string)            (* 52 *)
| Downloading (file_name bucket_name path : string)          (* 65 *)
| Downloaded (file_name : string) (size : Z)                 (* 69 *)
| ExecutingFFmpeg (command : string)                         (* 81 *)
| FFmpegStdout (out : string)                                (* 84 *)
| FFmpegStderr (err : string)                                (* 85 *)
| ExtractedAudio (path : string) (size : Z)                  (* 86 *)
| EmptyAudioFile                                             (* 88 *)
| FFmpegFailed (err : string)                                (* 90 *)
| UploadedAudio (bucket_name key : string)                   (* 97 *)
| SendingAudio                                               (* 116 *)
| NoTranscriptionResults                                     (* 122 *)
| ReturnedResults (n : Z)                                    (* 124 *)
| ProcessingResult (i : Z) (conf : float)                    (* 129 *)
| FallingBackToFullTranscript                                (* 146 *)
| TranscriptionComplete                                      (* 151 *)
| TranscriptLength (n : Z)                                   (* 152 *)
| FinalTranscriptEmpty                                       (* 154 *)
| PartialTranscript (head : string)                          (* 156 *)
| TranscriptionSaved (bucket_name key : string)              (* 161 *)
| SendingPrompt                                              (* 182 *)
| PromptLength (n : Z)                                       (* 184 *)
| FullPrompt (head : string)                                 (* 186 *)
| PromptVeryLong                                             (* 188 *)
| AnalysisComplete                                           (* 195 *)
| AnalysisLength (n : Z)                                     (* 196 *)
| PartialAnalysis (head : string)                            (* 197 *)
| AnalysisSaved (bucket_name key : string)                   (* 202 *)
| ErrorDuringProcess (e : exn)                               (* 208 *)
| CleanedUp (path : string).                                 (* 214, 217 *)

(** The configuration sent with the recognition request (lines 103-114) and
    the wait of line 118. *)
Record RecognitionConfig := {
  encoding : string;
  sample_rate_hertz : Z;
  language_code : string;
  enable_automatic_punctuation : bool;
  enable_speaker_diarization : bool;
  min_speaker_count : Z;
  max_speaker_count : Z;
}.

(** Everything the function does that is visible outside it, in order. *)
Inductive call :=
| Log (lvl : level) (msg : message)
| DownloadToFilename (bucket_name blob filename : string)
| Getsize (path : string)
| SubprocessRun (command : list string)
| UploadFromFilename (bucket_name blob filename : string)
| LongRunningRecognize (config : RecognitionConfig) (uri : string) (timeout : Z)
| UploadFromString (bucket_name blob content content_type : string)
| GenerateContent (api_key model prompt : string)
| PathExists (path : string)
| Remove (path : string).

(** A call to one of the remote or external collaborators: everything but
    logging and the queries and removals on the local disk. *)
Definition is_external (c : call) : bool :=
  match c with
  | DownloadToFilename _ _ _ | SubprocessRun _ | UploadFromFilename _ _ _
  | LongRunningRecognize _ _ _ | UploadFromString _ _ _ _
  | GenerateContent _ _ _ => true
  | Log _ _ | Getsize _ | PathExists _ | Remove _ => false
  end.

(** A write to the object store. *)
Definition is_storage_write (c : call) : bool :=
  match c with
  | UploadFromFilename _ _ _ | UploadFromString _ _ _ _ => true
  | _ => false
  end.

(** ** The monad: exceptions, the local disk, and the calls made *)

(** What a computation leaves behind: its value or the exception it raised,
    the local disk afterwards, and the calls it made, oldest first. *)
#[projections(primitive)]
Record outcome (A : Type) := Outcome {
  result : exn + A;
  disk : gmap string Z;
  calls : list call;
}.
Arguments Outcome {A}.
Arguments result {A}.
Arguments disk {A}.
Arguments calls {A}.

Definition M (A : Type) : Type := gmap string Z -> outcome A.

Definition ret {A} (a : A) : M A := fun d => Outcome (inr a) d [].

Definition raise {A} (e : exn) : M A := fun d => Outcome (inl e) d [].

Definition bind {A B} (m : M A) (k : A -> M B) : M B :=
  fun d =>
    let o := m d in
    match result o with
    | inl e => Outcome (inl e) (disk o) (calls o)
    | inr a =>
        let o' := k a (disk o) in
        Outcome (result o') (disk o') (calls o ++ calls o')
    end.

Declare Scope py_scope.
Delimit Scope py_scope with py.
Notation "x <- m ;; k" := (bind m (fun x => k))
  (at level 100, m at next level, right associativity) : py_scope.
Notation "m ;; k" := (bind m (fun _ => k))
  (at level 100, right associativity) : py_scope.
Local Open Scope py_scope.

(** Record one call. *)
Definition emit (c : call) : M unit := fun d => Outcome (inr tt) d [c].

Definition log (lvl : level) (msg : message) : M unit := emit (Log lvl msg).

(** [try: body / except ...: handler]; the handler answers [None] for an
    exception its clauses do not catch.  An exception raised inside a handler
    is not offered to the other clauses. *)
Definition try_except {A} (body : M A) (handler : exn -> option (M A)) : M A :=
  fun d =>
    let o := body d in
    match result o with
    | inl e =>
        match handler e with
        | Some h =>
            let o' := h (disk o) in
            Outcome (result o') (disk o') (calls o ++ calls o')
        | None => o
        end
    | inr _ => o
    end.

(** [try: body / finally: final]: [final] runs whatever [body] did; an
    exception of [final] replaces the outcome of [body]. *)
Definition try_finally {A} (body : M A) (final : M unit) : M A :=
  fun d =>
    let o := body d in
    let o' := final (disk o) in
    Outcome (match result o' with inl e => inl e | inr _ => result o end)
            (disk o') (calls o ++ calls o').

(** *** The local disk *)

(** [os.path.getsize(path)]. *)
Definition getsize (path : string) : M Z :=
  emit (Getsize path) ;;
  fun d =>
    match d !! path with
    | Some size => Outcome (inr size) d []
    | None => Outcome (inl (FileNotFoundError path)) d []
    end.

(** [os.path.exists(path)] for a [path] that names no directory: whether a
    regular file is there. *)
Definition path_exists (path : string) : M bool :=
  emit (PathExists path) ;;
  fun d => Outcome (inr (bool_decide (is_Some (d !! path)))) d [].

(** [os.remove(path)] for a [path] that names no directory. *)
Definition remove (path : string) : M unit :=
  emit (Remove path) ;;
  fun d =>
    match d !! path with
    | Some _ => Outcome (inr tt) (delete path d) []
    | None => Outcome (inl (FileNotFoundError path)) d []
    end.

(** *** The collaborators *)

(** The answers of the collaborators.  Each is a function of what the call
    is given; the two that write local files (the download and the
    transcoder) also say what the local disk looks like afterwards.  Any of
    them may raise.  [subprocess_run] answers the captured [(stdout, stderr)]
    and raises [CalledProcessError stderr] on a non-zero exit ([check=True],
    [text=True]).  [generate_content] answers the [text] of the response.
    Building the client objects is taken not to fail. *)
Record World := {
  download_to_filename :
    string -> string -> string -> gmap string Z -> (exn + unit) * gmap string Z;
  subprocess_run :
    list string -> gmap string Z -> (exn + (string * string)) * gmap string Z;
  upload_from_filename : string -> string -> string -> gmap string Z -> exn + unit;
  long_running_recognize :
    RecognitionConfig -> string -> Z -> exn + list SpeechRecognitionResult;
  upload_from_string : string -> string -> string -> string -> exn + unit;
  generate_content : string -> string -> string -> exn + string;
}.

(** A call that may change the local disk. *)
Definition call_fs {A} (c : call)
    (f : gmap string Z -> (exn + A) * gmap string Z) : M A :=
  emit c ;;
  fun d => Outcome (fst (f d)) (snd (f d)) [].

(** A call that leaves the local disk as it is. *)
Definition call_ro {A} (c : call) (f : gmap string Z -> exn + A) : M A :=
  emit c ;; fun d => Outcome (f d) d [].

(** ** Transcript reconstruction in the orchestrator (lines 121-156) *)

(** [result.alternatives[0]]. *)
Definition top_alternative (result : SpeechRecognitionResult)
  : M SpeechRecognitionAlternative :=
  match alternatives result with
  | alt :: _ => ret alt
  | [] => raise IndexError
  end.

(** The loop of lines 128-139; [i] is the index [enumerate] hands out. *)
Fixpoint scan_results (i : Z) (results : list SpeechRecognitionResult)
    (acc : string * gmap Z (list string)) : M (string * gmap Z (list string)) :=
  match results with
  | [] => ret acc
  | result :: rest =>
      alt <- top_alternative result ;;
      log INFO (ProcessingResult (i + 1) (confidence alt)) ;;
      scan_results (i + 1) rest (scan_alternative acc alt)
  end.

(** The loop of lines 147-148. *)
Fixpoint fallback_results (results : list SpeechRecognitionResult)
    (transcript_content : string) : M string :=
  match results with
  | [] => ret transcript_content
  | result :: rest =>
      alt <- top_alternative result ;;
      fallback_results rest (transcript_content ++ transcript alt ++ Str.nl)
  end.

(** Lines 121-156: from [response.results] to [transcript_content]. *)
Definition reconstruct_transcript (results : list SpeechRecognitionResult) : M string :=
  match results with
  | [] => log WARNING NoTranscriptionResults
  | _ :: _ => log INFO (ReturnedResults (Z.of_nat (List.length results)))
  end ;;
  acc <- scan_results 0 results ("", ∅) ;;
  let transcript_content := fst acc in
  let speaker_transcripts := snd acc in
  transcript_content <-
    (if negb (bool_decide (speaker_transcripts = ∅)) then
       ret (transcript_content ++ speaker_lines speaker_transcripts)
     else if String.eqb transcript_content ""
             && negb (bool_decide (results = [])) then
       log WARNING FallingBackToFullTranscript ;;
       fallback_results results transcript_content
     else ret transcript_content) ;;
  log INFO TranscriptionComplete ;;
  log INFO (TranscriptLength (Str.len transcript_content)) ;;
  (if Str.len transcript_content =? 0
   then log ERROR FinalTranscriptEmpty
   else log INFO (PartialTranscript (Str.slice_to 200 transcript_content))) ;;
  ret transcript_content.

(** ** The orchestrator *)

(** The triggering event, [cloud_event.data]. *)
Record UploadEvent := {
  bucket : string;
  name : string;
  contentType : string;
}.

(** [os.environ.get(key, default)]. *)
Definition environ_get (environ : gmap string string) (key dflt : string) : string :=
  default dflt (environ !! key).

Definition recognition_config : RecognitionConfig :=
  {| encoding := "FLAC";
     sample_rate_hertz := 16000;
     language_code := "en-IN";
     enable_automatic_punctuation := true;
     enable_speaker_diarization := true;
     min_speaker_count := 1;
     max_speaker_count := 2 |}.

(** [analysis_instructions], lines 167-178: the text between the triple
    quotes, line by line. *)
Definition analysis_instructions : string :=
  Str.cat
    [ Str.nl;
      "        Analyze the following video transcript for a high ticket digital item sale for flaws in the sales process. The purpose of the seller here is to move the prospect through the Key stages/Beliefs to help them make "; Str.tab; "a sales decision:"; Str.nl;
      Str.tab; "Pain "; Str.en_dash; " Clarify their main problem."; Str.nl;
      Str.tab; "Doubt "; Str.en_dash; " Why they haven't solved it on their own."; Str.nl;
      Str.tab; "Cost "; Str.en_dash; " The hidden cost of staying stuck."; Str.nl;
      Str.tab; "Desire "; Str.en_dash; " Their ultimate desired outcome."; Str.nl;
      Str.tab; "Support "; Str.en_dash; " Assurance they'll get necessary help."; Str.nl;
      Str.tab; "Handle Partner Indecision: Ask if they have support of their partners or parents so that the prospect can't leave the call at the end saying they need to consult them and get back without making a commitment on the call itself ."; Str.nl;
      Str.tab; "Trust "; Str.en_dash; " Confidence in you and your solution. Provide a concise summary, identify the main topics discussed,"; Str.nl;
      "        and list any key action items or conclusions. Try to infer the roles"; Str.nl;
      "        of the prospect and the salesperson and give actionable feedback with specific parts and what did the seller miss or could improve during the conversation ."; Str.nl;
      "        " ].

(** Lines 72-80. *)
Definition ffmpeg_command (paths : ArtifactPaths) : list string :=
  ["ffmpeg"; "-i"; local_video_path paths; "-vn"; "-acodec"; "flac";
   "-ar"; "16000"; "-ac"; "1"; local_audio_path paths].

Section Orchestrator.

Variable w : World.
Variable bucket_name file_name : string.
Variable TRANSCRIPTION_OUTPUT_BUCKET GEMINI_API_KEY : string.
Variable paths : ArtifactPaths.

(** Stage 1, lines 65-69. *)
Definition download_video : M unit :=
  log INFO (Downloading file_name bucket_name (local_video_path paths)) ;;
  call_fs (DownloadToFilename bucket_name file_name (local_video_path paths))
          (download_to_filename w bucket_name file_name (local_video_path paths)) ;;
  size <- getsize (local_video_path paths) ;;
  log INFO (Downloaded file_name size).

(** Stage 2, lines 72-91, with the inner [try]/[except]. *)
Definition extract_audio : M unit :=
  log INFO (ExecutingFFmpeg (Str.join " " (ffmpeg_command paths))) ;;
  try_except
    (ffmpeg_result <- call_fs (SubprocessRun (ffmpeg_command paths))
                              (subprocess_run w (ffmpeg_command paths)) ;;
     log INFO (FFmpegStdout (fst ffmpeg_result)) ;;
     log INFO (FFmpegStderr (snd ffmpeg_result)) ;;
     size <- getsize (local_audio_path paths) ;;
     log INFO (ExtractedAudio (local_audio_path paths) size) ;;
     size' <- getsize (local_audio_path paths) ;;
     if size' =? 0 then log WARNING EmptyAudioFile else ret tt)
    (fun e =>
       match e with
       | CalledProcessError stderr => Some (log ERROR (FFmpegFailed stderr) ;; raise e)
       | _ => None
       end).

(** Stage 3, lines 94-97. *)
Definition upload_audio : M unit :=
  call_ro (UploadFromFilename TRANSCRIPTION_OUTPUT_BUCKET (gcs_audio_path paths)
                              (local_audio_path paths))
          (upload_from_filename w TRANSCRIPTION_OUTPUT_BUCKET (gcs_audio_path paths)
                                (local_audio_path paths)) ;;
  log INFO (UploadedAudio TRANSCRIPTION_OUTPUT_BUCKET (gcs_audio_path paths)).

(** Stage 4, lines 100-118: the recognition request and the wait for it. *)
Definition recognize : M (list SpeechRecognitionResult) :=
  let uri := "gs://" ++ TRANSCRIPTION_OUTPUT_BUCKET ++ "/" ++ gcs_audio_path paths in
  log INFO SendingAudio ;;
  call_ro (LongRunningRecognize recognition_config uri 600)
          (fun _ => long_running_recognize w recognition_config uri 600).

(** Stage 5, lines 159-161. *)
Definition save_transcript (transcript_content : string) : M unit :=
  call_ro (UploadFromString TRANSCRIPTION_OUTPUT_BUCKET (gcs_transcript_path paths)
                            transcript_content "text/plain")
          (fun _ => upload_from_string w TRANSCRIPTION_OUTPUT_BUCKET
                      (gcs_transcript_path paths) transcript_content "text/plain") ;;
  log INFO (TranscriptionSaved TRANSCRIPTION_OUTPUT_BUCKET (gcs_transcript_path paths)).

(** The analysis request, lines 164-197. *)
Definition analyze (transcript_content : string) : M string :=
  let full_prompt :=
    analysis_instructions ++ Str.nl ++ Str.nl ++ "Transcript:" ++ Str.nl
      ++ transcript_content in
  log INFO SendingPrompt ;;
  log INFO (PromptLength (Str.len full_prompt)) ;;
  (if (Str.len full_prompt <? 500) || (10000 <? Str.len full_prompt) then
     log INFO (FullPrompt (Str.slice_to 1000 full_prompt)) ;;
     if 10000 <? Str.len full_prompt then log WARNING PromptVeryLong else ret tt
   else ret tt) ;;
  analysis_content <-
    call_ro (GenerateContent GEMINI_API_KEY "gemini-2.5-pro" full_prompt)
            (fun _ => generate_content w GEMINI_API_KEY "gemini-2.5-pro" full_prompt) ;;
  log INFO AnalysisComplete ;;
  log INFO (AnalysisLength (Str.len analysis_content)) ;;
  log INFO (PartialAnalysis (Str.slice_to 200 analysis_content)) ;;
  ret analysis_content.

(** Stage 6, lines 200-202. *)
Definition save_analysis (analysis_content : string) : M unit :=
  call_ro (UploadFromString TRANSCRIPTION_OUTPUT_BUCKET (gcs_analysis_path paths)
                            analysis_content "text/plain")
          (fun _ => upload_from_string w TRANSCRIPTION_OUTPUT_BUCKET
                      (gcs_analysis_path paths) analysis_content "text/plain") ;;
  log INFO (AnalysisSaved TRANSCRIPTION_OUTPUT_BUCKET (gcs_analysis_path paths)).

(** What follows the recognition response, lines 120-202. *)
Definition process_response (results : list SpeechRecognitionResult) : M unit :=
  transcript_content <- reconstruct_transcript results ;;
  save_transcript transcript_content ;;
  analysis_content <- analyze transcript_content ;;
  save_analysis analysis_content.

(** The body of the outer [try], lines 64-202. *)
Definition pipeline : M unit :=
  download_video ;;
  extract_audio ;;
  upload_audio ;;
  results <- recognize ;;
  process_response results.

(** The two [except] clauses of the outer [try], lines 204-209.  The first
    formats [e.stderr.decode()]; [e.stderr] is a [str] here ([text=True]) and
    has no [decode], so the clause raises before it logs. *)
Definition outer_except (e : exn) : option (M unit) :=
  match e with
  | CalledProcessError _ => Some (raise AttributeError)
  | _ => Some (log ERROR (ErrorDuringProcess e) ;; raise e)
  end.

(** The [finally] clause, lines 211-217, on the regular files. *)
Definition cleanup : M unit :=
  video_there <- path_exists (local_video_path paths) ;;
  (if video_there : bool then
     remove (local_video_path paths) ;;
     log INFO (CleanedUp (local_video_path paths))
   else ret tt) ;;
  audio_there <- path_exists (local_audio_path paths) ;;
  (if audio_there : bool then
     remove (local_audio_path paths) ;;
     log INFO (CleanedUp (local_audio_path paths))
   else ret tt).

(** Lines 63-217. *)
Definition guarded_pipeline : M unit :=
  try_finally (try_except pipeline outer_except) cleanup.

End Orchestrator.

(** [if not GEMINI_API_KEY]: the key is missing or is the empty string. *)
Definition key_missing (key : option string) : bool :=
  match key with
  | None => true
  | Some k => String.eqb k ""
  end.

(** [transcribe_video_from_gcs(cloud_event)], lines 27-217, run in the
    process environment [environ] against the collaborators [w]. *)
Definition transcribe_video_from_gcs (w : World) (environ : gmap string string)
    (data : UploadEvent) : M unit :=
  let bucket_name := bucket data in
  let file_name := name data in
  let mime_type := contentType data in
  log INFO (ReceivedUploadEvent file_name bucket_name) ;;
  log INFO (MimeType mime_type) ;;
  let INPUT_VIDEO_BUCKET :=
    environ_get environ "INPUT_VIDEO_BUCKET" "your-input-video-bucket" in
  let TRANSCRIPTION_OUTPUT_BUCKET :=
    environ_get environ "TRANSCRIPTION_OUTPUT_BUCKET" "your-transcription-output-bucket" in
  let GEMINI_API_KEY := environ !! "GEMINI_API_KEY" in
  if key_missing GEMINI_API_KEY then
    log ERROR GeminiKeyNotSet ;;
    raise (ValueError "GEMINI_API_KEY is required.")
  else if negb (String.eqb bucket_name INPUT_VIDEO_BUCKET) then
    log WARNING (IgnoringUnexpectedBucket bucket_name INPUT_VIDEO_BUCKET)
  else if negb (Str.startswith "video/" mime_type) then
    log WARNING (SkippingNonVideo file_name mime_type)
  else
    guarded_pipeline w bucket_name file_name TRANSCRIPTION_OUTPUT_BUCKET
      (default "" GEMINI_API_KEY) (artifact_paths file_name).

(** ** Vocabulary of the specification *)

(** A computation that answers [a] whatever the local disk holds. *)
Definition returns {A} (m : M A) (a : A) : Prop :=
  forall d, result (m d) = inr a.

(** The top alternatives of the results that have one, in result order. *)
Definition top_alternatives (results : list SpeechRecognitionResult)
  : list SpeechRecognitionAlternative :=
  flat_map (fun r => match alternatives r with alt :: _ => [alt] | [] => [] end)
           results.

Definition has_top_alternative (r : SpeechRecognitionResult) : Prop :=
  alternatives r <> [].

(** The top alternative of the result carries word-level speaker tags. *)
Definition carries_speaker_tags (r : SpeechRecognitionResult) : Prop :=
  exists alt rest, alternatives r = alt :: rest /\ words alt <> [].

(** The top alternative of the result has a transcript but no word list. *)
Definition has_no_words (r : SpeechRecognitionResult) : Prop :=
  exists alt rest, alternatives r = alt :: rest /\ words alt = [].

(** Every tagged word of the response, in per-result, per-word scan order. *)
Definition tagged_words (results : list SpeechRecognitionResult) : list WordInfo :=
  flat_map words (top_alternatives results).

(** The words attributed to one speaker, in scan order. *)
Definition words_of_speaker (tag : Z) (results : list SpeechRecognitionResult)
  : list string :=
  map word (filter (fun w => speaker_tag w = tag) (tagged_words results)).

(** The line the specification asks for one speaker. *)
Definition expected_speaker_line (results : list SpeechRecognitionResult) (tag : Z)
  : string :=
  "Speaker " ++ pretty tag ++ ": "
    ++ Str.join " " (words_of_speaker tag results) ++ Str.nl.

(** The top-alternative transcripts of the results without word list. *)
Definition fallback_transcripts (results : list SpeechRecognitionResult)
  : list string :=
  map transcript (filter (fun alt => words alt = []) (top_alternatives results)).

(** Each string followed by a newline. *)
Definition newline_terminated (lines : list string) : string :=
  Str.cat (map (fun l => l ++ Str.nl) lines).

(** The buckets after the whole scan, and the per-speaker lines made of them. *)
Definition buckets (results : list SpeechRecognitionResult) : gmap Z (list string) :=
  fold_left append_word (tagged_words results) ∅.

(** What lines 126-148 leave in [transcript_content] when every result has a
    top alternative. *)
Definition transcript_text (results : list SpeechRecognitionResult) : string :=
  newline_terminated (fallback_transcripts results) ++ speaker_lines (buckets results).

(** The records that the loop of lines 128-139 logs. *)
Fixpoint scan_log (i : Z) (results : list SpeechRecognitionResult) : list call :=
  match results with
  | [] => []
  | r :: rest =>
      match alternatives r with
      | alt :: _ => Log INFO (ProcessingResult (i + 1) (confidence alt))
                      :: scan_log (i + 1) rest
      | [] => []
      end
  end.

(** Everything that lines 121-156 log for a response. *)
Definition reconstruct_log (results : list SpeechRecognitionResult) : list call :=
  (match results with
   | [] => Log WARNING NoTranscriptionResults
   | _ :: _ => Log INFO (ReturnedResults (Z.of_nat (List.length results)))
   end
   :: scan_log 0 results)
  ++ [Log INFO TranscriptionComplete;
      Log INFO (TranscriptLength (Str.len (transcript_text results)));
      if Str.len (transcript_text results) =? 0
      then Log ERROR FinalTranscriptEmpty
      else Log INFO (PartialTranscript (Str.slice_to 200 (transcript_text results)))].

(** The process environment and the event, as the guards of lines 41-53
    read them. *)
Definition credential_present (environ : gmap string string) : Prop :=
  key_missing (environ !! "GEMINI_API_KEY") = false.

Definition input_bucket (environ : gmap string string) : string :=
  environ_get environ "INPUT_VIDEO_BUCKET" "your-input-video-bucket".

Definition output_bucket (environ : gmap string string) : string :=
  environ_get environ "TRANSCRIPTION_OUTPUT_BUCKET" "your-transcription-output-bucket".

Definition is_video (data : UploadEvent) : Prop :=
  Str.startswith "video/" (contentType data) = true.

(** The event passes the three guards and reaches the [try] of line 63. *)
Definition reaches_pipeline (environ : gmap string string) (data : UploadEvent) : Prop :=
  credential_present environ /\ bucket data = input_bucket environ /\ is_video data.

(** A call of the [finally] clause. *)
Definition is_cleanup_call (c : call) : bool :=
  match c with
  | PathExists _ | Remove _ | Log _ (CleanedUp _) => true
  | _ => false
  end.

(** A computation all of whose calls satisfy [P], whatever the disk and
    however it ends. *)
Definition only (P : call -> Prop) {A} (m : M A) : Prop :=
  forall d, Forall P (calls (m d)).

Definition not_cleanup (c : call) : Prop := is_cleanup_call c = false.

Definition not_external (c : call) : Prop := is_external c = false.

(** What the [finally] clause does about one scratch file. *)
Definition removal_calls (path : string) (d : gmap string Z) : list call :=
  PathExists path
    :: (if bool_decide (is_Some (d !! path))
        then [Remove path; Log INFO (CleanedUp path)]
        else []).

(** The calls of the [finally] clause when it starts on the disk [d]. *)
Definition cleanup_calls (paths : ArtifactPaths) (d : gmap string Z) : list call :=
  removal_calls (local_video_path paths) d
    ++ removal_calls (local_audio_path paths) (delete (local_video_path paths) d).

(** The two records that open every run, lines 32-33. *)
Definition opening_log (data : UploadEvent) : list call :=
  [Log INFO (ReceivedUploadEvent (name data) (bucket data));
   Log INFO (MimeType (contentType data))].

(** A computation whose calls begin with [pre], whatever the disk and
    however it ends. *)
Definition starts_with (pre : list call) {A} (m : M A) : Prop :=
  forall d, exists rest, calls (m d) = (pre ++ rest)%list.

(** The credential is absent from the environment or is the empty string. *)
Definition credential_absent (environ : gmap string string) : Prop :=
  environ !! "GEMINI_API_KEY" = None \/ environ !! "GEMINI_API_KEY" = Some "".

(** The [try] statement of lines 63-209 without its [finally] clause. *)
Definition stages (w : World) (environ : gmap string string) (data : UploadEvent)
  : M unit :=
  try_except
    (pipeline w (bucket data) (name data) (output_bucket environ)
       (default "" (environ !! "GEMINI_API_KEY")) (artifact_paths (name data)))
    outer_except.

(** The records of the loop of lines 128-139. *)
Definition is_processing_record (c : call) : Prop :=
  exists i conf, c = Log INFO (ProcessingResult i conf).


(** ** Concrete inputs *)

Module Sample.

Definition tagged (w : string) (tag : Z) : WordInfo :=
  {| word := w; speaker_tag := tag |}.

(** A result with a single alternative. *)
Definition group (text : string) (conf : float) (ws : list WordInfo)
  : SpeechRecognitionResult :=
  {| alternatives := [ {| transcript := text; confidence := conf; words := ws |} ] |}.

(** Two groups, the first with words of speaker 1, the second of speaker 2. *)
Definition two_groups : list SpeechRecognitionResult :=
  [ group "hello there" 0.75%float [tagged "hello" 1; tagged "there" 1];
    group "hi" 0.5%float [tagged "hi" 2] ].

(** One group with tagged words and one with a transcript only. *)
Definition mixed : list SpeechRecognitionResult :=
  [ group "hi" 0.75%float [tagged "hi" 1];
    group "yo" 0.5%float [] ].

(** One group with a transcript only. *)
Definition untagged : list SpeechRecognitionResult :=
  [ group "a" 0.75%float [] ].

(** A world in which every collaborator succeeds: the download and the
    transcoder write their output file, the recognition service answers
    [two_groups], the LLM answers a fixed text. *)
Definition cooperative : World :=
  {| download_to_filename := fun _ _ filename d => (inr tt, <[filename := 1024]> d);
     subprocess_run := fun command d =>
       (inr ("", ""), <[List.last command "" := 512]> d);
     upload_from_filename := fun _ _ _ _ => inr tt;
     long_running_recognize := fun _ _ _ => inr two_groups;
     upload_from_string := fun _ _ _ _ => inr tt;
     generate_content := fun _ _ _ => inr "analysis" |}.

(** A world like [cooperative] whose recognition service finds nothing. *)
Definition silent : World :=
  {| download_to_filename := download_to_filename cooperative;
     subprocess_run := subprocess_run cooperative;
     upload_from_filename := upload_from_filename cooperative;
     long_running_recognize := fun _ _ _ => inr [];
     upload_from_string := upload_from_string cooperative;
     generate_content := generate_content cooperative |}.

(** A world in which the transcoder exits non-zero. *)
Definition broken_transcoder : World :=
  {| download_to_filename := fun _ _ filename d => (inr tt, <[filename := 1024]> d);
     subprocess_run := fun _ d => (inl (CalledProcessError "no audio stream"), d);
     upload_from_filename := fun _ _ _ _ => inr tt;
     long_running_recognize := fun _ _ _ => inr [];
     upload_from_string := fun _ _ _ _ => inr tt;
     generate_content := fun _ _ _ => inr "analysis" |}.

(** A process environment with the three settings, and one without the key. *)
Definition configured : gmap string string :=
  {[ "INPUT_VIDEO_BUCKET" := "in";
     "TRANSCRIPTION_OUTPUT_BUCKET" := "out";
     "GEMINI_API_KEY" := "secret" ]}.

Definition without_key : gmap string string :=
  {[ "INPUT_VIDEO_BUCKET" := "in";
     "TRANSCRIPTION_OUTPUT_BUCKET" := "out" ]}.

Definition clip1 : UploadEvent :=
  {| bucket := "in"; name := "clip1.mp4"; contentType := "video/mp4" |}.


Definition not_a_video : UploadEvent :=
  {| bucket := "in"; name := "notes.txt"; contentType := "text/plain" |}.

Definition unnamed : UploadEvent :=
  {| bucket := "in"; name := ""; contentType := "video/mp4" |}.

End Sample.

(** ** Vocabulary for the stages *)

(** The body of the outer [try] for an event: [pipeline] with the arguments
    that [transcribe_video_from_gcs] gives it. *)
Definition stage_sequence (w : World) (environ : gmap string string)
    (data : UploadEvent) : M unit :=
  pipeline w (bucket data) (name data) (output_bucket environ)
    (default "" (environ !! "GEMINI_API_KEY")) (artifact_paths (name data)).

(** [full_prompt] of line 180. *)
Definition prompt_for (transcript_content : string) : string :=
  analysis_instructions ++ Str.nl ++ Str.nl ++ "Transcript:" ++ Str.nl
    ++ transcript_content.

(** What lines 182-188 log before the request. *)
Definition prompt_log (transcript_content : string) : list call :=
  [Log INFO SendingPrompt;
   Log INFO (PromptLength (Str.len (prompt_for transcript_content)))]
  ++ (if 10000 <? Str.len (prompt_for transcript_content)
      then [Log INFO (FullPrompt (Str.slice_to 1000 (prompt_for transcript_content)));
            Log WARNING PromptVeryLong]
      else []).

(** What lines 195-197 log after the answer. *)
Definition analysis_log (analysis_content : string) : list call :=
  [Log INFO AnalysisComplete;
   Log INFO (AnalysisLength (Str.len analysis_content));
   Log INFO (PartialAnalysis (Str.slice_to 200 analysis_content))].

(** The calls of each stage when it goes through. *)
Definition download_calls (bucket_name file_name : string) (paths : ArtifactPaths)
    (size : Z) : list call :=
  [Log INFO (Downloading file_name bucket_name (local_video_path paths));
   DownloadToFilename bucket_name file_name (local_video_path paths);
   Getsize (local_video_path paths);
   Log INFO (Downloaded file_name size)].

Definition transcode_calls (paths : ArtifactPaths) (out_text err_text : string)
    (size : Z) : list call :=
  [Log INFO (ExecutingFFmpeg (Str.join " " (ffmpeg_command paths)));
   SubprocessRun (ffmpeg_command paths);
   Log INFO (FFmpegStdout out_text);
   Log INFO (FFmpegStderr err_text);
   Getsize (local_audio_path paths);
   Log INFO (ExtractedAudio (local_audio_path paths) size);
   Getsize (local_audio_path paths)]
  ++ (if size =? 0 then [Log WARNING EmptyAudioFile] else []).

Definition upload_audio_calls (out_bucket : string) (paths : ArtifactPaths)
  : list call :=
  [UploadFromFilename out_bucket (gcs_audio_path paths) (local_audio_path paths);
   Log INFO (UploadedAudio out_bucket (gcs_audio_path paths))].

Definition recognize_calls (out_bucket : string) (paths : ArtifactPaths)
  : list call :=
  [Log INFO SendingAudio;
   LongRunningRecognize recognition_config
     ("gs://" ++ out_bucket ++ "/" ++ gcs_audio_path paths) 600].

Definition save_transcript_calls (out_bucket : string) (paths : ArtifactPaths)
    (transcript_content : string) : list call :=
  [UploadFromString out_bucket (gcs_transcript_path paths) transcript_content
     "text/plain";
   Log INFO (TranscriptionSaved out_bucket (gcs_transcript_path paths))].

Definition analyze_calls (api_key transcript_content analysis_content : string)
  : list call :=
  prompt_log transcript_content
  ++ [GenerateContent api_key "gemini-2.5-pro" (prompt_for transcript_content)]
  ++ analysis_log analysis_content.

Definition save_analysis_calls (out_bucket : string) (paths : ArtifactPaths)
    (analysis_content : string) : list call :=
  [UploadFromString out_bucket (gcs_analysis_path paths) analysis_content
     "text/plain";
   Log INFO (AnalysisSaved out_bucket (gcs_analysis_path paths))].

(** The seven collaborator calls of a complete run, in source order. *)
Inductive stage :=
| AtDownload | AtTranscode | AtUploadAudio | AtRecognize
| AtUploadTranscript | AtAnalyze | AtUploadAnalysis.

Definition all_stages : list stage :=
  [AtDownload; AtTranscode; AtUploadAudio; AtRecognize;
   AtUploadTranscript; AtAnalyze; AtUploadAnalysis].

#[global] Instance RecognitionConfig_eq_dec : EqDecision RecognitionConfig.
Proof. solve_decision. Defined.

(** The stage a collaborator call belongs to, when it is addressed as the
    source addresses it: right bucket, key, local path, configuration, wait,
    model and credential.  A call addressed otherwise belongs to none. *)
Definition stage_of (bucket_name file_name out_bucket api_key : string)
    (paths : ArtifactPaths) (c : call) : option stage :=
  match c with
  | DownloadToFilename b n f =>
      if bool_decide (b = bucket_name /\ n = file_name
                      /\ f = local_video_path paths)
      then Some AtDownload else None
  | SubprocessRun command =>
      if bool_decide (command = ffmpeg_command paths)
      then Some AtTranscode else None
  | UploadFromFilename b k f =>
      if bool_decide (b = out_bucket /\ k = gcs_audio_path paths
                      /\ f = local_audio_path paths)
      then Some AtUploadAudio else None
  | LongRunningRecognize config uri timeout =>
      if bool_decide (config = recognition_config
                      /\ uri = "gs://" ++ out_bucket ++ "/" ++ gcs_audio_path paths
                      /\ timeout = 600)
      then Some AtRecognize else None
  | UploadFromString b k _ content_type =>
      if bool_decide (b = out_bucket /\ k = gcs_transcript_path paths
                      /\ content_type = "text/plain")
      then Some AtUploadTranscript
      else if bool_decide (b = out_bucket /\ k = gcs_analysis_path paths
                           /\ content_type = "text/plain")
      then Some AtUploadAnalysis else None
  | GenerateContent k model _ =>
      if bool_decide (k = api_key /\ model = "gemini-2.5-pro")
      then Some AtAnalyze else None
  | Log _ _ | Getsize _ | PathExists _ | Remove _ => None
  end.

(** The stages of the collaborator calls in a list of calls. *)
Definition stages_of (so : call -> option stage) (cs : list call)
  : list (option stage) :=
  map so (List.filter is_external cs).

(** A computation whose collaborator calls are, in order, the calls of an
    initial part of [plan], and of all of [plan] when it returns. *)
Definition performs (so : call -> option stage) (plan : list stage) {A}
    (m : M A) : Prop :=
  forall d,
    exists done,
      stages_of so (calls (m d)) = map Some done
      /\ done `prefix_of` plan
      /\ (forall a, result (m d) = inr a -> done = plan).

(** A computation that leaves the entry of [path] on the disk as it was. *)
Definition preserves (path : string) {A} (m : M A) : Prop :=
  forall d, disk (m d) !! path = d !! path.

(** The collaborators answer every request of the run for [data] on the disk
    [d]: the download leaves the video, the transcoder leaves the audio on
    the disk [after], the recognition service answers [results], the LLM
    answers [analysis_content], and the three uploads go through. *)
Definition collaborators_succeed (w : World) (environ : gmap string string)
    (data : UploadEvent) (d after : gmap string Z)
    (results : list SpeechRecognitionResult) (analysis_content : string) : Prop :=
  let paths := artifact_paths (name data) in
  let out := output_bucket environ in
  exists downloaded video_size audio_size out_text err_text,
    download_to_filename w (bucket data) (name data) (local_video_path paths) d
      = (inr tt, downloaded)
    /\ downloaded !! local_video_path paths = Some video_size
    /\ subprocess_run w (ffmpeg_command paths) downloaded
       = (inr (out_text, err_text), after)
    /\ after !! local_audio_path paths = Some audio_size
    /\ upload_from_filename w out (gcs_audio_path paths) (local_audio_path paths)
         after = inr tt
    /\ long_running_recognize w recognition_config
         ("gs://" ++ out ++ "/" ++ gcs_audio_path paths) 600 = inr results
    /\ Forall has_top_alternative results
    /\ upload_from_string w out (gcs_transcript_path paths)
         (transcript_text results) "text/plain" = inr tt
    /\ generate_content w (default "" (environ !! "GEMINI_API_KEY"))
         "gemini-2.5-pro" (prompt_for (transcript_text results))
       = inr analysis_content
    /\ upload_from_string w out (gcs_analysis_path paths) analysis_content
         "text/plain" = inr tt.

Module More.

(** A response whose second result has no alternative at all. *)
Definition truncated : list SpeechRecognitionResult :=
  [ Sample.group "hi" 0.75%float [Sample.tagged "hi" 1];
    {| alternatives := [] |} ].

(** The words of [Sample.two_groups] in a single result. *)
Definition one_group : list SpeechRecognitionResult :=
  [ Sample.group "hello there hi" 0.75%float
      [Sample.tagged "hello" 1; Sample.tagged "there" 1; Sample.tagged "hi" 2] ].

(** A world in which the object is not there to download. *)
Definition missing_object : World :=
  {| download_to_filename := fun _ _ _ d => (inl (CollaboratorError "NotFound"), d);
     subprocess_run := subprocess_run Sample.cooperative;
     upload_from_filename := upload_from_filename Sample.cooperative;
     long_running_recognize := long_running_recognize Sample.cooperative;
     upload_from_string := upload_from_string Sample.cooperative;
     generate_content := generate_content Sample.cooperative |}.

(** A world in which the transcoder writes an empty audio file. *)
Definition mute : World :=
  {| download_to_filename := download_to_filename Sample.cooperative;
     subprocess_run := fun command d =>
       (inr ("", ""), <[List.last command "" := 0]> d);
     upload_from_filename := upload_from_filename Sample.cooperative;
     long_running_recognize := fun _ _ _ => inr [];
     upload_from_string := upload_from_string Sample.cooperative;
     generate_content := generate_content Sample.cooperative |}.

Definition nested_clip : UploadEvent :=
  {| bucket := "in"; name := "calls/2024/clip1.mp4"; contentType := "video/mp4" |}.

End More.

(** ** The scratch directory on the disk *)

(** The disk of the monad holds the regular files.  The scratch directory is
    on every disk as well: [TEMP_DIR/], [TEMP_DIR/.] and [TEMP_DIR/..] name
    directories, and these are the only directories that a path of
    [artifact_paths] can name when nothing else puts directories under
    [TEMP_DIR].  [path_exists] and [remove] above are [os.path.exists] and
    [os.remove] on the paths that name no directory; the definitions of this
    module cover the three that do. *)

Module Posix.

Definition is_directory (path : string) : bool :=
  String.eqb path (TEMP_DIR ++ "/")
  || String.eqb path (TEMP_DIR ++ "/.")
  || String.eqb path (TEMP_DIR ++ "/..").

(** [os.path.exists(path)]: [True] for a directory and for a regular file. *)
Definition path_exists (path : string) : M bool :=
  emit (PathExists path) ;;
  fun d =>
    Outcome (inr (is_directory path || bool_decide (is_Some (d !! path)))) d [].

(** [os.remove(path)]: raises [IsADirectoryError] on a directory, removes a
    regular file, raises [FileNotFoundError] when there is nothing. *)
Definition remove (path : string) : M unit :=
  emit (Remove path) ;;
  fun d =>
    if is_directory path then Outcome (inl (IsADirectoryError path)) d []
    else match d !! path with
         | Some _ => Outcome (inr tt) (delete path d) []
         | None => Outcome (inl (FileNotFoundError path)) d []
         end.

(** The [finally] clause, lines 211-217. *)
Definition cleanup (paths : ArtifactPaths) : M unit :=
  video_there <- path_exists (local_video_path paths) ;;
  (if video_there : bool then
     remove (local_video_path paths) ;;
     log INFO (CleanedUp (local_video_path paths))
   else ret tt) ;;
  audio_there <- path_exists (local_audio_path paths) ;;
  (if audio_there : bool then
     remove (local_audio_path paths) ;;
     log INFO (CleanedUp (local_audio_path paths))
   else ret tt).

(** Lines 63-217. *)
Definition guarded_pipeline (w : World)
    (bucket_name file_name TRANSCRIPTION_OUTPUT_BUCKET GEMINI_API_KEY : string)
    (paths : ArtifactPaths) : M unit :=
  try_finally
    (try_except
       (pipeline w bucket_name file_name TRANSCRIPTION_OUTPUT_BUCKET GEMINI_API_KEY
          paths)
       outer_except)
    (cleanup paths).

(** [transcribe_video_from_gcs(cloud_event)], lines 27-217. *)
Definition transcribe_video_from_gcs (w : World) (environ : gmap string string)
    (data : UploadEvent) : M unit :=
  let bucket_name := bucket data in
  let file_name := name data in
  let mime_type := contentType data in
  log INFO (ReceivedUploadEvent file_name bucket_name) ;;
  log INFO (MimeType mime_type) ;;
  let INPUT_VIDEO_BUCKET :=
    environ_get environ "INPUT_VIDEO_BUCKET" "your-input-video-bucket" in
  let TRANSCRIPTION_OUTPUT_BUCKET :=
    environ_get environ "TRANSCRIPTION_OUTPUT_BUCKET" "your-transcription-output-bucket" in
  let GEMINI_API_KEY := environ !! "GEMINI_API_KEY" in
  if key_missing GEMINI_API_KEY then
    log ERROR GeminiKeyNotSet ;;
    raise (ValueError "GEMINI_API_KEY is required.")
  else if negb (String.eqb bucket_name INPUT_VIDEO_BUCKET) then
    log WARNING (IgnoringUnexpectedBucket bucket_name INPUT_VIDEO_BUCKET)
  else if negb (Str.startswith "video/" mime_type) then
    log WARNING (SkippingNonVideo file_name mime_type)
  else
    guarded_pipeline w bucket_name file_name TRANSCRIPTION_OUTPUT_BUCKET
      (default "" GEMINI_API_KEY) (artifact_paths file_name).

End Posix.

(** The object name ends in a file name: its last component is not empty
    (the name is not empty and does not end in the separator) and is neither
    [.] nor [..]. *)
Definition has_file_name (data : UploadEvent) : Prop :=
  OsPath.basename (name data) <> ""
  /\ OsPath.basename (name data) <> "."
  /\ OsPath.basename (name data) <> "..".

(** ** More vocabulary *)

(** Every character of [p] is a dot. *)
Fixpoint only_dots (p : string) : bool :=
  match p with
  | EmptyString => true
  | String a r => Ascii.eqb a OsPath.extsep && only_dots r
  end.

(** Lines 141-148 on their own: the [if]/[elif] that follows the loop, from
    [transcript_content] and [speaker_transcripts] as the loop left them. *)
Definition speaker_lines_or_fallback (results : list SpeechRecognitionResult)
    (transcript_content : string) (speaker_transcripts : gmap Z (list string))
  : M string :=
  if negb (bool_decide (speaker_transcripts = ∅)) then
    ret (transcript_content ++ speaker_lines speaker_transcripts)
  else if String.eqb transcript_content ""
          && negb (bool_decide (results = [])) then
    log WARNING FallingBackToFullTranscript ;;
    fallback_results results transcript_content
  else ret transcript_content.


Module Edge.

(** The placeholder object of a folder, uploaded with a video type. *)
Definition folder : UploadEvent :=
  {| bucket := "in"; name := "videos/"; contentType := "video/mp4" |}.

(** A world like [Sample.cooperative] in which a download onto a directory
    fails as [open(filename, 'wb')] does. *)
Definition real_scratch : World :=
  {| download_to_filename := fun _ _ filename d =>
       if Posix.is_directory filename
       then (inl (IsADirectoryError filename), d)
       else (inr tt, <[filename := 1024]> d);
     subprocess_run := subprocess_run Sample.cooperative;
     upload_from_filename := upload_from_filename Sample.cooperative;
     long_running_recognize := long_running_recognize Sample.cooperative;
     upload_from_string := upload_from_string Sample.cooperative;
     generate_content := generate_content Sample.cooperative |}.

(** A disk on which an earlier run left an audio file. *)
Definition stale_audio : gmap string Z := {[ "/tmp/.flac" := 512 ]}.

End Edge.

(** * Facts *)

(** ** Slices and [rfind] *)

Section StrFacts.

Lemma app_cons (a : ascii) (p q : string) :
  String a p ++ q = String a (p ++ q).
Proof. reflexivity. Qed.

Lemma app_assoc (p q r : string) : (p ++ q) ++ r = p ++ q ++ r.
Proof.
  induction p as [|a p IH]; [reflexivity|].
  now rewrite !app_cons, IH.
Qed.

Lemma app_nil_r (p : string) : p ++ "" = p.
Proof.
  induction p as [|a p IH]; [reflexivity|].
  now rewrite app_cons, IH.
Qed.

Lemma app_empty (p q : string) : p ++ q = "" -> p = "" /\ q = "".
Proof. destruct p; [auto|discriminate]. Qed.

Lemma slice_to_from (i : nat) (p : string) :
  Str.slice_to i p ++ Str.slice_from i p = p.
Proof.
  revert p; induction i as [|i IH]; intros [|a r]; simpl; try reflexivity.
  now rewrite app_cons, IH.
Qed.

Lemma rfind_lower (c : ascii) (p : string) : -1 <= Str.rfind c p.
Proof.
  induction p as [|a r IH]; simpl; [lia|].
  destruct (Z.leb_spec 0 (Str.rfind c r)); [lia|].
  destruct (Ascii.eqb a c); lia.
Qed.

Lemma rfind_absent (c : ascii) (p : string) :
  Str.rfind c p = -1 -> Str.mem c p = false.
Proof.
  induction p as [|a r IH]; simpl; [reflexivity|].
  destruct (Z.leb_spec 0 (Str.rfind c r)) as [Hr|Hr].
  - lia.
  - destruct (Ascii.eqb a c); [discriminate|].
    intros _. apply IH. pose proof (rfind_lower c r). lia.
Qed.

(** The character at index [rfind c p] is [c] and no [c] follows it. *)
Lemma rfind_split (c : ascii) (p : string) :
  0 <= Str.rfind c p ->
  Str.slice_from (Z.to_nat (Str.rfind c p)) p
    = String c (Str.slice_from (Z.to_nat (Str.rfind c p + 1)) p)
  /\ Str.mem c (Str.slice_from (Z.to_nat (Str.rfind c p + 1)) p) = false.
Proof.
  induction p as [|a r IH]; simpl; [lia|].
  destruct (Z.leb_spec 0 (Str.rfind c r)) as [Hr|Hr].
  - intros _. destruct (IH Hr) as [E M].
    replace (Z.to_nat (1 + Str.rfind c r)) with (S (Z.to_nat (Str.rfind c r))) by lia.
    replace (Z.to_nat (1 + Str.rfind c r + 1))
      with (S (Z.to_nat (Str.rfind c r + 1))) by lia.
    simpl. auto.
  - destruct (Ascii.eqb_spec a c) as [->|Hac]; [|lia].
    intros _. simpl. split; [reflexivity|].
    apply rfind_absent. pose proof (rfind_lower c r). lia.
Qed.

Lemma mem_app (c : ascii) (p q : string) :
  Str.mem c (p ++ q) = Str.mem c p || Str.mem c q.
Proof.
  induction p as [|a r IH]; [reflexivity|].
  rewrite app_cons. simpl. now rewrite IH, orb_assoc.
Qed.

Lemma mem_slice_to (c : ascii) (i : nat) (p : string) :
  Str.mem c p = false -> Str.mem c (Str.slice_to i p) = false.
Proof.
  intros H. rewrite <- (slice_to_from i p), mem_app in H.
  now apply orb_false_elim in H.
Qed.

End StrFacts.

(** ** The [os.path] helpers *)

Section OsPathFacts.

(** [basename] drops a directory prefix that is empty or ends in the
    separator, and what it keeps holds no separator. *)
Lemma basename_split (p : string) :
  exists dir,
    p = dir ++ OsPath.basename p
    /\ (dir = "" \/ exists d, dir = d ++ "/")
    /\ Str.mem OsPath.sep (OsPath.basename p) = false.
Proof.
  unfold OsPath.basename.
  destruct (Z.eq_dec (Str.rfind OsPath.sep p) (-1)) as [E|E].
  - exists "". rewrite E. simpl. auto using rfind_absent.
  - assert (H : 0 <= Str.rfind OsPath.sep p)
      by (pose proof (rfind_lower OsPath.sep p); lia).
    destruct (rfind_split _ _ H) as [S M].
    exists (Str.slice_to (Z.to_nat (Str.rfind OsPath.sep p)) p ++ "/").
    split; [|split; [right; eauto | exact M]].
    rewrite app_assoc.
    change ("/" ++ ?x) with (String OsPath.sep x).
    rewrite <- S. symmetry. apply slice_to_from.
Qed.

(** [splitext] cuts its argument in two; the second part is empty or is a
    dot followed by dot-free characters. *)
Lemma splitext_split (p : string) :
  p = fst (OsPath.splitext p) ++ snd (OsPath.splitext p)
  /\ (snd (OsPath.splitext p) = ""
      \/ exists e, snd (OsPath.splitext p) = "." ++ e
                   /\ Str.mem OsPath.extsep e = false).
Proof.
  unfold OsPath.splitext.
  destruct (_ && _) eqn:C; simpl.
  - split; [symmetry; apply slice_to_from|].
    right. apply andb_prop in C as [C _]. apply Z.ltb_lt in C.
    assert (H : 0 <= Str.rfind OsPath.extsep p)
      by (pose proof (rfind_lower OsPath.sep p); lia).
    destruct (rfind_split _ _ H) as [S M].
    eexists; split; [exact S | exact M].
  - split; [|now left]. now rewrite app_nil_r.
Qed.

Lemma splitext_no_sep (p : string) :
  Str.mem OsPath.sep p = false ->
  Str.mem OsPath.sep (fst (OsPath.splitext p)) = false.
Proof.
  intros H. unfold OsPath.splitext.
  destruct (_ && _); simpl; [now apply mem_slice_to | exact H].
Qed.

Lemma startswith_sep (b : string) :
  Str.mem OsPath.sep b = false -> Str.startswith "/" b = false.
Proof.
  destruct b as [|a r]; [reflexivity|].
  intros H. cbn [Str.mem] in H. apply orb_false_elim in H as [H _].
  unfold Str.startswith. cbn [String.prefix].
  destruct (ascii_dec "/" a) as [<-|_]; [discriminate H|reflexivity].
Qed.

(** A file name without separator is put right under the scratch directory. *)
Lemma join_temp_dir (b : string) :
  Str.mem OsPath.sep b = false -> OsPath.join TEMP_DIR b = "/tmp/" ++ b.
Proof.
  intros H. unfold OsPath.join.
  change (String OsPath.sep "") with "/".
  now rewrite (startswith_sep _ H).
Qed.

End OsPathFacts.

(** ** The speaker buckets *)

Section Buckets.

Implicit Types (d : gmap Z (list string)) (w : WordInfo) (ws : list WordInfo).

Lemma append_word_lookup d w (t : Z) :
  append_word d w !! t
  = if decide (t = speaker_tag w)
    then Some (default [] (d !! t) ++ [word w])%list
    else d !! t.
Proof.
  unfold append_word. case_decide as E.
  - subst t. destruct (d !! speaker_tag w) eqn:L.
    + now rewrite lookup_insert_eq, L.
    + now rewrite !lookup_insert_eq.
  - destruct (d !! speaker_tag w) eqn:L.
    + now rewrite lookup_insert_ne by congruence.
    + now rewrite !lookup_insert_ne by congruence.
Qed.

(** After a run of words the bucket of [t] is what it was, extended with the
    words tagged [t], in order; a tag that no word carries gets no bucket. *)
Lemma fold_append_word_lookup ws d (t : Z) :
  fold_left append_word ws d !! t
  = match filter (fun w => speaker_tag w = t) ws with
    | [] => d !! t
    | _ :: _ =>
        Some (default [] (d !! t)
                ++ map word (filter (fun w => speaker_tag w = t) ws))%list
    end.
Proof.
  revert d. induction ws as [|w ws IH]; intros d; [reflexivity|].
  cbn [fold_left]. rewrite IH, append_word_lookup.
  destruct (decide (speaker_tag w = t)) as [E|E].
  - rewrite filter_cons_True by exact E.
    rewrite decide_True by congruence. cbn [default map].
    destruct (filter _ ws); cbn [map].
    + reflexivity.
    + unfold id. now rewrite <- List.app_assoc.
  - rewrite filter_cons_False by exact E.
    now rewrite decide_False by congruence.
Qed.

Lemma buckets_lookup (results : list SpeechRecognitionResult) (t : Z) :
  buckets results !! t
  = match words_of_speaker t results with
    | [] => None
    | _ :: _ => Some (words_of_speaker t results)
    end.
Proof.
  unfold buckets, words_of_speaker. rewrite fold_append_word_lookup.
  destruct (filter _ _); reflexivity.
Qed.

(** A tag has a bucket exactly when some scanned word carries it. *)
Lemma buckets_is_Some (results : list SpeechRecognitionResult) (t : Z) :
  is_Some (buckets results !! t) <-> In t (map speaker_tag (tagged_words results)).
Proof.
  rewrite buckets_lookup. unfold words_of_speaker.
  rewrite in_map_iff. split.
  - destruct (filter _ _) as [|w l] eqn:F; cbn [map].
    + intros [? ?]; discriminate.
    + intros _. assert (Hw : w ∈ filter (fun w => speaker_tag w = t)
                                        (tagged_words results))
        by (rewrite F; left).
      apply list_elem_of_filter in Hw as [Ht Hw].
      exists w. split; [exact Ht | now apply list_elem_of_In].
  - intros (w & Ht & Hw).
    assert (Hf : w ∈ filter (fun w => speaker_tag w = t) (tagged_words results))
      by (apply list_elem_of_filter; split; [exact Ht | now apply list_elem_of_In]).
    destruct (filter _ _); [inversion Hf | cbn [map]; eauto].
Qed.

Lemma buckets_default (results : list SpeechRecognitionResult) (t : Z) :
  default [] (buckets results !! t) = words_of_speaker t results.
Proof.
  rewrite buckets_lookup. destruct (words_of_speaker t results); reflexivity.
Qed.

Lemma buckets_empty (results : list SpeechRecognitionResult) :
  buckets results = ∅ <-> tagged_words results = [].
Proof.
  split.
  - intros E. destruct (tagged_words results) as [|w l] eqn:T; [reflexivity|].
    assert (H : is_Some (buckets results !! speaker_tag w))
      by (apply buckets_is_Some; rewrite T; now left).
    rewrite E, lookup_empty in H. now destruct H.
  - intros E. unfold buckets. now rewrite E.
Qed.

End Buckets.

(** ** [sorted] on the keys *)

Section SortedKeys.

Lemma StronglySorted_le_lt (l : list Z) :
  StronglySorted Z.le l -> NoDup l -> StronglySorted Z.lt l.
Proof.
  induction 1 as [|x l S IH F]; intros N; [constructor|].
  apply NoDup_cons in N as [Hx N].
  constructor; [auto|].
  apply Forall_forall. intros y Hy.
  rewrite Forall_forall in F. specialize (F y Hy).
  assert (x <> y) by (intros ->; contradiction).
  lia.
Qed.

Lemma sorted_keys_Permutation (d : gmap Z (list string)) :
  sorted_keys d ≡ₚ (map_to_list d).*1.
Proof. apply merge_sort_Permutation. Qed.

(** The tags come out in strictly ascending order, so each once. *)
Lemma sorted_keys_ascending (d : gmap Z (list string)) :
  StronglySorted Z.lt (sorted_keys d).
Proof.
  apply StronglySorted_le_lt.
  - apply StronglySorted_merge_sort; apply _.
  - rewrite sorted_keys_Permutation. apply NoDup_fst_map_to_list.
Qed.

Lemma sorted_keys_elem (d : gmap Z (list string)) (t : Z) :
  t ∈ sorted_keys d <-> is_Some (d !! t).
Proof.
  rewrite sorted_keys_Permutation, list_elem_of_fmap. split.
  - intros ([k v] & -> & H). apply elem_of_map_to_list in H. eauto.
  - intros [v H]. exists (t, v). split; [reflexivity|].
    now apply elem_of_map_to_list.
Qed.


End SortedKeys.

(** ** Running the monad *)

Section Running.

Context {A B : Type}.

Lemma bind_ret (a : A) (k : A -> M B) (d : gmap string Z) :
  bind (ret a) k d = k a d.
Proof. reflexivity. Qed.

Lemma bind_emit (c : call) (k : unit -> M B) (d : gmap string Z) :
  bind (emit c) k d
  = Outcome (result (k tt d)) (disk (k tt d)) (c :: calls (k tt d)).
Proof. reflexivity. Qed.

Lemma bind_value (m : M A) (k : A -> M B) (d d' : gmap string Z) (a : A)
    (cs : list call) :
  m d = Outcome (inr a) d' cs ->
  bind m k d = Outcome (result (k a d')) (disk (k a d')) (cs ++ calls (k a d')).
Proof. unfold bind. now intros ->. Qed.

Lemma bind_exception (m : M A) (k : A -> M B) (d d' : gmap string Z) (e : exn)
    (cs : list call) :
  m d = Outcome (inl e) d' cs ->
  bind m k d = Outcome (inl e) d' cs.
Proof. unfold bind. now intros ->. Qed.

End Running.

(** ** The scan of lines 128-139 *)

Section Scan.

Lemma newline_terminated_cons (l : string) (ls : list string) :
  newline_terminated (l :: ls) = (l ++ Str.nl) ++ newline_terminated ls.
Proof. reflexivity. Qed.

Lemma newline_terminated_empty (ls : list string) :
  newline_terminated ls = "" -> ls = [].
Proof.
  destruct ls as [|l ls]; [reflexivity|].
  rewrite newline_terminated_cons. intros H.
  apply app_empty in H as [H _]. apply app_empty in H as [_ H]. discriminate.
Qed.

(** The fold over the top alternatives, in closed form: the first component
    collects the transcripts of the alternatives without words, the second
    files every word under its tag. *)
Lemma scan_fold (alts : list SpeechRecognitionAlternative)
    (acc : string * gmap Z (list string)) :
  fold_left scan_alternative alts acc
  = (fst acc ++ newline_terminated
                  (map transcript (filter (fun alt => words alt = []) alts)),
     fold_left append_word (flat_map words alts) (snd acc)).
Proof.
  revert acc. induction alts as [|alt alts IH]; intros [t d].
  - cbn. now rewrite app_nil_r.
  - cbn [fold_left flat_map]. rewrite IH. unfold scan_alternative.
    destruct (words alt) as [|w ws] eqn:W; cbn [fst snd].
    + rewrite filter_cons_True by exact W. cbn [map].
      rewrite newline_terminated_cons, !app_assoc. reflexivity.
    + rewrite filter_cons_False by (rewrite W; discriminate).
      now rewrite fold_left_app.
Qed.

Lemma scan_all (results : list SpeechRecognitionResult) :
  fold_left scan_alternative (top_alternatives results) ("", ∅)
  = (newline_terminated (fallback_transcripts results), buckets results).
Proof. now rewrite scan_fold. Qed.

Lemma top_alternatives_cons (r : SpeechRecognitionResult)
    (rest : list SpeechRecognitionResult) (alt : SpeechRecognitionAlternative)
    (alts : list SpeechRecognitionAlternative) :
  alternatives r = alt :: alts ->
  top_alternatives (r :: rest) = alt :: top_alternatives rest.
Proof. unfold top_alternatives. cbn [flat_map]. now intros ->. Qed.

(** With a top alternative in every result the loop raises nothing. *)
Lemma scan_results_run (results : list SpeechRecognitionResult) :
  forall (i : Z) (acc : string * gmap Z (list string)) (d : gmap string Z),
    Forall has_top_alternative results ->
    scan_results i results acc d
    = Outcome (inr (fold_left scan_alternative (top_alternatives results) acc))
              d (scan_log i results).
Proof.
  induction results as [|r rest IH]; intros i acc d H; [reflexivity|].
  apply Forall_cons in H as [Hr H].
  destruct (alternatives r) as [|alt alts] eqn:E; [now destruct Hr|].
  rewrite (top_alternatives_cons _ _ _ _ E).
  cbn [scan_results scan_log fold_left]. unfold top_alternative. rewrite E.
  rewrite bind_ret. unfold log. rewrite bind_emit.
  now rewrite IH.
Qed.

(** A result without top alternative stops the loop with [IndexError]. *)
Lemma scan_results_index_error (r : SpeechRecognitionResult)
    (rest : list SpeechRecognitionResult) (i : Z)
    (acc : string * gmap Z (list string)) (d : gmap string Z) :
  alternatives r = [] ->
  scan_results i (r :: rest) acc d = Outcome (inl IndexError) d [].
Proof.
  intros E. cbn [scan_results]. unfold top_alternative. now rewrite E.
Qed.

(** The [elif] of line 145 never holds: once every result is scanned, no
    bucket and an empty accumulator mean that there was no result. *)
Lemma nothing_scanned (results : list SpeechRecognitionResult) :
  Forall has_top_alternative results ->
  buckets results = ∅ ->
  newline_terminated (fallback_transcripts results) = "" ->
  results = [].
Proof.
  intros H Hb Hf. apply buckets_empty in Hb.
  apply newline_terminated_empty in Hf.
  destruct results as [|r rest]; [reflexivity|]. exfalso.
  apply Forall_cons in H as [Hr _].
  destruct (alternatives r) as [|alt alts] eqn:E; [now destruct Hr|].
  unfold tagged_words in Hb. unfold fallback_transcripts in Hf.
  rewrite (top_alternatives_cons _ _ _ _ E) in Hb, Hf.
  cbn [flat_map] in Hb. apply app_eq_nil in Hb as [Hw _].
  rewrite filter_cons_True in Hf by exact Hw. discriminate.
Qed.

Lemma speaker_lines_empty : speaker_lines ∅ = "".
Proof. reflexivity. Qed.

(** Lines 121-156 on a response whose results all have a top alternative:
    the value, the calls, and an untouched disk. *)
Lemma reconstruct_transcript_run (results : list SpeechRecognitionResult)
    (d : gmap string Z) :
  Forall has_top_alternative results ->
  reconstruct_transcript results d
  = Outcome (inr (transcript_text results)) d (reconstruct_log results).
Proof.
  intros H. unfold reconstruct_transcript, reconstruct_log.
  assert (Hscan := scan_results_run results 0 ("", ∅)).
  rewrite scan_all in Hscan.
  assert (Hhead : forall (k : unit -> M string),
    bind (match results with
          | [] => log WARNING NoTranscriptionResults
          | _ :: _ => log INFO (ReturnedResults (Z.of_nat (List.length results)))
          end) k d
    = Outcome (result (k tt d)) (disk (k tt d))
        (match results with
         | [] => Log WARNING NoTranscriptionResults
         | _ :: _ => Log INFO (ReturnedResults (Z.of_nat (List.length results)))
         end :: calls (k tt d))).
  { intros k. destruct results; apply bind_emit. }
  rewrite Hhead. clear Hhead.
  rewrite (bind_value _ _ _ _ _ _ (Hscan d H)). cbn [fst snd].
  assert (Hbranch :
    (if negb (bool_decide (buckets results = ∅))
     then ret (newline_terminated (fallback_transcripts results)
                 ++ speaker_lines (buckets results))
     else if String.eqb (newline_terminated (fallback_transcripts results)) ""
             && negb (bool_decide (results = []))
          then (log WARNING FallingBackToFullTranscript ;;
                fallback_results results
                  (newline_terminated (fallback_transcripts results)))
          else ret (newline_terminated (fallback_transcripts results)))
    = ret (transcript_text results)).
  { unfold transcript_text. case_bool_decide as Hb; cbn [negb]; [|reflexivity].
    rewrite Hb, speaker_lines_empty, app_nil_r.
    destruct (String.eqb_spec (newline_terminated (fallback_transcripts results)) "")
      as [Hf|Hf]; [|reflexivity].
    rewrite (nothing_scanned results H Hb Hf). reflexivity. }
  rewrite Hbranch, bind_ret. unfold log. rewrite !bind_emit.
  destruct (Str.len (transcript_text results) =? 0);
    rewrite bind_emit; reflexivity.
Qed.

End Scan.

(** ** The reconstructed transcript *)

Section Transcript.

Implicit Types (results : list SpeechRecognitionResult).

Lemma carries_tags_has_top (r : SpeechRecognitionResult) :
  carries_speaker_tags r -> has_top_alternative r.
Proof. intros (alt & rest & E & _). unfold has_top_alternative. now rewrite E. Qed.

Lemma no_words_has_top (r : SpeechRecognitionResult) :
  has_no_words r -> has_top_alternative r.
Proof. intros (alt & rest & E & _). unfold has_top_alternative. now rewrite E. Qed.

(** The per-speaker part of the transcript is one expected line per tag that
    some word carries, the tags in strictly ascending order. *)
Lemma speaker_lines_expected results :
  exists tags,
    StronglySorted Z.lt tags
    /\ (forall t, In t tags <-> In t (map speaker_tag (tagged_words results)))
    /\ speaker_lines (buckets results)
       = Str.cat (map (expected_speaker_line results) tags).
Proof.
  exists (sorted_keys (buckets results)). split; [apply sorted_keys_ascending|].
  split.
  - intros t. now rewrite <- list_elem_of_In, sorted_keys_elem, buckets_is_Some.
  - unfold speaker_lines. f_equal. apply map_ext. intros t.
    unfold speaker_line, expected_speaker_line. now rewrite buckets_default.
Qed.

(** When every top alternative has words, nothing goes to the accumulator. *)
Lemma fallback_transcripts_none results :
  Forall carries_speaker_tags results -> fallback_transcripts results = [].
Proof.
  induction 1 as [|r rest (alt & alts & E & W) _ IH]; [reflexivity|].
  unfold fallback_transcripts in *.
  rewrite (top_alternatives_cons _ _ _ _ E).
  now rewrite filter_cons_False by exact W.
Qed.

(** When no top alternative has words, no bucket is made and every
    transcript goes to the accumulator. *)
Lemma fallback_transcripts_all results :
  Forall has_no_words results ->
  fallback_transcripts results = map transcript (top_alternatives results)
  /\ tagged_words results = [].
Proof.
  induction 1 as [|r rest (alt & alts & E & W) _ [IH1 IH2]]; [now split|].
  unfold fallback_transcripts, tagged_words in *.
  rewrite (top_alternatives_cons _ _ _ _ E).
  rewrite filter_cons_True by exact W. cbn [map flat_map].
  rewrite IH1, IH2, W. now split.
Qed.

(** A result with tagged words leaves a tagged word, one without word list
    leaves a fallback transcript. *)
Lemma tagged_words_some results :
  Exists carries_speaker_tags results -> tagged_words results <> [].
Proof.
  unfold tagged_words, top_alternatives.
  induction 1 as [r rest (alt & alts & Er & W)|r rest _ IH]; cbn [flat_map].
  - rewrite Er. cbn [app flat_map]. intros C.
    apply app_eq_nil in C as [C _]. contradiction.
  - rewrite flat_map_app. intros C. apply app_eq_nil in C as [_ C]. now apply IH.
Qed.

Lemma fallback_transcripts_some results :
  Exists has_no_words results -> fallback_transcripts results <> [].
Proof.
  unfold fallback_transcripts, top_alternatives.
  induction 1 as [r rest (alt & alts & Er & W)|r rest _ IH]; cbn [flat_map].
  - rewrite Er. cbn [app]. now rewrite filter_cons_True by exact W.
  - rewrite filter_app, map_app.
    intros C. apply app_eq_nil in C as [_ C]. now apply IH.
Qed.

Lemma top_alternatives_nonempty results :
  Forall has_top_alternative results -> results <> [] ->
  top_alternatives results <> [].
Proof.
  intros H N. destruct results as [|r rest]; [contradiction|].
  apply Forall_cons in H as [Hr _].
  destruct (alternatives r) as [|alt alts] eqn:E; [now destruct Hr|].
  now rewrite (top_alternatives_cons _ _ _ _ E).
Qed.

(** Newline-terminated lines are the newline-joined lines and one more
    newline. *)
Lemma newline_terminated_join (lines : list string) :
  lines <> [] ->
  newline_terminated lines = Str.join Str.nl lines ++ Str.nl.
Proof.
  induction lines as [|l [|l' ls] IH]; intros N; [contradiction| |].
  { unfold newline_terminated, Str.join. cbn [map Str.cat String.concat].
    now rewrite app_nil_r. }
  rewrite newline_terminated_cons, IH by discriminate.
  unfold Str.join. cbn [String.concat]. now rewrite !app_assoc.
Qed.



End Transcript.

(** ** Which calls a computation makes *)

Section Only.

Variable P : call -> Prop.

Lemma only_ret {A} (a : A) : only P (ret a).
Proof. intros d. constructor. Qed.

Lemma only_raise {A} (e : exn) : only P (raise (A := A) e).
Proof. intros d. constructor. Qed.

Lemma only_emit (c : call) : P c -> only P (emit c).
Proof. intros H d. now repeat constructor. Qed.

Lemma only_bind {A B} (m : M A) (k : A -> M B) :
  only P m -> (forall a, only P (k a)) -> only P (bind m k).
Proof.
  intros Hm Hk d. unfold bind. specialize (Hm d).
  destruct (result (m d)) as [e|a]; cbn; [exact Hm|].
  apply Forall_app. split; [exact Hm | apply Hk].
Qed.

Lemma only_try_except {A} (body : M A) (handler : exn -> option (M A)) :
  only P body ->
  (forall e h, handler e = Some h -> only P h) ->
  only P (try_except body handler).
Proof.
  intros Hb Hh d. unfold try_except. specialize (Hb d).
  destruct (result (body d)) as [e|a]; [|exact Hb].
  destruct (handler e) as [h|] eqn:E; [|exact Hb]. cbn.
  apply Forall_app. split; [exact Hb | now apply (Hh e h)].
Qed.

Lemma only_getsize (path : string) : P (Getsize path) -> only P (getsize path).
Proof.
  intros H. apply only_bind; [now apply only_emit|]. intros _ d.
  destruct (d !! path); constructor.
Qed.

Lemma only_call_fs {A} (c : call) (f : gmap string Z -> (exn + A) * gmap string Z) :
  P c -> only P (call_fs c f).
Proof.
  intros H. apply only_bind; [now apply only_emit|]. intros _ d. constructor.
Qed.

Lemma only_call_ro {A} (c : call) (f : gmap string Z -> exn + A) :
  P c -> only P (call_ro c f).
Proof.
  intros H. apply only_bind; [now apply only_emit|]. intros _ d. constructor.
Qed.

End Only.

(** The steps of a proof that a stage makes only calls of one kind. *)
Ltac only_step :=
  first
    [ apply only_ret
    | apply only_raise
    | apply only_emit; reflexivity
    | apply only_getsize; reflexivity
    | apply only_call_fs; reflexivity
    | apply only_call_ro; reflexivity
    | apply only_bind; [|intros ?]
    | match goal with
      | |- only _ (if ?b then _ else _) => destruct b
      | |- only _ (match ?x with _ => _ end) => destruct x
      end ].

Ltac only_steps := unfold log; repeat only_step.

(** ** The stages leave the cleanup to the [finally] clause *)

Section NotCleanup.

Variable w : World.
Variable bucket_name file_name out_bucket api_key : string.
Variable paths : ArtifactPaths.

Lemma scan_results_not_cleanup (results : list SpeechRecognitionResult) :
  forall i acc, only not_cleanup (scan_results i results acc).
Proof.
  induction results as [|r rest IH]; intros i acc; cbn [scan_results].
  - apply only_ret.
  - unfold top_alternative. only_steps. apply IH.
Qed.

Lemma fallback_results_not_cleanup (results : list SpeechRecognitionResult) :
  forall t, only not_cleanup (fallback_results results t).
Proof.
  induction results as [|r rest IH]; intros t; cbn [fallback_results].
  - apply only_ret.
  - unfold top_alternative. only_steps. apply IH.
Qed.

Lemma reconstruct_transcript_not_cleanup (results : list SpeechRecognitionResult) :
  only not_cleanup (reconstruct_transcript results).
Proof.
  unfold reconstruct_transcript.
  apply only_bind; [destruct results; only_steps|]. intros _.
  apply only_bind; [apply scan_results_not_cleanup|]. intros acc.
  apply only_bind; [|intros t; only_steps].
  destruct (negb _); [apply only_ret|].
  destruct (_ && _); [|apply only_ret].
  only_steps. apply fallback_results_not_cleanup.
Qed.

Lemma pipeline_not_cleanup :
  only not_cleanup (pipeline w bucket_name file_name out_bucket api_key paths).
Proof.
  unfold pipeline, download_video, extract_audio, upload_audio, recognize,
    process_response, save_transcript, analyze, save_analysis.
  apply only_bind; [only_steps|]. intros _.
  apply only_bind.
  { apply only_bind; [only_steps|]. intros _.
    apply only_try_except; [only_steps|].
    intros e h. destruct e; intros [= <-]. only_steps. }
  intros _.
  apply only_bind; [only_steps|]. intros _.
  apply only_bind; [only_steps|]. intros results.
  apply only_bind; [apply reconstruct_transcript_not_cleanup|]. intros t.
  only_steps.
Qed.

Lemma outer_except_not_cleanup (e : exn) (h : M unit) :
  outer_except e = Some h -> only not_cleanup h.
Proof. destruct e; intros [= <-]; only_steps. Qed.

Lemma path_exists_run (path : string) (d : gmap string Z) :
  path_exists path d
  = Outcome (inr (bool_decide (is_Some (d !! path)))) d [PathExists path].
Proof. reflexivity. Qed.

Lemma remove_logged_run (path : string) (d : gmap string Z) (size : Z) :
  d !! path = Some size ->
  (remove path ;; log INFO (CleanedUp path)) d
  = Outcome (inr tt) (delete path d) [Remove path; Log INFO (CleanedUp path)].
Proof.
  intros H. unfold remove.
  assert (R : bind (emit (Remove path))
                (fun _ d0 =>
                   match d0 !! path with
                   | Some _ => Outcome (inr tt) (delete path d0) []
                   | None => Outcome (inl (FileNotFoundError path)) d0 []
                   end) d
              = Outcome (inr tt) (delete path d) [Remove path]).
  { rewrite bind_emit. now rewrite H. }
  now rewrite (bind_value _ _ _ _ _ _ R).
Qed.

(** The guarded removal of lines 212-214 and 215-217, followed by [k]. *)
Lemma removal_then {B} (path : string) (k : M B) (d : gmap string Z) :
  (there <- path_exists path ;;
   (if there : bool then remove path ;; log INFO (CleanedUp path) else ret tt) ;;
   k) d
  = Outcome (result (k (delete path d))) (disk (k (delete path d)))
            (removal_calls path d ++ calls (k (delete path d))).
Proof.
  rewrite (bind_value _ _ _ _ _ _ (path_exists_run path d)).
  unfold removal_calls. destruct (d !! path) as [size|] eqn:L.
  - rewrite bool_decide_true by eauto.
    now rewrite (bind_value _ _ _ _ _ _ (remove_logged_run path d size L)).
  - rewrite bool_decide_false by (intros [? ?]; discriminate).
    rewrite bind_ret. now rewrite (delete_id _ _ L).
Qed.

Lemma removal_last (path : string) (d : gmap string Z) :
  (there <- path_exists path ;;
   if there : bool then remove path ;; log INFO (CleanedUp path) else ret tt) d
  = Outcome (inr tt) (delete path d) (removal_calls path d).
Proof.
  rewrite (bind_value _ _ _ _ _ _ (path_exists_run path d)).
  unfold removal_calls. destruct (d !! path) as [size|] eqn:L.
  - rewrite bool_decide_true by eauto.
    now rewrite (remove_logged_run path d size L).
  - rewrite bool_decide_false by (intros [? ?]; discriminate).
    now rewrite (delete_id _ _ L).
Qed.

(** The [finally] clause: it raises nothing, makes only its own calls, and
    leaves neither scratch file on the disk. *)
Lemma cleanup_run (d : gmap string Z) :
  cleanup paths d
  = Outcome (inr tt)
            (delete (local_audio_path paths) (delete (local_video_path paths) d))
            (cleanup_calls paths d).
Proof.
  unfold cleanup, cleanup_calls. rewrite removal_then.
  now rewrite removal_last.
Qed.

Lemma cleanup_calls_own (d : gmap string Z) :
  Forall (fun c => is_cleanup_call c = true) (cleanup_calls paths d).
Proof.
  unfold cleanup_calls, removal_calls. apply Forall_app. split.
  - destruct (bool_decide _); repeat constructor.
  - destruct (bool_decide _); repeat constructor.
Qed.

End NotCleanup.

(** ** How a computation begins *)

Section StartsWith.

Lemma starts_with_bind {A B} (pre : list call) (m : M A) (k : A -> M B) :
  starts_with pre m -> starts_with pre (bind m k).
Proof.
  intros H d. destruct (H d) as [rest E]. unfold bind.
  destruct (result (m d)); cbn; rewrite E.
  - eauto.
  - rewrite <- List.app_assoc. eauto.
Qed.

Lemma starts_with_emit {B} (c : call) (pre : list call) (k : unit -> M B) :
  starts_with pre (k tt) -> starts_with (c :: pre) (bind (emit c) k).
Proof.
  intros H d. destruct (H d) as [rest E]. rewrite bind_emit. cbn.
  rewrite E. eauto.
Qed.

Lemma starts_with_nil {A} (m : M A) : starts_with [] m.
Proof. intros d. eauto. Qed.

Lemma starts_with_try_except {A} (pre : list call) (body : M A)
    (handler : exn -> option (M A)) :
  starts_with pre body -> starts_with pre (try_except body handler).
Proof.
  intros H d. destruct (H d) as [rest E]. unfold try_except.
  destruct (result (body d)); [|eauto].
  destruct (handler _); [|eauto]. cbn. rewrite E, <- List.app_assoc. eauto.
Qed.

(** After a stage that returns, the next one begins. *)
Lemma starts_with_after {A B} (m : M A) (k : A -> M B) (a : A)
    (cs pre : list call) :
  (forall d, m d = Outcome (inr a) d cs) ->
  starts_with pre (k a) ->
  starts_with (cs ++ pre) (bind m k).
Proof.
  intros Hm Hk d. rewrite (bind_value _ _ _ _ _ _ (Hm d)). cbn.
  destruct (Hk d) as [rest E]. rewrite E, List.app_assoc. eauto.
Qed.

End StartsWith.

(** ** The guards of lines 41-53 and the [try] statement *)

Section Guards.

Variable w : World.
Variable environ : gmap string string.
Variable data : UploadEvent.
Variable d : gmap string Z.

Lemma credential_absent_missing :
  credential_absent environ <-> key_missing (environ !! "GEMINI_API_KEY") = true.
Proof.
  unfold credential_absent. split; [now intros [-> | ->]|].
  destruct (environ !! "GEMINI_API_KEY") as [k|]; [|now left].
  cbn. intros H. apply String.eqb_eq in H. subst k. now right.
Qed.

Lemma credential_present_or_absent :
  credential_present environ \/ credential_absent environ.
Proof.
  unfold credential_present. rewrite credential_absent_missing.
  destruct (key_missing _); auto.
Qed.

(** Line 41 stops the run. *)
Lemma run_without_credential :
  credential_absent environ ->
  transcribe_video_from_gcs w environ data d
  = Outcome (inl (ValueError "GEMINI_API_KEY is required.")) d
            (opening_log data ++ [Log ERROR GeminiKeyNotSet]).
Proof.
  intros H. apply credential_absent_missing in H.
  unfold transcribe_video_from_gcs. now rewrite H.
Qed.

(** Line 46 ends the run. *)
Lemma run_other_bucket :
  credential_present environ ->
  bucket data <> input_bucket environ ->
  transcribe_video_from_gcs w environ data d
  = Outcome (inr tt) d
            (opening_log data
               ++ [Log WARNING (IgnoringUnexpectedBucket (bucket data)
                                  (input_bucket environ))]).
Proof.
  intros K B. unfold transcribe_video_from_gcs. rewrite K.
  apply String.eqb_neq in B. unfold input_bucket in B. now rewrite B.
Qed.

(** Line 51 ends the run. *)
Lemma run_not_video :
  credential_present environ ->
  bucket data = input_bucket environ ->
  ~ is_video data ->
  transcribe_video_from_gcs w environ data d
  = Outcome (inr tt) d
            (opening_log data
               ++ [Log WARNING (SkippingNonVideo (name data) (contentType data))]).
Proof.
  intros K B V. unfold transcribe_video_from_gcs. rewrite K.
  apply String.eqb_eq in B. unfold input_bucket in B. rewrite B.
  unfold is_video in V. apply not_true_is_false in V. now rewrite V.
Qed.

(** Past the guards the run is the [try] statement: the stages with their
    [except] clauses, then the [finally] clause on the disk they leave. *)
Lemma run_reaching_pipeline :
  reaches_pipeline environ data ->
  transcribe_video_from_gcs w environ data d
  = Outcome (result (stages w environ data d))
            (delete (local_audio_path (artifact_paths (name data)))
               (delete (local_video_path (artifact_paths (name data)))
                  (disk (stages w environ data d))))
            (opening_log data
               ++ calls (stages w environ data d)
               ++ cleanup_calls (artifact_paths (name data))
                    (disk (stages w environ data d))).
Proof.
  intros (K & B & V). unfold transcribe_video_from_gcs. rewrite K.
  apply String.eqb_eq in B. unfold input_bucket in B. rewrite B.
  unfold is_video in V. rewrite V. cbn [negb].
  unfold log. rewrite !bind_emit.
  unfold guarded_pipeline, try_finally. rewrite cleanup_run. reflexivity.
Qed.

Lemma stages_not_cleanup : only not_cleanup (stages w environ data).
Proof.
  apply only_try_except; [apply pipeline_not_cleanup|].
  apply outer_except_not_cleanup.
Qed.

(** The first thing the stages do is the download, to the resolved path. *)
Lemma stages_start_with_download :
  starts_with
    [Log INFO (Downloading (name data) (bucket data)
                 (local_video_path (artifact_paths (name data))));
     DownloadToFilename (bucket data) (name data)
       (local_video_path (artifact_paths (name data)))]
    (stages w environ data).
Proof.
  apply starts_with_try_except. unfold pipeline, download_video.
  apply starts_with_bind. unfold log. apply starts_with_emit.
  unfold call_fs. apply starts_with_bind. apply starts_with_emit.
  apply starts_with_nil.
Qed.

(** With the credential, an event that one of the two filters stops is a
    normal return. *)
Lemma filtered_run_returns :
  credential_present environ ->
  bucket data <> input_bucket environ \/ ~ is_video data ->
  result (transcribe_video_from_gcs w environ data d) = inr tt.
Proof.
  intros K H.
  destruct (decide (bucket data = input_bucket environ)) as [B|B].
  - destruct H as [H|V]; [contradiction|]. now rewrite (run_not_video K B V).
  - now rewrite (run_other_bucket K B).
Qed.

End Guards.

(** ** What the reconstruction logs *)

Section ReconstructionLog.

Lemma scan_log_records (results : list SpeechRecognitionResult) :
  forall i, Forall is_processing_record (scan_log i results).
Proof.
  induction results as [|r rest IH]; intros i; cbn [scan_log]; [constructor|].
  destruct (alternatives r); constructor; [|apply IH].
  unfold is_processing_record. eauto.
Qed.

(** The loop either gets through every result or stops at the first one
    without alternatives, having logged only its per-result records. *)
Lemma scan_results_cases (results : list SpeechRecognitionResult) :
  forall (i : Z) (acc : string * gmap Z (list string)) (d : gmap string Z),
    Forall has_top_alternative results
    \/ exists cs, scan_results i results acc d = Outcome (inl IndexError) d cs
                  /\ Forall is_processing_record cs.
Proof.
  induction results as [|r rest IH]; intros i acc d; [now left|].
  destruct (alternatives r) as [|alt alts] eqn:E.
  - right. exists []. split; [now apply scan_results_index_error | constructor].
  - destruct (IH (i + 1) (scan_alternative acc alt) d) as [H | (cs & R & F)].
    + left. constructor; [|exact H]. unfold has_top_alternative. now rewrite E.
    + right. exists (Log INFO (ProcessingResult (i + 1) (confidence alt)) :: cs).
      split.
      * cbn [scan_results]. unfold top_alternative. rewrite E, bind_ret.
        unfold log. rewrite bind_emit. now rewrite R.
      * constructor; [|exact F]. unfold is_processing_record. eauto.
Qed.




End ReconstructionLog.

(** ** From the reconstruction to the upload *)

Section Emitted.

Variable w : World.
Variable out_bucket api_key : string.
Variable paths : ArtifactPaths.

(** What line 160 uploads is the value of lines 121-156. *)
Lemma transcript_is_uploaded (results : list SpeechRecognitionResult) :
  Forall has_top_alternative results ->
  starts_with
    (reconstruct_log results
       ++ [UploadFromString out_bucket (gcs_transcript_path paths)
             (transcript_text results) "text/plain"])%list
    (process_response w out_bucket api_key paths results).
Proof.
  intros H. unfold process_response.
  apply (starts_with_after _ _ (transcript_text results) (reconstruct_log results)).
  - intros d. now apply reconstruct_transcript_run.
  - apply starts_with_bind. unfold save_transcript.
    apply starts_with_bind. unfold call_ro.
    apply starts_with_emit, starts_with_nil.
Qed.

End Emitted.

(** ** Two runs from end to end *)

(** The upload of [clip1.mp4] to the input bucket, every collaborator
    succeeding: the three writes to the output bucket. *)
Example run_clip1 :
  result (transcribe_video_from_gcs Sample.cooperative Sample.configured
            Sample.clip1 ∅) = inr tt
  /\ List.filter is_storage_write
       (calls (transcribe_video_from_gcs Sample.cooperative Sample.configured
                 Sample.clip1 ∅))
     = [UploadFromFilename "out" "audio/clip1.flac" "/tmp/clip1.flac";
        UploadFromString "out" "transcripts/clip1.txt"
          ("Speaker 1: hello there" ++ Str.nl ++ "Speaker 2: hi" ++ Str.nl)
          "text/plain";
        UploadFromString "out" "analysis/clip1_analysis.txt" "analysis"
          "text/plain"].
Proof. split; vm_compute; reflexivity. Qed.

(** The same upload when the recognition service finds nothing: the run
    still completes, with an empty transcript document. *)
Example run_clip1_silent :
  result (transcribe_video_from_gcs Sample.silent Sample.configured
            Sample.clip1 ∅) = inr tt
  /\ List.filter is_storage_write
       (calls (transcribe_video_from_gcs Sample.silent Sample.configured
                 Sample.clip1 ∅))
     = [UploadFromFilename "out" "audio/clip1.flac" "/tmp/clip1.flac";
        UploadFromString "out" "transcripts/clip1.txt" "" "text/plain";
        UploadFromString "out" "analysis/clip1_analysis.txt" "analysis"
          "text/plain"].
Proof. split; vm_compute; reflexivity. Qed.

(** The transcoder exits non-zero: the [except] clause of line 204 raises
    [AttributeError] while formatting its message, and the [finally] clause
    still removes the downloaded video. *)
Example run_clip1_broken_transcoder :
  result (transcribe_video_from_gcs Sample.broken_transcoder Sample.configured
            Sample.clip1 ∅) = inl AttributeError
  /\ List.filter is_cleanup_call
       (calls (transcribe_video_from_gcs Sample.broken_transcoder
                 Sample.configured Sample.clip1 ∅))
     = [PathExists "/tmp/clip1.mp4"; Remove "/tmp/clip1.mp4";
        Log INFO (CleanedUp "/tmp/clip1.mp4"); PathExists "/tmp/clip1.flac"]
  /\ disk (transcribe_video_from_gcs Sample.broken_transcoder Sample.configured
             Sample.clip1 ∅) = ∅.
Proof. repeat split; vm_compute; reflexivity. Qed.

Example analysis_instructions_length : Str.len analysis_instructions = 1047.
Proof. reflexivity. Qed.

(** * Beyond the claims *)

(** ** The records of the reconstruction *)

Section ReconstructionRecords.

(** Every call of lines 121-156 is one of its six kinds of record. *)
Lemma reconstruct_calls_shape (results : list SpeechRecognitionResult)
    (d : gmap string Z) (c : call) :
  In c (calls (reconstruct_transcript results d)) ->
  c = Log WARNING NoTranscriptionResults
  \/ (exists n, c = Log INFO (ReturnedResults n))
  \/ is_processing_record c
  \/ c = Log INFO TranscriptionComplete
  \/ (exists n, c = Log INFO (TranscriptLength n))
  \/ c = Log ERROR FinalTranscriptEmpty
  \/ (exists head, c = Log INFO (PartialTranscript head)).
Proof.
  destruct (scan_results_cases results 0 ("", ∅) d) as [H | (cs & R & F)].
  - rewrite reconstruct_transcript_run by exact H. cbn [calls].
    unfold reconstruct_log. rewrite in_app_iff. intros [[I|I]|I].
    + destruct results; subst c; eauto 10.
    + pose proof (scan_log_records results 0) as S.
      rewrite List.Forall_forall in S. auto.
    + destruct (Str.len (transcript_text results) =? 0);
        destruct I as [I|[I|[I|[]]]]; subst c; eauto 10.
  - unfold reconstruct_transcript.
    assert (Hhead : exists c0,
      (c0 = Log WARNING NoTranscriptionResults
       \/ exists n, c0 = Log INFO (ReturnedResults n))
      /\ forall k : unit -> M string,
           calls (bind (match results with
                        | [] => log WARNING NoTranscriptionResults
                        | _ :: _ => log INFO (ReturnedResults
                                                (Z.of_nat (List.length results)))
                        end) k d) = c0 :: calls (k tt d)).
    { destruct results as [|r rest];
        [exists (Log WARNING NoTranscriptionResults)
        |exists (Log INFO (ReturnedResults (Z.of_nat (List.length (r :: rest)))))];
        (split; [eauto|]); intros k; unfold log; now rewrite bind_emit. }
    destruct Hhead as (c0 & Hc0 & E). rewrite E.
    rewrite (bind_exception _ _ _ _ _ _ R). cbn [calls].
    intros [I|I].
    + subst c. destruct Hc0 as [->|[n ->]]; eauto 10.
    + rewrite List.Forall_forall in F. auto.
Qed.

(** A result without alternatives stops lines 121-156 with [IndexError]; the
    disk is as before and only records were written. *)
Lemma reconstruct_transcript_index_error (results : list SpeechRecognitionResult)
    (d : gmap string Z) :
  Exists (fun r => alternatives r = []) results ->
  exists cs,
    reconstruct_transcript results d = Outcome (inl IndexError) d cs
    /\ Forall not_external cs.
Proof.
  intros X.
  destruct (scan_results_cases results 0 ("", ∅) d) as [H | (cs & R & F)].
  { exfalso. apply Exists_exists in X as (r & Hr & E).
    rewrite Forall_forall in H. apply (H r Hr E). }
  unfold reconstruct_transcript.
  assert (Fcs : Forall not_external cs).
  { eapply Forall_impl; [exact F|]. now intros c (i & conf & ->). }
  destruct results as [|r rest]; [inversion X|].
  unfold log at 1. rewrite bind_emit.
  rewrite (bind_exception _ _ _ _ _ _ R). cbn [result disk calls].
  eexists. split; [reflexivity|]. constructor; [reflexivity | exact Fcs].
Qed.

End ReconstructionRecords.

(** ** Names put together from their parts *)

Section NameParts.

Lemma rfind_none (c : ascii) (p : string) :
  Str.mem c p = false -> Str.rfind c p = -1.
Proof.
  induction p as [|a r IH]; [reflexivity|]. cbn [Str.mem Str.rfind].
  intros H. apply orb_false_elim in H as [Ha Hr].
  rewrite (IH Hr), Ha. reflexivity.
Qed.

(** The last [c] of [p ++ c ++ q], when [q] holds none, is the one written. *)
Lemma rfind_app_last (c : ascii) (p q : string) :
  Str.mem c q = false ->
  Str.rfind c (p ++ String c q) = Z.of_nat (String.length p).
Proof.
  intros H. induction p as [|a p IH].
  - cbn [String.length]. change ("" ++ String c q) with (String c q).
    cbn [Str.rfind]. rewrite (rfind_none _ _ H), Ascii.eqb_refl. reflexivity.
  - rewrite app_cons. cbn [Str.rfind String.length]. rewrite IH.
    destruct (Z.leb_spec 0 (Z.of_nat (String.length p))); lia.
Qed.

Lemma slice_from_app (p q : string) :
  Str.slice_from (String.length p) (p ++ q) = q.
Proof. induction p as [|a p IH]; [now destruct q|]. exact IH. Qed.

Lemma slice_to_app (p q : string) :
  Str.slice_to (String.length p) (p ++ q) = p.
Proof.
  induction p as [|a p IH]; [now destruct q|].
  rewrite app_cons. cbn [String.length Str.slice_to]. now rewrite IH.
Qed.

Lemma basename_plain (b : string) :
  Str.mem OsPath.sep b = false -> OsPath.basename b = b.
Proof. intros H. unfold OsPath.basename. now rewrite (rfind_none _ _ H). Qed.

Lemma basename_join (dir b : string) :
  Str.mem OsPath.sep b = false -> OsPath.basename (dir ++ "/" ++ b) = b.
Proof.
  intros H. unfold OsPath.basename.
  change ("/" ++ b) with (String OsPath.sep b).
  rewrite (rfind_app_last _ dir _ H).
  replace (Z.to_nat (Z.of_nat (String.length dir) + 1))
    with (String.length (dir ++ "/")).
  - change (String OsPath.sep b) with ("/" ++ b).
    rewrite <- app_assoc. apply slice_from_app.
  - clear. induction dir as [|a dir IH]; [reflexivity|].
    rewrite app_cons. cbn [String.length]. rewrite IH. lia.
Qed.

(** A stem that does not begin with a dot, a dot, and a dot-free extension
    split where they were joined. *)
Lemma splitext_join (a : ascii) (s e : string) :
  a <> OsPath.extsep ->
  Str.mem OsPath.sep (String a s) = false ->
  Str.mem OsPath.sep e = false ->
  Str.mem OsPath.extsep e = false ->
  OsPath.splitext (String a s ++ "." ++ e) = (String a s, "." ++ e).
Proof.
  intros Ha Hs He Hd. unfold OsPath.splitext.
  change ("." ++ e) with (String OsPath.extsep e).
  assert (Hsep : Str.rfind OsPath.sep (String a s ++ String OsPath.extsep e) = -1).
  { apply rfind_none. rewrite mem_app, Hs. cbn [Str.mem orb]. now rewrite He. }
  rewrite Hsep, (rfind_app_last _ (String a s) _ Hd).
  replace (-1 <? Z.of_nat (String.length (String a s))) with true
    by (symmetry; apply Z.ltb_lt; lia).
  replace (Z.to_nat (Z.of_nat (String.length (String a s)) - (-1 + 1)))
    with (S (String.length s)) by (cbn [String.length]; lia).
  change (Z.to_nat (-1 + 1)) with 0%nat.
  rewrite Nat2Z.id. cbn [OsPath.has_non_dot andb].
  rewrite app_cons. cbn [Str.slice_from Str.slice_to].
  assert (E : String.eqb (String a "") (String OsPath.extsep "") = false).
  { apply String.eqb_neq. congruence. }
  rewrite E. cbn [negb].
  rewrite <- app_cons, slice_to_app, slice_from_app. reflexivity.
Qed.

(** A name that is a dot followed by dot-free characters has no extension. *)
Lemma splitext_dotfile (e : string) :
  Str.mem OsPath.sep e = false ->
  Str.mem OsPath.extsep e = false ->
  OsPath.splitext ("." ++ e) = ("." ++ e, "").
Proof.
  intros He Hd. unfold OsPath.splitext.
  change ("." ++ e) with (String OsPath.extsep e).
  cbn [Str.rfind]. rewrite (rfind_none _ _ He), (rfind_none _ _ Hd).
  reflexivity.
Qed.

End NameParts.

(** ** Running the stages against given answers *)

(** One step of a run: the first computation of a [bind] returned. *)
Ltac run_with H := rewrite (bind_value _ _ _ _ _ _ H); cbn [result disk calls].

Section StageRuns.

Variable w : World.
Variable bucket_name file_name out_bucket api_key : string.
Variable paths : ArtifactPaths.

Lemma log_run (lvl : level) (msg : message) (d : gmap string Z) :
  log lvl msg d = Outcome (inr tt) d [Log lvl msg].
Proof. reflexivity. Qed.

Lemma getsize_run (path : string) (d : gmap string Z) (size : Z) :
  d !! path = Some size ->
  getsize path d = Outcome (inr size) d [Getsize path].
Proof. intros H. unfold getsize. rewrite bind_emit. now rewrite H. Qed.

Lemma getsize_missing (path : string) (d : gmap string Z) :
  d !! path = None ->
  getsize path d = Outcome (inl (FileNotFoundError path)) d [Getsize path].
Proof. intros H. unfold getsize. rewrite bind_emit. now rewrite H. Qed.

Lemma call_fs_run {A} (c : call) (f : gmap string Z -> (exn + A) * gmap string Z)
    (d d' : gmap string Z) (r : exn + A) :
  f d = (r, d') -> call_fs c f d = Outcome r d' [c].
Proof. intros H. unfold call_fs. rewrite bind_emit. now rewrite H. Qed.

Lemma call_ro_run {A} (c : call) (f : gmap string Z -> exn + A)
    (d : gmap string Z) :
  call_ro c f d = Outcome (f d) d [c].
Proof. reflexivity. Qed.

(** Stage 1 when the object arrives. *)
Lemma download_video_run (d downloaded : gmap string Z) (size : Z) :
  download_to_filename w bucket_name file_name (local_video_path paths) d
    = (inr tt, downloaded) ->
  downloaded !! local_video_path paths = Some size ->
  download_video w bucket_name file_name paths d
  = Outcome (inr tt) downloaded
      [Log INFO (Downloading file_name bucket_name (local_video_path paths));
       DownloadToFilename bucket_name file_name (local_video_path paths);
       Getsize (local_video_path paths);
       Log INFO (Downloaded file_name size)].
Proof.
  intros Hd Hs. unfold download_video.
  run_with (log_run INFO (Downloading file_name bucket_name (local_video_path paths)) d).
  run_with (call_fs_run (DownloadToFilename bucket_name file_name
                           (local_video_path paths)) _ _ _ _ Hd).
  run_with (getsize_run _ _ _ Hs).
  reflexivity.
Qed.

(** Stage 1 when the download raises. *)
Lemma download_video_failed (d d' : gmap string Z) (e : exn) :
  download_to_filename w bucket_name file_name (local_video_path paths) d
    = (inl e, d') ->
  download_video w bucket_name file_name paths d
  = Outcome (inl e) d'
      [Log INFO (Downloading file_name bucket_name (local_video_path paths));
       DownloadToFilename bucket_name file_name (local_video_path paths)].
Proof.
  intros Hd. unfold download_video.
  run_with (log_run INFO (Downloading file_name bucket_name (local_video_path paths)) d).
  rewrite (bind_exception _ _ _ _ _ _
             (call_fs_run (DownloadToFilename bucket_name file_name
                             (local_video_path paths)) _ _ _ _ Hd)).
  reflexivity.
Qed.

(** Stage 2 when the transcoder exits with zero and leaves an audio file. *)
Lemma extract_audio_run (d after : gmap string Z) (out_text err_text : string)
    (size : Z) :
  subprocess_run w (ffmpeg_command paths) d = (inr (out_text, err_text), after) ->
  after !! local_audio_path paths = Some size ->
  extract_audio w paths d
  = Outcome (inr tt) after
      ([Log INFO (ExecutingFFmpeg (Str.join " " (ffmpeg_command paths)));
        SubprocessRun (ffmpeg_command paths);
        Log INFO (FFmpegStdout out_text);
        Log INFO (FFmpegStderr err_text);
        Getsize (local_audio_path paths);
        Log INFO (ExtractedAudio (local_audio_path paths) size);
        Getsize (local_audio_path paths)]
       ++ if size =? 0 then [Log WARNING EmptyAudioFile] else []).
Proof.
  intros Hr Hs. unfold extract_audio.
  run_with (log_run INFO (ExecutingFFmpeg (Str.join " " (ffmpeg_command paths))) d).
  unfold try_except.
  run_with (call_fs_run (SubprocessRun (ffmpeg_command paths)) _ _ _ _ Hr).
  run_with (log_run INFO (FFmpegStdout out_text) after).
  run_with (log_run INFO (FFmpegStderr err_text) after).
  run_with (getsize_run _ _ _ Hs).
  run_with (log_run INFO (ExtractedAudio (local_audio_path paths) size) after).
  run_with (getsize_run _ _ _ Hs).
  destruct (size =? 0); reflexivity.
Qed.

(** Stage 2 when the transcoder exits with a non-zero status. *)
Lemma extract_audio_failed (d after : gmap string Z) (err_text : string) :
  subprocess_run w (ffmpeg_command paths) d
    = (inl (CalledProcessError err_text), after) ->
  extract_audio w paths d
  = Outcome (inl (CalledProcessError err_text)) after
      [Log INFO (ExecutingFFmpeg (Str.join " " (ffmpeg_command paths)));
       SubprocessRun (ffmpeg_command paths);
       Log ERROR (FFmpegFailed err_text)].
Proof.
  intros Hr. unfold extract_audio.
  run_with (log_run INFO (ExecutingFFmpeg (Str.join " " (ffmpeg_command paths))) d).
  unfold try_except.
  rewrite (bind_exception _ _ _ _ _ _
             (call_fs_run (SubprocessRun (ffmpeg_command paths)) _ _ _ _ Hr)).
  reflexivity.
Qed.

(** Stage 3 when the upload goes through. *)
Lemma upload_audio_run (d : gmap string Z) :
  upload_from_filename w out_bucket (gcs_audio_path paths) (local_audio_path paths) d
    = inr tt ->
  upload_audio w out_bucket paths d
  = Outcome (inr tt) d
      [UploadFromFilename out_bucket (gcs_audio_path paths) (local_audio_path paths);
       Log INFO (UploadedAudio out_bucket (gcs_audio_path paths))].
Proof.
  intros H. unfold upload_audio.
  pose proof (call_ro_run
                (UploadFromFilename out_bucket (gcs_audio_path paths)
                   (local_audio_path paths))
                (upload_from_filename w out_bucket (gcs_audio_path paths)
                   (local_audio_path paths)) d) as R.
  rewrite H in R. run_with R. reflexivity.
Qed.

(** Stage 4 when the recognition service answers. *)
Lemma recognize_run (d : gmap string Z) (results : list SpeechRecognitionResult) :
  long_running_recognize w recognition_config
    ("gs://" ++ out_bucket ++ "/" ++ gcs_audio_path paths) 600 = inr results ->
  recognize w out_bucket paths d
  = Outcome (inr results) d
      [Log INFO SendingAudio;
       LongRunningRecognize recognition_config
         ("gs://" ++ out_bucket ++ "/" ++ gcs_audio_path paths) 600].
Proof.
  intros H. unfold recognize.
  run_with (log_run INFO SendingAudio d).
  rewrite call_ro_run, H. reflexivity.
Qed.

(** Stage 5 when the upload goes through. *)
Lemma save_transcript_run (d : gmap string Z) (transcript_content : string) :
  upload_from_string w out_bucket (gcs_transcript_path paths) transcript_content
    "text/plain" = inr tt ->
  save_transcript w out_bucket paths transcript_content d
  = Outcome (inr tt) d
      [UploadFromString out_bucket (gcs_transcript_path paths) transcript_content
         "text/plain";
       Log INFO (TranscriptionSaved out_bucket (gcs_transcript_path paths))].
Proof.
  intros H. unfold save_transcript.
  assert (R : call_ro
                 (UploadFromString out_bucket (gcs_transcript_path paths)
                    transcript_content "text/plain")
                 (fun _ => upload_from_string w out_bucket (gcs_transcript_path paths)
                             transcript_content "text/plain") d
               = Outcome (inr tt) d
                   [UploadFromString out_bucket (gcs_transcript_path paths)
                      transcript_content "text/plain"])
    by (rewrite call_ro_run; cbv beta; now rewrite H).
  run_with R. reflexivity.
Qed.

(** Stage 6 when the upload goes through. *)
Lemma save_analysis_run (d : gmap string Z) (analysis_content : string) :
  upload_from_string w out_bucket (gcs_analysis_path paths) analysis_content
    "text/plain" = inr tt ->
  save_analysis w out_bucket paths analysis_content d
  = Outcome (inr tt) d
      [UploadFromString out_bucket (gcs_analysis_path paths) analysis_content
         "text/plain";
       Log INFO (AnalysisSaved out_bucket (gcs_analysis_path paths))].
Proof.
  intros H. unfold save_analysis.
  assert (R : call_ro
                 (UploadFromString out_bucket (gcs_analysis_path paths)
                    analysis_content "text/plain")
                 (fun _ => upload_from_string w out_bucket (gcs_analysis_path paths)
                             analysis_content "text/plain") d
               = Outcome (inr tt) d
                   [UploadFromString out_bucket (gcs_analysis_path paths)
                      analysis_content "text/plain"])
    by (rewrite call_ro_run; cbv beta; now rewrite H).
  run_with R. reflexivity.
Qed.

End StageRuns.

(** ** The analysis request *)

Section Prompt.

Lemma len_app (p q : string) : Str.len (p ++ q) = Str.len p + Str.len q.
Proof.
  unfold Str.len. induction p as [|a p IH]; [reflexivity|].
  rewrite app_cons. cbn [String.length]. lia.
Qed.

(** The prompt is the transcript and 1061 characters of instructions and
    heading. *)
Lemma prompt_len (transcript_content : string) :
  Str.len (prompt_for transcript_content) = 1061 + Str.len transcript_content.
Proof.
  unfold prompt_for. rewrite !len_app.
  change (Str.len analysis_instructions) with 1047.
  change (Str.len Str.nl) with 1. change (Str.len "Transcript:") with 11.
  lia.
Qed.

Lemma len_nonneg (p : string) : 0 <= Str.len p.
Proof. unfold Str.len. lia. Qed.

Variable w : World.
Variable api_key : string.

(** Lines 164-197 in closed form, for either answer of the LLM. *)
Lemma analyze_run (transcript_content : string) (d : gmap string Z) :
  analyze w api_key transcript_content d
  = match generate_content w api_key "gemini-2.5-pro"
            (prompt_for transcript_content) with
    | inr analysis_content =>
        Outcome (inr analysis_content) d
          (analyze_calls api_key transcript_content analysis_content)
    | inl e =>
        Outcome (inl e) d
          (prompt_log transcript_content
             ++ [GenerateContent api_key "gemini-2.5-pro"
                   (prompt_for transcript_content)])
    end.
Proof.
  unfold analyze. cbv zeta. fold (prompt_for transcript_content).
  unfold analyze_calls, prompt_log.
  assert (Hsmall : (Str.len (prompt_for transcript_content) <? 500) = false).
  { apply Z.ltb_ge. rewrite prompt_len.
    pose proof (len_nonneg transcript_content). lia. }
  rewrite Hsmall. cbn [orb].
  rewrite (bind_value _ _ _ _ _ _ (log_run INFO SendingPrompt d)).
  cbn [result disk calls].
  rewrite (bind_value _ _ _ _ _ _
             (log_run INFO (PromptLength (Str.len (prompt_for transcript_content))) d)).
  cbn [result disk calls].
  assert (Hif :
    (if 10000 <? Str.len (prompt_for transcript_content)
     then log INFO (FullPrompt (Str.slice_to 1000 (prompt_for transcript_content))) ;;
          (if 10000 <? Str.len (prompt_for transcript_content)
           then log WARNING PromptVeryLong else ret tt)
     else ret tt) d
    = Outcome (inr tt) d
        (if 10000 <? Str.len (prompt_for transcript_content)
         then [Log INFO (FullPrompt (Str.slice_to 1000 (prompt_for transcript_content)));
               Log WARNING PromptVeryLong]
         else [])).
  { destruct (10000 <? Str.len (prompt_for transcript_content)); reflexivity. }
  rewrite (bind_value _ _ _ _ _ _ Hif). cbn [result disk calls].
  pose proof (call_ro_run
                (GenerateContent api_key "gemini-2.5-pro"
                   (prompt_for transcript_content))
                (fun _ => generate_content w api_key "gemini-2.5-pro"
                            (prompt_for transcript_content)) d) as R.
  cbv beta in R.
  destruct (generate_content w api_key "gemini-2.5-pro"
              (prompt_for transcript_content)) as [e|analysis_content] eqn:G.
  - rewrite (bind_exception _ _ _ _ _ _ R). cbn [result disk calls].
    now rewrite <- !List.app_assoc.
  - rewrite (bind_value _ _ _ _ _ _ R). cbn [result disk calls].
    now rewrite <- !List.app_assoc.
Qed.

End Prompt.

(** ** A run in which every collaborator answers *)

Section SuccessfulRun.

Variable w : World.
Variable environ : gmap string string.
Variable data : UploadEvent.

Lemma filter_nothing {A} (f : A -> bool) (l : list A) :
  Forall (fun x => f x = false) l -> List.filter f l = [].
Proof.
  induction 1 as [|x l Hx _ IH]; [reflexivity|]. cbn. now rewrite Hx.
Qed.

Lemma reconstruct_log_quiet (results : list SpeechRecognitionResult) :
  Forall not_external (reconstruct_log results).
Proof.
  unfold reconstruct_log. apply Forall_app. split.
  - constructor; [now destruct results|].
    eapply Forall_impl; [apply scan_log_records|]. now intros c (i & conf & ->).
  - destruct (_ =? 0); repeat constructor.
Qed.

Lemma prompt_log_quiet (transcript_content : string) :
  Forall not_external (prompt_log transcript_content).
Proof. unfold prompt_log. destruct (10000 <? _); repeat constructor. Qed.

Lemma cleanup_calls_quiet (paths : ArtifactPaths) (d : gmap string Z) :
  Forall not_external (cleanup_calls paths d).
Proof.
  unfold cleanup_calls, removal_calls. apply Forall_app.
  split; destruct (bool_decide _); repeat constructor.
Qed.

(** The stages, one after the other, when each collaborator answers. *)
Lemma stage_sequence_run (d after : gmap string Z)
    (results : list SpeechRecognitionResult) (analysis_content : string) :
  collaborators_succeed w environ data d after results analysis_content ->
  exists video_size audio_size out_text err_text,
    stage_sequence w environ data d
    = Outcome (inr tt) after
        (download_calls (bucket data) (name data) (artifact_paths (name data))
           video_size
         ++ transcode_calls (artifact_paths (name data)) out_text err_text audio_size
         ++ upload_audio_calls (output_bucket environ) (artifact_paths (name data))
         ++ recognize_calls (output_bucket environ) (artifact_paths (name data))
         ++ reconstruct_log results
         ++ save_transcript_calls (output_bucket environ)
              (artifact_paths (name data)) (transcript_text results)
         ++ analyze_calls (default "" (environ !! "GEMINI_API_KEY"))
              (transcript_text results) analysis_content
         ++ save_analysis_calls (output_bucket environ)
              (artifact_paths (name data)) analysis_content).
Proof.
  intros (downloaded & video_size & audio_size & out_text & err_text
          & Hd & Hv & Ht & Ha & Hu & Hr & Htop & Hs & Hg & Hsa).
  exists video_size, audio_size, out_text, err_text.
  unfold stage_sequence, pipeline.
  run_with (download_video_run w _ _ _ _ _ _ Hd Hv).
  run_with (extract_audio_run w _ _ _ _ _ _ Ht Ha).
  run_with (upload_audio_run w _ _ _ Hu).
  run_with (recognize_run w _ _ after _ Hr).
  unfold process_response.
  run_with (reconstruct_transcript_run results after Htop).
  run_with (save_transcript_run w _ _ after _ Hs).
  assert (R := analyze_run w (default "" (environ !! "GEMINI_API_KEY"))
                 (transcript_text results) after).
  rewrite Hg in R. run_with R.
  rewrite (save_analysis_run w _ _ after _ Hsa). cbn [result disk calls].
  unfold download_calls, transcode_calls, upload_audio_calls, recognize_calls,
    save_transcript_calls, save_analysis_calls.
  now rewrite <- !List.app_assoc.
Qed.

End SuccessfulRun.

(** ** The [except] clauses around the stages *)

Section ExceptClauses.

Variable w : World.
Variable environ : gmap string string.
Variable data : UploadEvent.
Variable d : gmap string Z.

(** The outcome of the [try] statement from the outcome of its body: a
    return passes, [CalledProcessError] is replaced by the [AttributeError]
    of line 205 without a record, any other exception is recorded at line 208
    and raised again. *)
Lemma stages_from_sequence :
  stages w environ data d
  = match result (stage_sequence w environ data d) with
    | inr _ => stage_sequence w environ data d
    | inl (CalledProcessError _) =>
        Outcome (inl AttributeError) (disk (stage_sequence w environ data d))
                (calls (stage_sequence w environ data d))
    | inl e =>
        Outcome (inl e) (disk (stage_sequence w environ data d))
                (calls (stage_sequence w environ data d)
                   ++ [Log ERROR (ErrorDuringProcess e)])
    end.
Proof.
  unfold stages, try_except. fold (stage_sequence w environ data).
  destruct (result (stage_sequence w environ data d)) as [e|u]; [|reflexivity].
  destruct e; cbn; try reflexivity. now rewrite List.app_nil_r.
Qed.

(** Whatever happens, the calls of the body come first. *)
Lemma stages_calls_begin :
  exists extra,
    calls (stages w environ data d)
    = (calls (stage_sequence w environ data d) ++ extra)%list.
Proof.
  rewrite stages_from_sequence.
  destruct (result (stage_sequence w environ data d)) as [e|u].
  - destruct e; cbn [calls]; eauto. exists []. now rewrite List.app_nil_r.
  - exists []. now rewrite List.app_nil_r.
Qed.

End ExceptClauses.

(** ** The order of the collaborator calls *)

Section Performs.

Variable so : call -> option stage.

Lemma stages_of_app (cs cs' : list call) :
  stages_of so (cs ++ cs') = (stages_of so cs ++ stages_of so cs')%list.
Proof. unfold stages_of. now rewrite List.filter_app, map_app. Qed.

Lemma stages_of_quiet (cs : list call) :
  Forall not_external cs -> stages_of so cs = [].
Proof. intros H. unfold stages_of. now rewrite (filter_nothing _ _ H). Qed.

(** A computation without collaborator call performs the empty plan. *)
Lemma performs_quiet {A} (m : M A) : only not_external m -> performs so [] m.
Proof.
  intros H d. exists []. split; [now apply stages_of_quiet|].
  split; [reflexivity | auto].
Qed.

(** Raising fits every plan. *)
Lemma performs_raise {A} (plan : list stage) (e : exn) :
  performs so plan (raise (A := A) e).
Proof.
  intros d. exists []. split; [reflexivity|].
  split; [apply prefix_nil | discriminate].
Qed.

Lemma performs_bind {A B} (plan plan' : list stage) (m : M A) (k : A -> M B) :
  performs so plan m ->
  (forall a, performs so plan' (k a)) ->
  performs so (plan ++ plan') (bind m k).
Proof.
  intros Hm Hk d. destruct (Hm d) as (done & E & P & S). unfold bind.
  destruct (result (m d)) as [e|a] eqn:R; cbn [result calls].
  - exists done. split; [exact E|]. split; [now apply prefix_app_r | discriminate].
  - specialize (S a eq_refl). subst done.
    destruct (Hk a (disk (m d))) as (done' & E' & P' & S').
    exists (plan ++ done')%list. rewrite stages_of_app, E, E', map_app.
    split; [reflexivity|]. split; [now apply prefix_app|].
    intros b Hb. f_equal. now apply (S' b).
Qed.

(** One collaborator call, addressed as the source addresses it. *)
Lemma performs_call_fs {A} (c : call) (s : stage)
    (f : gmap string Z -> (exn + A) * gmap string Z) :
  is_external c = true -> so c = Some s -> performs so [s] (call_fs c f).
Proof.
  intros X S d. exists [s]. unfold call_fs. rewrite bind_emit. cbn [calls].
  unfold stages_of. cbn. rewrite X. cbn. rewrite S. auto.
Qed.

Lemma performs_call_ro {A} (c : call) (s : stage)
    (f : gmap string Z -> exn + A) :
  is_external c = true -> so c = Some s -> performs so [s] (call_ro c f).
Proof.
  intros X S d. exists [s]. unfold call_ro. rewrite bind_emit. cbn [calls].
  unfold stages_of. cbn. rewrite X. cbn. rewrite S. auto.
Qed.

(** Handlers that make no collaborator call and always raise leave the plan
    of the body as it is. *)
Lemma performs_try_except {A} (plan : list stage) (body : M A)
    (handler : exn -> option (M A)) :
  performs so plan body ->
  (forall e h, handler e = Some h ->
     only not_external h /\ forall d, exists e', result (h d) = inl e') ->
  performs so plan (try_except body handler).
Proof.
  intros Hb Hh d. destruct (Hb d) as (done & E & P & S). unfold try_except.
  destruct (result (body d)) as [e|a] eqn:R.
  - destruct (handler e) as [h|] eqn:Hd.
    + destruct (Hh e h Hd) as [Q X]. cbn [result calls].
      exists done. rewrite stages_of_app, E, (stages_of_quiet _ (Q _)).
      rewrite List.app_nil_r. split; [reflexivity|]. split; [exact P|].
      intros a Ha. destruct (X (disk (body d))) as [e' He']. congruence.
    + exists done. split; [exact E|]. split; [exact P|]. intros a Ha. congruence.
  - exists done. split; [exact E|]. split; [exact P|].
    intros b Hb'. exact (S a eq_refl).
Qed.

(** A [finally] clause that makes no collaborator call and raises nothing
    leaves the plan of the body as it is. *)
Lemma performs_try_finally {A} (plan : list stage) (body : M A) (final : M unit) :
  performs so plan body ->
  only not_external final ->
  (forall d, result (final d) = inr tt) ->
  performs so plan (try_finally body final).
Proof.
  intros Hb Q R d. destruct (Hb d) as (done & E & P & S). unfold try_finally.
  cbn [result calls]. exists done.
  rewrite stages_of_app, E, (stages_of_quiet _ (Q _)), List.app_nil_r.
  split; [reflexivity|]. split; [exact P|].
  rewrite R. exact S.
Qed.

End Performs.

(** ** The stages make no collaborator call but their own *)

Section Quiet.

Lemma scan_results_quiet (results : list SpeechRecognitionResult) :
  forall i acc, only not_external (scan_results i results acc).
Proof.
  induction results as [|r rest IH]; intros i acc; cbn [scan_results].
  - apply only_ret.
  - unfold top_alternative. only_steps. apply IH.
Qed.

Lemma fallback_results_quiet (results : list SpeechRecognitionResult) :
  forall t, only not_external (fallback_results results t).
Proof.
  induction results as [|r rest IH]; intros t; cbn [fallback_results].
  - apply only_ret.
  - unfold top_alternative. only_steps. apply IH.
Qed.

Lemma reconstruct_transcript_quiet (results : list SpeechRecognitionResult) :
  only not_external (reconstruct_transcript results).
Proof.
  unfold reconstruct_transcript.
  apply only_bind; [destruct results; only_steps|]. intros _.
  apply only_bind; [apply scan_results_quiet|]. intros acc.
  apply only_bind; [|intros t; only_steps].
  destruct (negb _); [apply only_ret|].
  destruct (_ && _); [|apply only_ret].
  only_steps. apply fallback_results_quiet.
Qed.

Lemma cleanup_quiet (paths : ArtifactPaths) : only not_external (cleanup paths).
Proof. intros d. rewrite cleanup_run. apply cleanup_calls_quiet. Qed.

End Quiet.

(** ** The plan of the pipeline *)

Section Plan.

Variable w : World.
Variable bucket_name file_name out_bucket api_key : string.
Variable paths : ArtifactPaths.
Hypothesis distinct_keys : gcs_transcript_path paths <> gcs_analysis_path paths.

Let so := stage_of bucket_name file_name out_bucket api_key paths.

(** A quiet step before the rest of a plan. *)
Lemma performs_after_quiet {A B} (plan : list stage) (m : M A) (k : A -> M B) :
  only not_external m ->
  (forall a, performs so plan (k a)) ->
  performs so plan (bind m k).
Proof.
  intros Q Hk. change plan with ([] ++ plan)%list.
  apply performs_bind; [now apply performs_quiet | exact Hk].
Qed.

(** A planned step followed by quiet ones. *)
Lemma performs_then_quiet {A B} (plan : list stage) (m : M A) (k : A -> M B) :
  performs so plan m ->
  (forall a, only not_external (k a)) ->
  performs so plan (bind m k).
Proof.
  intros Hm Q. rewrite <- (List.app_nil_r plan).
  apply performs_bind; [exact Hm | intros a; now apply performs_quiet].
Qed.

Lemma download_video_plan :
  performs so [AtDownload] (download_video w bucket_name file_name paths).
Proof.
  unfold download_video.
  apply performs_after_quiet; [only_steps|]. intros _.
  apply performs_then_quiet; [|intros _; only_steps].
  apply performs_call_fs; [reflexivity|].
  unfold so, stage_of. now rewrite bool_decide_true.
Qed.

Lemma extract_audio_plan : performs so [AtTranscode] (extract_audio w paths).
Proof.
  unfold extract_audio.
  apply performs_after_quiet; [only_steps|]. intros _.
  apply performs_try_except.
  - apply performs_then_quiet; [|intros r; only_steps].
    apply performs_call_fs; [reflexivity|].
    unfold so, stage_of. now rewrite bool_decide_true.
  - intros e h. destruct e; intros [= <-].
    split; [only_steps|]. intros d. eexists. reflexivity.
Qed.

Lemma upload_audio_plan :
  performs so [AtUploadAudio] (upload_audio w out_bucket paths).
Proof.
  unfold upload_audio.
  apply performs_then_quiet; [|intros _; only_steps].
  apply performs_call_ro; [reflexivity|].
  unfold so, stage_of. now rewrite bool_decide_true.
Qed.

Lemma recognize_plan : performs so [AtRecognize] (recognize w out_bucket paths).
Proof.
  unfold recognize. cbv zeta.
  apply performs_after_quiet; [only_steps|]. intros _.
  apply performs_call_ro; [reflexivity|].
  unfold so, stage_of. now rewrite bool_decide_true.
Qed.

Lemma save_transcript_plan (t : string) :
  performs so [AtUploadTranscript] (save_transcript w out_bucket paths t).
Proof.
  unfold save_transcript.
  apply performs_then_quiet; [|intros _; only_steps].
  apply performs_call_ro; [reflexivity|].
  unfold so, stage_of. now rewrite bool_decide_true.
Qed.

Lemma analyze_plan (t : string) : performs so [AtAnalyze] (analyze w api_key t).
Proof.
  unfold analyze. cbv zeta.
  apply performs_after_quiet; [only_steps|]. intros _.
  apply performs_after_quiet; [only_steps|]. intros _.
  apply performs_after_quiet; [only_steps|]. intros _.
  apply performs_then_quiet; [|intros a; only_steps].
  apply performs_call_ro; [reflexivity|].
  unfold so, stage_of. now rewrite bool_decide_true.
Qed.

Lemma save_analysis_plan (a : string) :
  performs so [AtUploadAnalysis] (save_analysis w out_bucket paths a).
Proof.
  unfold save_analysis.
  apply performs_then_quiet; [|intros _; only_steps].
  apply performs_call_ro; [reflexivity|].
  unfold so, stage_of.
  rewrite bool_decide_false by (intros (_ & E & _); now apply distinct_keys).
  now rewrite bool_decide_true.
Qed.

Lemma pipeline_plan :
  performs so all_stages
    (pipeline w bucket_name file_name out_bucket api_key paths).
Proof.
  unfold pipeline, process_response.
  change all_stages
    with ([AtDownload] ++ [AtTranscode] ++ [AtUploadAudio] ++ [AtRecognize]
            ++ [AtUploadTranscript] ++ [AtAnalyze] ++ [AtUploadAnalysis])%list.
  apply performs_bind; [apply download_video_plan|]. intros _.
  apply performs_bind; [apply extract_audio_plan|]. intros _.
  apply performs_bind; [apply upload_audio_plan|]. intros _.
  apply performs_bind; [apply recognize_plan|]. intros results.
  apply performs_after_quiet; [apply reconstruct_transcript_quiet|]. intros t.
  apply performs_bind; [apply save_transcript_plan|]. intros _.
  apply performs_bind; [apply analyze_plan|]. intros a.
  apply save_analysis_plan.
Qed.

Lemma try_pipeline_plan :
  performs so all_stages
    (try_except (pipeline w bucket_name file_name out_bucket api_key paths)
                outer_except).
Proof.
  apply performs_try_except; [apply pipeline_plan|].
  intros e h. destruct e; intros [= <-];
    (split; [only_steps | intros d; eexists; reflexivity]).
Qed.

End Plan.

Lemma artifact_keys_distinct (file_name : string) :
  gcs_transcript_path (artifact_paths file_name)
  <> gcs_analysis_path (artifact_paths file_name).
Proof. unfold artifact_paths. cbn [gcs_transcript_path gcs_analysis_path]. discriminate. Qed.

(** ** What stays on the disk *)

Section Preserves.

Variable path : string.

Lemma preserves_ret {A} (a : A) : preserves path (ret a).
Proof. intros d. reflexivity. Qed.

Lemma preserves_raise {A} (e : exn) : preserves path (raise (A := A) e).
Proof. intros d. reflexivity. Qed.

Lemma preserves_emit (c : call) : preserves path (emit c).
Proof. intros d. reflexivity. Qed.

Lemma preserves_bind {A B} (m : M A) (k : A -> M B) :
  preserves path m -> (forall a, preserves path (k a)) -> preserves path (bind m k).
Proof.
  intros Hm Hk d. unfold bind.
  destruct (result (m d)) as [e|a]; cbn [disk]; [apply Hm|].
  rewrite Hk. apply Hm.
Qed.

Lemma preserves_try_except {A} (body : M A) (handler : exn -> option (M A)) :
  preserves path body ->
  (forall e h, handler e = Some h -> preserves path h) ->
  preserves path (try_except body handler).
Proof.
  intros Hb Hh d. unfold try_except.
  destruct (result (body d)) as [e|a]; [|apply Hb].
  destruct (handler e) as [h|] eqn:E; [|apply Hb].
  cbn [disk]. rewrite (Hh e h E). apply Hb.
Qed.

Lemma preserves_try_finally {A} (body : M A) (final : M unit) :
  preserves path body -> preserves path final ->
  preserves path (try_finally body final).
Proof.
  intros Hb Hf d. unfold try_finally. cbn [disk]. rewrite Hf. apply Hb.
Qed.

Lemma preserves_getsize (p : string) : preserves path (getsize p).
Proof.
  unfold getsize. apply preserves_bind; [apply preserves_emit|].
  intros _ d. now destruct (d !! p).
Qed.

Lemma preserves_call_ro {A} (c : call) (f : gmap string Z -> exn + A) :
  preserves path (call_ro c f).
Proof.
  unfold call_ro. apply preserves_bind; [apply preserves_emit|]. now intros _ d.
Qed.

Lemma preserves_call_fs {A} (c : call)
    (f : gmap string Z -> (exn + A) * gmap string Z) :
  (forall d, snd (f d) !! path = d !! path) -> preserves path (call_fs c f).
Proof.
  intros H. unfold call_fs. apply preserves_bind; [apply preserves_emit|].
  intros _ d. apply H.
Qed.

End Preserves.

(** The steps of a proof that a computation leaves a path alone. *)
Ltac preserves_step :=
  first
    [ apply preserves_ret
    | apply preserves_raise
    | apply preserves_emit
    | apply preserves_getsize
    | apply preserves_call_ro
    | apply preserves_bind; [|intros ?]
    | match goal with
      | |- preserves _ (if ?b then _ else _) => destruct b
      | |- preserves _ (match ?x with _ => _ end) => destruct x
      end ].

Ltac preserves_steps := unfold log; repeat preserves_step.

Section Frame.

Variable w : World.
Variable bucket_name file_name out_bucket api_key : string.
Variable paths : ArtifactPaths.
Variable path : string.

Hypothesis download_leaves :
  forall d, snd (download_to_filename w bucket_name file_name
                   (local_video_path paths) d) !! path = d !! path.
Hypothesis transcoder_leaves :
  forall d, snd (subprocess_run w (ffmpeg_command paths) d) !! path = d !! path.
Hypothesis not_video : path <> local_video_path paths.
Hypothesis not_audio : path <> local_audio_path paths.

Lemma scan_results_preserves (results : list SpeechRecognitionResult) :
  forall i acc, preserves path (scan_results i results acc).
Proof.
  induction results as [|r rest IH]; intros i acc; cbn [scan_results].
  - apply preserves_ret.
  - unfold top_alternative. preserves_steps. apply IH.
Qed.

Lemma fallback_results_preserves (results : list SpeechRecognitionResult) :
  forall t, preserves path (fallback_results results t).
Proof.
  induction results as [|r rest IH]; intros t; cbn [fallback_results].
  - apply preserves_ret.
  - unfold top_alternative. preserves_steps. apply IH.
Qed.

Lemma reconstruct_transcript_preserves (results : list SpeechRecognitionResult) :
  preserves path (reconstruct_transcript results).
Proof.
  unfold reconstruct_transcript.
  apply preserves_bind; [destruct results; preserves_steps|]. intros _.
  apply preserves_bind; [apply scan_results_preserves|]. intros acc.
  apply preserves_bind; [|intros t; preserves_steps].
  destruct (negb _); [apply preserves_ret|].
  destruct (_ && _); [|apply preserves_ret].
  preserves_steps. apply fallback_results_preserves.
Qed.

Lemma pipeline_preserves :
  preserves path (pipeline w bucket_name file_name out_bucket api_key paths).
Proof.
  unfold pipeline, download_video, extract_audio, upload_audio, recognize,
    process_response, save_transcript, analyze, save_analysis.
  apply preserves_bind.
  { apply preserves_bind; [preserves_steps|]. intros _.
    apply preserves_bind; [now apply preserves_call_fs|]. intros _.
    preserves_steps. }
  intros _. apply preserves_bind.
  { apply preserves_bind; [preserves_steps|]. intros _.
    apply preserves_try_except.
    - apply preserves_bind; [now apply preserves_call_fs|]. intros r.
      preserves_steps.
    - intros e h. destruct e; intros [= <-]. preserves_steps. }
  intros _.
  apply preserves_bind; [preserves_steps|]. intros _.
  apply preserves_bind; [preserves_steps|]. intros results.
  apply preserves_bind; [apply reconstruct_transcript_preserves|]. intros t.
  preserves_steps.
Qed.

Lemma guarded_pipeline_preserves :
  preserves path
    (guarded_pipeline w bucket_name file_name out_bucket api_key paths).
Proof.
  unfold guarded_pipeline. apply preserves_try_finally.
  - apply preserves_try_except; [apply pipeline_preserves|].
    intros e h. destruct e; intros [= <-]; preserves_steps.
  - intros d. rewrite cleanup_run. cbn [disk].
    now rewrite !lookup_delete_ne by congruence.
Qed.

End Frame.

(** ** Every collaborator call is addressed as planned *)

Section Addressed.

Variable w : World.
Variable environ : gmap string string.
Variable data : UploadEvent.
Variable d : gmap string Z.

Lemma stages_of_all_some (so : call -> option stage) (cs : list call)
    (done : list stage) (c : call) :
  stages_of so cs = map Some done ->
  In c cs -> is_external c = true -> exists s, so c = Some s.
Proof.
  intros E I X.
  assert (J : In (so c) (stages_of so cs)).
  { unfold stages_of. apply in_map. apply filter_In. now split. }
  rewrite E in J. apply in_map_iff in J as (s & Hs & _). eauto.
Qed.

Lemma external_calls_addressed (c : call) :
  In c (calls (transcribe_video_from_gcs w environ data d)) ->
  is_external c = true ->
  exists s,
    stage_of (bucket data) (name data) (output_bucket environ)
      (default "" (environ !! "GEMINI_API_KEY")) (artifact_paths (name data)) c
    = Some s.
Proof.
  intros I X.
  assert (Hquiet : forall cs, Forall not_external cs -> In c cs -> False).
  { intros cs F J. rewrite List.Forall_forall in F. specialize (F c J).
    unfold not_external in F. congruence. }
  destruct (credential_present_or_absent environ) as [K|K].
  - destruct (decide (bucket data = input_bucket environ)) as [B|B].
    + destruct (Str.startswith "video/" (contentType data)) eqn:V.
      * assert (Hreach : reaches_pipeline environ data) by (now repeat split).
        rewrite (run_reaching_pipeline w environ data d Hreach) in I.
        cbn [calls] in I.
        apply in_app_or in I as [I|I];
          [exfalso; apply (Hquiet (opening_log data)); [repeat constructor | exact I]|].
        apply in_app_or in I as [I|I];
          [|exfalso; eapply Hquiet; [apply cleanup_calls_quiet | exact I]].
        destruct (try_pipeline_plan w (bucket data) (name data)
                    (output_bucket environ)
                    (default "" (environ !! "GEMINI_API_KEY"))
                    (artifact_paths (name data))
                    (artifact_keys_distinct (name data)) d)
          as (done & E & _ & _).
        exact (stages_of_all_some _ _ _ _ E I X).
      * assert (N : ~ is_video data)
          by (unfold is_video; rewrite V; discriminate).
        rewrite (run_not_video w environ data d K B N) in I.
        exfalso. eapply Hquiet; [|exact I]. repeat constructor.
    + rewrite (run_other_bucket w environ data d K B) in I.
      exfalso. eapply Hquiet; [|exact I]. repeat constructor.
  - rewrite (run_without_credential w environ data d K) in I.
    exfalso. eapply Hquiet; [|exact I]. repeat constructor.
Qed.

End Addressed.

(** ** Where [splitext] cuts *)

Section Extension.

Lemma rfind_upper (c : ascii) (p : string) :
  Str.rfind c p < Z.of_nat (String.length p).
Proof.
  induction p as [|a r IH]; cbn [Str.rfind String.length]; [lia|].
  destruct (Z.leb_spec 0 (Str.rfind c r)); [lia|].
  destruct (Ascii.eqb a c); lia.
Qed.

(** The loop looks at the characters from [filenameIndex] on only. *)
Lemma has_non_dot_shift (a : ascii) (p : string) (i n : nat) :
  OsPath.has_non_dot (String a p) (S i) n = OsPath.has_non_dot p i n.
Proof.
  revert i. induction n as [|n IH]; intros i; [reflexivity|].
  cbn [OsPath.has_non_dot Str.slice_from]. now rewrite IH.
Qed.

(** Within the string, the loop finds a character that is not a dot exactly
    when the characters it runs over are not all dots. *)
Lemma has_non_dot_spec (n : nat) (p : string) :
  (n <= String.length p)%nat ->
  OsPath.has_non_dot p 0 n = negb (only_dots (Str.slice_to n p)).
Proof.
  revert p. induction n as [|n IH]; intros p H; [reflexivity|].
  destruct p as [|a r]; [cbn [String.length] in H; lia|].
  cbn [String.length] in H.
  cbn [OsPath.has_non_dot Str.slice_from Str.slice_to only_dots String.eqb].
  rewrite has_non_dot_shift, IH by lia.
  destruct (Ascii.eqb a OsPath.extsep); reflexivity.
Qed.

Lemma only_dots_app (p q : string) :
  only_dots (p ++ q) = only_dots p && only_dots q.
Proof.
  induction p as [|a p IH]; [reflexivity|].
  rewrite app_cons. cbn [only_dots]. now rewrite IH, andb_assoc.
Qed.

(** [splitext] on a name without separator.  It cuts at the last dot when a
    character before that dot is not a dot; the extension is then that dot
    and the dot-free characters after it.  Otherwise (no dot at all, or
    leading dots only) it cuts nothing off. *)
Lemma splitext_cases (b : string) :
  Str.mem OsPath.sep b = false ->
  (snd (OsPath.splitext b) = ""
   /\ exists dots e,
        fst (OsPath.splitext b) = dots ++ e
        /\ only_dots dots = true
        /\ Str.mem OsPath.extsep e = false)
  \/ (exists e,
        snd (OsPath.splitext b) = "." ++ e
        /\ Str.mem OsPath.extsep e = false
        /\ only_dots (fst (OsPath.splitext b)) = false).
Proof.
  intros Hsep. unfold OsPath.splitext.
  rewrite (rfind_none _ _ Hsep).
  change (Z.to_nat (-1 + 1)) with 0%nat.
  pose proof (rfind_lower OsPath.extsep b) as Hlow.
  pose proof (rfind_upper OsPath.extsep b) as Hup.
  destruct (Z.ltb_spec (-1) (Str.rfind OsPath.extsep b)) as [Hdot|Hdot];
    cbn [andb].
  - replace (Str.rfind OsPath.extsep b - (-1 + 1))
      with (Str.rfind OsPath.extsep b) by lia.
    destruct (rfind_split OsPath.extsep b) as [S M]; [lia|].
    rewrite has_non_dot_spec by lia.
    destruct (only_dots (Str.slice_to (Z.to_nat (Str.rfind OsPath.extsep b)) b))
      eqn:D; cbn [negb fst snd].
    + left. split; [reflexivity|].
      exists (Str.slice_to (Z.to_nat (Str.rfind OsPath.extsep b)) b ++ "."),
             (Str.slice_from (Z.to_nat (Str.rfind OsPath.extsep b + 1)) b).
      split; [|split; [|exact M]].
      * rewrite app_assoc.
        change ("." ++ ?x) with (String OsPath.extsep x).
        rewrite <- S. symmetry. apply slice_to_from.
      * rewrite only_dots_app, D. reflexivity.
    + right. eexists. split; [exact S|]. split; [exact M | exact D].
  - left. cbn [fst snd]. split; [reflexivity|].
    exists "", b. split; [reflexivity|]. split; [reflexivity|].
    apply rfind_absent. lia.
Qed.

End Extension.

(** ** The scratch directory *)

Section ScratchDirectory.

Lemma eqb_app (p q r : string) : String.eqb (p ++ q) (p ++ r) = String.eqb q r.
Proof.
  induction p as [|a p IH]; [reflexivity|].
  rewrite !app_cons. cbn [String.eqb]. now rewrite Ascii.eqb_refl, IH.
Qed.

(** Under the scratch directory, only the components [""], ["."] and [".."]
    name a directory. *)
Lemma is_directory_under_temp_dir (b : string) :
  Posix.is_directory ("/tmp/" ++ b)
  = String.eqb b "" || String.eqb b "." || String.eqb b "..".
Proof.
  unfold Posix.is_directory.
  change (TEMP_DIR ++ "/") with ("/tmp/" ++ "").
  change (TEMP_DIR ++ "/.") with ("/tmp/" ++ ".").
  change (TEMP_DIR ++ "/..") with ("/tmp/" ++ "..").
  now rewrite !eqb_app.
Qed.

(** The local audio path never names a directory. *)
Lemma audio_path_no_directory (file_name : string) :
  Posix.is_directory (local_audio_path (artifact_paths file_name)) = false.
Proof.
  cbn [artifact_paths local_audio_path].
  destruct (basename_split file_name) as (dir & _ & _ & Hsep).
  set (base := fst (OsPath.splitext (OsPath.basename file_name))).
  assert (Hb : Str.mem OsPath.sep (base ++ ".flac") = false).
  { rewrite mem_app. unfold base. now rewrite (splitext_no_sep _ Hsep). }
  rewrite (join_temp_dir _ Hb), is_directory_under_temp_dir.
  assert (L : 5 <= Str.len (base ++ ".flac")).
  { rewrite len_app. pose proof (len_nonneg base).
    change (Str.len ".flac") with 5. lia. }
  assert (N : forall s, Str.len s < 5 -> String.eqb (base ++ ".flac") s = false).
  { intros s Hs. apply String.eqb_neq. intros E. rewrite E in L. lia. }
  rewrite !N by reflexivity. reflexivity.
Qed.

(** The local video path names a directory exactly when the object name has
    no file name. *)
Lemma video_path_no_directory (data : UploadEvent) :
  has_file_name data ->
  Posix.is_directory (local_video_path (artifact_paths (name data))) = false.
Proof.
  intros (H0 & H1 & H2). cbn [artifact_paths local_video_path].
  destruct (basename_split (name data)) as (dir & _ & _ & Hsep).
  rewrite (join_temp_dir _ Hsep), is_directory_under_temp_dir.
  apply String.eqb_neq in H0, H1, H2. now rewrite H0, H1, H2.
Qed.

Lemma video_path_directory (data : UploadEvent) :
  ~ has_file_name data ->
  Posix.is_directory (local_video_path (artifact_paths (name data))) = true.
Proof.
  intros N. cbn [artifact_paths local_video_path].
  destruct (basename_split (name data)) as (dir & _ & _ & Hsep).
  rewrite (join_temp_dir _ Hsep), is_directory_under_temp_dir.
  destruct (String.eqb_spec (OsPath.basename (name data)) "") as [|H0];
    [reflexivity|].
  destruct (String.eqb_spec (OsPath.basename (name data)) ".") as [|H1];
    [reflexivity|].
  destruct (String.eqb_spec (OsPath.basename (name data)) "..") as [|H2];
    [reflexivity|].
  now destruct N.
Qed.

(** Away from the directories the two readings of [os.path.exists] and of
    [os.remove] are the same computation. *)
Lemma posix_path_exists (path : string) :
  Posix.is_directory path = false -> Posix.path_exists path = path_exists path.
Proof. intros H. unfold Posix.path_exists. now rewrite H. Qed.

Lemma posix_remove (path : string) :
  Posix.is_directory path = false -> Posix.remove path = remove path.
Proof. intros H. unfold Posix.remove. now rewrite H. Qed.

Lemma posix_cleanup (paths : ArtifactPaths) :
  Posix.is_directory (local_video_path paths) = false ->
  Posix.is_directory (local_audio_path paths) = false ->
  Posix.cleanup paths = cleanup paths.
Proof.
  intros Hv Ha. unfold Posix.cleanup.
  now rewrite (posix_path_exists _ Hv), (posix_remove _ Hv),
              (posix_path_exists _ Ha), (posix_remove _ Ha).
Qed.

Lemma posix_run (w : World) (environ : gmap string string) (data : UploadEvent) :
  has_file_name data ->
  Posix.transcribe_video_from_gcs w environ data
  = transcribe_video_from_gcs w environ data.
Proof.
  intros H. unfold Posix.transcribe_video_from_gcs, Posix.guarded_pipeline.
  rewrite (posix_cleanup _ (video_path_no_directory data H)
             (audio_path_no_directory (name data))).
  reflexivity.
Qed.

(** On a directory the guarded removal of lines 212-214 raises, and what
    follows it in the [finally] clause does not run. *)
Lemma posix_cleanup_directory (paths : ArtifactPaths) (d : gmap string Z) :
  Posix.is_directory (local_video_path paths) = true ->
  Posix.cleanup paths d
  = Outcome (inl (IsADirectoryError (local_video_path paths))) d
      [PathExists (local_video_path paths); Remove (local_video_path paths)].
Proof.
  intros H. unfold Posix.cleanup, Posix.path_exists, Posix.remove.
  rewrite H. reflexivity.
Qed.

End ScratchDirectory.

(** ** After an empty response *)

Section NoResults.

Variable w : World.
Variable out_bucket api_key : string.
Variable paths : ArtifactPaths.

(** [reconstruct_transcript] runs [speaker_lines_or_fallback] between the
    loop and the closing records. *)
Lemma reconstruct_transcript_block (results : list SpeechRecognitionResult) :
  reconstruct_transcript results
  = (match results with
     | [] => log WARNING NoTranscriptionResults
     | _ :: _ => log INFO (ReturnedResults (Z.of_nat (List.length results)))
     end ;;
     acc <- scan_results 0 results ("", ∅) ;;
     transcript_content <-
       speaker_lines_or_fallback results (fst acc) (snd acc) ;;
     log INFO TranscriptionComplete ;;
     log INFO (TranscriptLength (Str.len transcript_content)) ;;
     (if Str.len transcript_content =? 0
      then log ERROR FinalTranscriptEmpty
      else log INFO (PartialTranscript (Str.slice_to 200 transcript_content))) ;;
     ret transcript_content).
Proof. reflexivity. Qed.






End NoResults.

(** ** The run on a disk with the scratch directory *)

Section DirectoryRun.

Variable w : World.
Variable environ : gmap string string.
Variable data : UploadEvent.
Variable d : gmap string Z.

(** Past the guards, when the local video path names a directory: the
    stages with their [except] clauses, then the [finally] clause, which
    raises at its first removal. *)
Lemma posix_run_without_file_name :
  reaches_pipeline environ data ->
  ~ has_file_name data ->
  Posix.transcribe_video_from_gcs w environ data d
  = Outcome
      (inl (IsADirectoryError (local_video_path (artifact_paths (name data)))))
      (disk (stages w environ data d))
      (opening_log data
         ++ calls (stages w environ data d)
         ++ [PathExists (local_video_path (artifact_paths (name data)));
             Remove (local_video_path (artifact_paths (name data)))]).
Proof.
  intros (K & B & V) N. unfold Posix.transcribe_video_from_gcs. rewrite K.
  apply String.eqb_eq in B. unfold input_bucket in B. rewrite B.
  unfold is_video in V. rewrite V. cbn [negb].
  unfold log. rewrite !bind_emit.
  unfold Posix.guarded_pipeline, try_finally.
  rewrite (posix_cleanup_directory _ _ (video_path_directory data N)).
  reflexivity.
Qed.

End DirectoryRun.

(** * The claims *)

(** ** Transcript reconstruction *)

(** C1.  When the top alternative of every result carries word-level speaker
    tags, the transcript is one line per distinct tag, the tags in strictly
    ascending numeric order; the line of a tag is [Speaker <tag>: ] followed
    by the words of that tag, space-joined, in scan order, and a newline.
    For the groups [hello/1 there/1] and [hi/2] the transcript is the two
    lines [Speaker 1: hello there] and [Speaker 2: hi], each ended by a
    newline. *)
Theorem C1_one_line_per_speaker :
  (forall results,
     Forall carries_speaker_tags results ->
     exists tags,
       StronglySorted Z.lt tags
       /\ (forall t, In t tags <-> In t (map speaker_tag (tagged_words results)))
       /\ returns (reconstruct_transcript results)
                  (Str.cat (map (expected_speaker_line results) tags)))
  /\ returns (reconstruct_transcript Sample.two_groups)
             ("Speaker 1: hello there" ++ Str.nl ++ "Speaker 2: hi" ++ Str.nl).
Proof.
  split.
  - intros results H.
    destruct (speaker_lines_expected results) as (tags & S & I & E).
    exists tags. split; [exact S|]. split; [exact I|].
    intros d. rewrite reconstruct_transcript_run
      by (eapply Forall_impl; [exact H | apply carries_tags_has_top]).
    cbn [result]. unfold transcript_text.
    now rewrite (fallback_transcripts_none results H), <- E.
  - intros d. rewrite reconstruct_transcript_run
      by (repeat constructor; discriminate).
    reflexivity.
Qed.

Lemma C1_witness :
  Forall carries_speaker_tags Sample.two_groups
  /\ exists tags,
       StronglySorted Z.lt tags
       /\ (forall t, In t tags
                     <-> In t (map speaker_tag (tagged_words Sample.two_groups)))
       /\ returns (reconstruct_transcript Sample.two_groups)
                  (Str.cat (map (expected_speaker_line Sample.two_groups) tags)).
Proof.
  assert (H : Forall carries_speaker_tags Sample.two_groups).
  { repeat constructor; eexists _, _; (split; [reflexivity | discriminate]). }
  split; [exact H | exact (proj1 C1_one_line_per_speaker Sample.two_groups H)].
Defined.

(** C2, as stated, fails: with one result that fills a bucket and another
    whose top alternative has no word list, the accumulated fallback line is
    not dropped.  On the groups [hi/1] and the untagged transcript [yo] the
    transcript is [yo], newline, [Speaker 1: hi], newline, which is not just
    the per-speaker lines. *)
Lemma C2_counterexample :
  Exists carries_speaker_tags Sample.mixed
  /\ Exists has_no_words Sample.mixed
  /\ returns (reconstruct_transcript Sample.mixed)
             ("yo" ++ Str.nl ++ "Speaker 1: hi" ++ Str.nl)
  /\ speaker_lines (buckets Sample.mixed) = "Speaker 1: hi" ++ Str.nl
  /\ ~ returns (reconstruct_transcript Sample.mixed)
               (speaker_lines (buckets Sample.mixed)).
Proof.
  assert (R : forall d, result (reconstruct_transcript Sample.mixed d)
                        = inr ("yo" ++ Str.nl ++ "Speaker 1: hi" ++ Str.nl)).
  { intros d. rewrite reconstruct_transcript_run
      by (repeat constructor; discriminate).
    reflexivity. }
  split; [|split; [|split; [exact R|split; [reflexivity|]]]].
  - apply Exists_cons_hd. eexists _, _. split; [reflexivity | discriminate].
  - apply Exists_cons_tl, Exists_cons_hd. eexists _, _. split; reflexivity.
  - intros H. specialize (H ∅). rewrite R in H. discriminate H.
Qed.

(** C2, amended.  When every result has a top alternative, at least one fills
    a speaker bucket and at least one has no word list, the transcript is the
    fallback accumulator (the transcripts of the results without word list,
    each followed by a newline, in result order; it is not empty) followed by
    the per-speaker lines, one per distinct tag in ascending order. *)
Theorem C2_fallback_precedes_speaker_lines (results : list SpeechRecognitionResult) :
  Forall has_top_alternative results ->
  Exists carries_speaker_tags results ->
  Exists has_no_words results ->
  exists tags,
    StronglySorted Z.lt tags
    /\ (forall t, In t tags <-> In t (map speaker_tag (tagged_words results)))
    /\ tags <> []
    /\ fallback_transcripts results <> []
    /\ returns (reconstruct_transcript results)
               (newline_terminated (fallback_transcripts results)
                  ++ Str.cat (map (expected_speaker_line results) tags)).
Proof.
  intros H T N.
  destruct (speaker_lines_expected results) as (tags & S & I & E).
  exists tags. split; [exact S|]. split; [exact I|].
  split; [|split; [now apply fallback_transcripts_some|]].
  - apply tagged_words_some in T.
    destruct (tagged_words results) as [|w ws]; [contradiction|].
    intros ->. apply (proj2 (I (speaker_tag w))). now left.
  - intros d. rewrite reconstruct_transcript_run by exact H.
    cbn [result]. unfold transcript_text. now rewrite <- E.
Qed.

Lemma C2_witness :
  Forall has_top_alternative Sample.mixed
  /\ Exists carries_speaker_tags Sample.mixed
  /\ Exists has_no_words Sample.mixed
  /\ exists tags,
       StronglySorted Z.lt tags
       /\ (forall t, In t tags
                     <-> In t (map speaker_tag (tagged_words Sample.mixed)))
       /\ tags <> []
       /\ fallback_transcripts Sample.mixed <> []
       /\ returns (reconstruct_transcript Sample.mixed)
                  (newline_terminated (fallback_transcripts Sample.mixed)
                     ++ Str.cat (map (expected_speaker_line Sample.mixed) tags)).
Proof.
  assert (H1 : Forall has_top_alternative Sample.mixed)
    by (repeat constructor; discriminate).
  assert (H2 : Exists carries_speaker_tags Sample.mixed).
  { apply Exists_cons_hd. eexists _, _. split; [reflexivity | discriminate]. }
  assert (H3 : Exists has_no_words Sample.mixed).
  { apply Exists_cons_tl, Exists_cons_hd. eexists _, _. split; reflexivity. }
  split; [exact H1|]. split; [exact H2|]. split; [exact H3|].
  exact (C2_fallback_precedes_speaker_lines Sample.mixed H1 H2 H3).
Defined.

(** C3, as stated, fails: the transcript of a response without word lists is
    not the newline-joined transcripts.  For the single untagged transcript
    [a] the join is [a], and the transcript is [a] followed by a newline. *)
Lemma C3_counterexample :
  Sample.untagged <> []
  /\ Forall has_no_words Sample.untagged
  /\ Str.join Str.nl (map transcript (top_alternatives Sample.untagged)) = "a"
  /\ returns (reconstruct_transcript Sample.untagged) ("a" ++ Str.nl)
  /\ ~ returns (reconstruct_transcript Sample.untagged)
               (Str.join Str.nl (map transcript (top_alternatives Sample.untagged))).
Proof.
  assert (R : forall d, result (reconstruct_transcript Sample.untagged d)
                        = inr ("a" ++ Str.nl)).
  { intros d. rewrite reconstruct_transcript_run
      by (repeat constructor; discriminate).
    reflexivity. }
  split; [discriminate|]. split; [|split; [reflexivity|split; [exact R|]]].
  - repeat constructor. eexists _, _. split; reflexivity.
  - intros H. specialize (H ∅). rewrite R in H. discriminate H.
Qed.

(** C3, amended.  For a non-empty response in which no top alternative has a
    word list, the transcript is the top-alternative transcripts in result
    order, each followed by a newline: the newline-joined transcripts and one
    more newline at the end. *)
Theorem C3_transcripts_newline_terminated (results : list SpeechRecognitionResult) :
  results <> [] ->
  Forall has_no_words results ->
  returns (reconstruct_transcript results)
          (newline_terminated (map transcript (top_alternatives results)))
  /\ newline_terminated (map transcript (top_alternatives results))
     = Str.join Str.nl (map transcript (top_alternatives results)) ++ Str.nl.
Proof.
  intros N H.
  assert (T : Forall has_top_alternative results)
    by (eapply Forall_impl; [exact H | apply no_words_has_top]).
  split.
  - intros d. rewrite reconstruct_transcript_run by exact T.
    cbn [result]. unfold transcript_text.
    destruct (fallback_transcripts_all results H) as [-> W].
    apply buckets_empty in W. rewrite W, speaker_lines_empty.
    now rewrite app_nil_r.
  - apply newline_terminated_join. intros E. apply map_eq_nil in E.
    now apply (top_alternatives_nonempty results T N).
Qed.

Lemma C3_witness :
  Sample.untagged <> []
  /\ Forall has_no_words Sample.untagged
  /\ returns (reconstruct_transcript Sample.untagged)
             (newline_terminated (map transcript (top_alternatives Sample.untagged)))
  /\ newline_terminated (map transcript (top_alternatives Sample.untagged))
     = Str.join Str.nl (map transcript (top_alternatives Sample.untagged)) ++ Str.nl.
Proof.
  assert (H1 : Sample.untagged <> []) by discriminate.
  assert (H2 : Forall has_no_words Sample.untagged).
  { repeat constructor. eexists _, _. split; reflexivity. }
  split; [exact H1|]. split; [exact H2|].
  exact (C3_transcripts_newline_terminated Sample.untagged H1 H2).
Defined.




(** ** The guards *)

(** C4.  When [GEMINI_API_KEY] is absent or empty the run raises the
    [ValueError] of line 43 after three log records: it makes no download,
    transcoder, upload, recognition or LLM call and leaves the disk alone. *)
Theorem C4_missing_credential_is_fatal (w : World) (environ : gmap string string)
    (data : UploadEvent) (d : gmap string Z) :
  credential_absent environ ->
  result (transcribe_video_from_gcs w environ data d)
    = inl (ValueError "GEMINI_API_KEY is required.")
  /\ disk (transcribe_video_from_gcs w environ data d) = d
  /\ calls (transcribe_video_from_gcs w environ data d)
     = (opening_log data ++ [Log ERROR GeminiKeyNotSet])%list
  /\ Forall not_external (calls (transcribe_video_from_gcs w environ data d)).
Proof.
  intros H. rewrite (run_without_credential w environ data d H).
  repeat split. repeat constructor.
Qed.

Lemma C4_witness :
  credential_absent Sample.without_key
  /\ result (transcribe_video_from_gcs Sample.cooperative Sample.without_key
               Sample.clip1 ∅)
     = inl (ValueError "GEMINI_API_KEY is required.")
  /\ Forall not_external
       (calls (transcribe_video_from_gcs Sample.cooperative Sample.without_key
                 Sample.clip1 ∅)).
Proof.
  assert (H : credential_absent Sample.without_key) by (left; reflexivity).
  pose proof (C4_missing_credential_is_fatal Sample.cooperative
                Sample.without_key Sample.clip1 ∅ H) as (R & _ & _ & F).
  split; [exact H|]. split; [exact R | exact F].
Defined.




(** C10.  The credential check comes before the two filters: for an event
    from another bucket or of a non-video content type, the run without
    credential raises the [ValueError] of line 43, whereas the same event is
    a skip in any environment that has the credential. *)
Theorem C10_credential_check_first (w : World) (environ : gmap string string)
    (data : UploadEvent) (d : gmap string Z) :
  credential_absent environ ->
  bucket data <> input_bucket environ \/ ~ is_video data ->
  result (transcribe_video_from_gcs w environ data d)
    = inl (ValueError "GEMINI_API_KEY is required.")
  /\ (forall key, key <> "" ->
        result (transcribe_video_from_gcs w (<["GEMINI_API_KEY" := key]> environ)
                  data d) = inr tt).
Proof.
  intros K H. split; [now rewrite (run_without_credential w environ data d K)|].
  intros key N.
  assert (P : credential_present (<["GEMINI_API_KEY" := key]> environ)).
  { unfold credential_present. rewrite lookup_insert_eq. cbn.
    now apply String.eqb_neq. }
  apply filtered_run_returns; [exact P|].
  unfold input_bucket, environ_get in *.
  now rewrite lookup_insert_ne by discriminate.
Qed.

Lemma C10_witness :
  credential_absent Sample.without_key
  /\ (bucket Sample.not_a_video <> input_bucket Sample.without_key
      \/ ~ is_video Sample.not_a_video)
  /\ result (transcribe_video_from_gcs Sample.cooperative Sample.without_key
               Sample.not_a_video ∅)
     = inl (ValueError "GEMINI_API_KEY is required.").
Proof.
  assert (K : credential_absent Sample.without_key) by (left; reflexivity).
  assert (H : bucket Sample.not_a_video <> input_bucket Sample.without_key
              \/ ~ is_video Sample.not_a_video)
    by (right; vm_compute; discriminate).
  split; [exact K|]. split; [exact H|].
  exact (proj1 (C10_credential_check_first Sample.cooperative Sample.without_key
                  Sample.not_a_video ∅ K H)).
Defined.

(** ** Path resolution *)

(** C6.  Every object name splits into a directory prefix (empty or ending
    in the separator), the base identifier and an extension, base and
    extension holding no separator.  The extension is stripped: it is the
    last dot of the name without its directory prefix together with the
    dot-free characters after it, provided some character of the base is not
    a dot.  Only when there is no such dot (no dot at all, or nothing but
    dots in front of the last one) is nothing stripped: the extension is
    empty and the base is a run of dots followed by dot-free characters.
    The local video file is the name without its directory prefix under the
    scratch directory, the local audio file is [<base>.flac] under the
    scratch directory, and the remote keys are [audio/<base>.flac],
    [transcripts/<base>.txt] and [analysis/<base>_analysis.txt].  For
    [clip1.mp4] the keys are [audio/clip1.flac], [transcripts/clip1.txt] and
    [analysis/clip1_analysis.txt]. *)
Theorem C6_artifact_paths :
  (forall file_name,
     exists dir ext,
       file_name = dir ++ base_file_name (artifact_paths file_name) ++ ext
       /\ (dir = "" \/ exists d, dir = d ++ "/")
       /\ Str.mem OsPath.sep (base_file_name (artifact_paths file_name) ++ ext)
          = false
       /\ ((exists e,
              ext = "." ++ e
              /\ Str.mem OsPath.extsep e = false
              /\ only_dots (base_file_name (artifact_paths file_name)) = false)
           \/ (ext = ""
               /\ exists dots e,
                    base_file_name (artifact_paths file_name) = dots ++ e
                    /\ only_dots dots = true
                    /\ Str.mem OsPath.extsep e = false))
       /\ local_video_path (artifact_paths file_name)
          = TEMP_DIR ++ "/" ++ base_file_name (artifact_paths file_name) ++ ext
       /\ local_audio_path (artifact_paths file_name)
          = TEMP_DIR ++ "/" ++ base_file_name (artifact_paths file_name) ++ ".flac"
       /\ gcs_audio_path (artifact_paths file_name)
          = "audio/" ++ base_file_name (artifact_paths file_name) ++ ".flac"
       /\ gcs_transcript_path (artifact_paths file_name)
          = "transcripts/" ++ base_file_name (artifact_paths file_name) ++ ".txt"
       /\ gcs_analysis_path (artifact_paths file_name)
          = "analysis/" ++ base_file_name (artifact_paths file_name)
              ++ "_analysis.txt")
  /\ gcs_audio_path (artifact_paths "clip1.mp4") = "audio/clip1.flac"
  /\ gcs_transcript_path (artifact_paths "clip1.mp4") = "transcripts/clip1.txt"
  /\ gcs_analysis_path (artifact_paths "clip1.mp4") = "analysis/clip1_analysis.txt".
Proof.
  split; [|repeat split].
  intros file_name.
  destruct (basename_split file_name) as (dir & Hdir & Hd & Hsep).
  destruct (splitext_split (OsPath.basename file_name)) as [Hext _].
  pose proof (splitext_cases (OsPath.basename file_name) Hsep) as He.
  exists dir, (snd (OsPath.splitext (OsPath.basename file_name))).
  cbn [artifact_paths base_file_name local_video_path local_audio_path
       gcs_audio_path gcs_transcript_path gcs_analysis_path].
  rewrite <- Hext.
  split; [exact Hdir|]. split; [exact Hd|]. split; [exact Hsep|].
  split; [destruct He as [He|He]; [now right | now left]|].
  split; [now apply join_temp_dir|].
  split; [|repeat split].
  apply join_temp_dir. rewrite mem_app.
  now rewrite (splitext_no_sep _ Hsep).
Qed.

(** C7, as stated, fails: the empty object name is not rejected.  Its paths
    resolve to the scratch directory itself and to keys with an empty base;
    an event with that name passes the guards, the download is called with
    those paths, and in a world where every collaborator succeeds the run
    returns normally.  No validation error is signalled. *)
Lemma C7_counterexample :
  name Sample.unnamed = ""
  /\ reaches_pipeline Sample.configured Sample.unnamed
  /\ artifact_paths ""
     = {| base_file_name := "";
          local_video_path := "/tmp/";
          local_audio_path := "/tmp/.flac";
          gcs_audio_path := "audio/.flac";
          gcs_transcript_path := "transcripts/.txt";
          gcs_analysis_path := "analysis/_analysis.txt" |}
  /\ In (DownloadToFilename "in" "" "/tmp/")
        (calls (transcribe_video_from_gcs Sample.cooperative Sample.configured
                  Sample.unnamed ∅))
  /\ result (transcribe_video_from_gcs Sample.cooperative Sample.configured
               Sample.unnamed ∅) = inr tt.
Proof.
  split; [reflexivity|]. split; [repeat split|]. split; [reflexivity|].
  split; [|reflexivity].
  vm_compute. do 3 right. now left.
Qed.

(** C7, amended.  Path resolution is a total function of the object name,
    without side effects: whatever the name, the empty one included, an event
    that passes the guards goes straight to the download, which is called
    with the resolved local video path; nothing is raised and no call is
    made in between. *)
Theorem C7_path_resolution_total (w : World) (environ : gmap string string)
    (data : UploadEvent) :
  reaches_pipeline environ data ->
  starts_with
    (opening_log data
       ++ [Log INFO (Downloading (name data) (bucket data)
                       (local_video_path (artifact_paths (name data))));
           DownloadToFilename (bucket data) (name data)
             (local_video_path (artifact_paths (name data)))])%list
    (transcribe_video_from_gcs w environ data).
Proof.
  intros H d. rewrite (run_reaching_pipeline w environ data d H). cbn [calls].
  destruct (stages_start_with_download w environ data d) as [rest E].
  rewrite E. exists (rest ++ cleanup_calls (artifact_paths (name data))
                               (disk (stages w environ data d)))%list.
  now rewrite <- !List.app_assoc.
Qed.

Lemma C7_witness :
  reaches_pipeline Sample.configured Sample.unnamed
  /\ starts_with
       (opening_log Sample.unnamed
          ++ [Log INFO (Downloading "" "in"
                          (local_video_path (artifact_paths "")));
              DownloadToFilename "in" "" (local_video_path (artifact_paths ""))])%list
       (transcribe_video_from_gcs Sample.cooperative Sample.configured
          Sample.unnamed).
Proof.
  assert (H : reaches_pipeline Sample.configured Sample.unnamed)
    by (repeat split).
  split; [exact H|].
  exact (C7_path_resolution_total Sample.cooperative Sample.configured
           Sample.unnamed H).
Defined.

(** ** Cleanup *)

(** C8 fails where the object name has no file name.  The placeholder object
    [videos/] of a folder, uploaded with a video type, passes the guards; its
    local video path is the scratch directory [/tmp/] and its local audio
    path is [/tmp/.flac].  The download onto the directory raises; the
    [finally] clause finds that [/tmp/] exists, [os.remove] raises
    [IsADirectoryError] on it, and the clause ends there: it never looks at
    the audio path, so an audio file that was at [/tmp/.flac] is still there
    after the run, and the record of line 214 is not written. *)
Theorem C8_cleanup_stops_at_directory :
  reaches_pipeline Sample.configured Edge.folder
  /\ local_video_path (artifact_paths (name Edge.folder)) = "/tmp/"
  /\ local_audio_path (artifact_paths (name Edge.folder)) = "/tmp/.flac"
  /\ Edge.stale_audio !! "/tmp/.flac" = Some 512
  /\ calls (Posix.transcribe_video_from_gcs Edge.real_scratch Sample.configured
              Edge.folder Edge.stale_audio)
     = [Log INFO (ReceivedUploadEvent "videos/" "in");
        Log INFO (MimeType "video/mp4");
        Log INFO (Downloading "videos/" "in" "/tmp/");
        DownloadToFilename "in" "videos/" "/tmp/";
        Log ERROR (ErrorDuringProcess (IsADirectoryError "/tmp/"));
        PathExists "/tmp/";
        Remove "/tmp/"]
  /\ result (Posix.transcribe_video_from_gcs Edge.real_scratch Sample.configured
               Edge.folder Edge.stale_audio) = inl (IsADirectoryError "/tmp/")
  /\ disk (Posix.transcribe_video_from_gcs Edge.real_scratch Sample.configured
             Edge.folder Edge.stale_audio) !! "/tmp/.flac" = Some 512.
Proof.
  split; [repeat split|]. repeat split; reflexivity.
Qed.

(** * Further properties *)

(** ** Transcript reconstruction *)

(** X1.  The fallback of lines 145-148 never runs: whatever the response,
    lines 121-156 never write the falling-back record, at any level. *)
Theorem X1_fallback_never_runs (results : list SpeechRecognitionResult)
    (d : gmap string Z) (lvl : level) :
  ~ In (Log lvl FallingBackToFullTranscript)
       (calls (reconstruct_transcript results d)).
Proof.
  intros I. apply reconstruct_calls_shape in I.
  destruct I as [I|[[n I]|[(i & conf & I)|[I|[[n I]|[I|[h I]]]]]]];
    discriminate I.
Qed.

(** X2.  A response in which some result has no alternative makes what
    follows the recognition raise [IndexError]: nothing is uploaded, the LLM
    is not called, and the disk is left as it was. *)
Theorem X2_result_without_alternative (w : World) (out_bucket api_key : string)
    (paths : ArtifactPaths) (results : list SpeechRecognitionResult)
    (d : gmap string Z) :
  Exists (fun r => alternatives r = []) results ->
  result (process_response w out_bucket api_key paths results d) = inl IndexError
  /\ disk (process_response w out_bucket api_key paths results d) = d
  /\ Forall not_external
       (calls (process_response w out_bucket api_key paths results d)).
Proof.
  intros X.
  destruct (reconstruct_transcript_index_error results d X) as (cs & R & F).
  unfold process_response. rewrite (bind_exception _ _ _ _ _ _ R).
  cbn [result disk calls]. auto.
Qed.

Lemma X2_witness :
  Exists (fun r => alternatives r = []) More.truncated
  /\ result (process_response Sample.cooperative "out" "secret"
               (artifact_paths "clip1.mp4") More.truncated ∅) = inl IndexError.
Proof.
  assert (H : Exists (fun r => alternatives r = []) More.truncated)
    by (apply Exists_cons_tl, Exists_cons_hd; reflexivity).
  split; [exact H|].
  exact (proj1 (X2_result_without_alternative Sample.cooperative "out" "secret"
                  (artifact_paths "clip1.mp4") More.truncated ∅ H)).
Defined.

(** X3.  The transcript keeps neither the result boundaries nor the
    lower-ranked alternatives: two responses (every result with a top
    alternative) that have the same tagged words in scan order and the same
    transcripts of untagged results give the same transcript. *)
Theorem X3_transcript_ignores_grouping
    (results results' : list SpeechRecognitionResult) (d d' : gmap string Z) :
  Forall has_top_alternative results ->
  Forall has_top_alternative results' ->
  tagged_words results = tagged_words results' ->
  fallback_transcripts results = fallback_transcripts results' ->
  result (reconstruct_transcript results d)
  = result (reconstruct_transcript results' d').
Proof.
  intros H H' W T. rewrite !reconstruct_transcript_run by assumption.
  cbn [result]. unfold transcript_text, buckets. now rewrite W, T.
Qed.

Lemma X3_witness :
  Forall has_top_alternative Sample.two_groups
  /\ Forall has_top_alternative More.one_group
  /\ tagged_words Sample.two_groups = tagged_words More.one_group
  /\ fallback_transcripts Sample.two_groups = fallback_transcripts More.one_group
  /\ result (reconstruct_transcript Sample.two_groups ∅)
     = result (reconstruct_transcript More.one_group ∅).
Proof.
  assert (H1 : Forall has_top_alternative Sample.two_groups)
    by (repeat constructor; discriminate).
  assert (H2 : Forall has_top_alternative More.one_group)
    by (repeat constructor; discriminate).
  assert (H3 : tagged_words Sample.two_groups = tagged_words More.one_group)
    by reflexivity.
  assert (H4 : fallback_transcripts Sample.two_groups
               = fallback_transcripts More.one_group) by reflexivity.
  split; [exact H1|]. split; [exact H2|]. split; [exact H3|]. split; [exact H4|].
  exact (X3_transcript_ignores_grouping Sample.two_groups More.one_group ∅ ∅
           H1 H2 H3 H4).
Defined.

(** ** Path resolution *)

(** X4.  The directory part of an object name plays no role: a name with a
    directory prefix resolves to the same local paths and remote keys as its
    last component alone, so objects of the same file name in different
    folders share their artifacts. *)
Theorem X4_directory_ignored (dir b : string) :
  Str.mem OsPath.sep b = false ->
  artifact_paths (dir ++ "/" ++ b) = artifact_paths b.
Proof.
  intros H. unfold artifact_paths.
  now rewrite (basename_join dir b H), (basename_plain b H).
Qed.

Lemma X4_witness :
  Str.mem OsPath.sep "clip1.mp4" = false
  /\ artifact_paths ("calls/2024" ++ "/" ++ "clip1.mp4") = artifact_paths "clip1.mp4".
Proof.
  assert (H : Str.mem OsPath.sep "clip1.mp4" = false) by reflexivity.
  split; [exact H | exact (X4_directory_ignored "calls/2024" "clip1.mp4" H)].
Defined.

(** X5.  An object name that ends in the separator (a folder placeholder)
    resolves like the empty name: the base identifier is empty, the local
    video path is the scratch directory itself, and the remote keys are
    [audio/.flac], [transcripts/.txt] and [analysis/_analysis.txt]. *)
Theorem X5_trailing_separator (dir : string) :
  artifact_paths (dir ++ "/")
  = {| base_file_name := "";
       local_video_path := "/tmp/";
       local_audio_path := "/tmp/.flac";
       gcs_audio_path := "audio/.flac";
       gcs_transcript_path := "transcripts/.txt";
       gcs_analysis_path := "analysis/_analysis.txt" |}.
Proof.
  unfold artifact_paths.
  change (dir ++ "/") with (dir ++ "/" ++ "").
  now rewrite (basename_join dir "" eq_refl).
Qed.

(** X6.  A name made of a directory, a stem that does not begin with a dot,
    a dot and a dot-free extension is taken apart where it was put together:
    the base identifier is the stem, the local video file keeps stem and
    extension, and the audio file and the three keys are built on the stem
    alone, whatever the directory and the extension. *)
Theorem X6_stem_and_extension (dir : string) (a : ascii) (s e : string) :
  a <> OsPath.extsep ->
  Str.mem OsPath.sep (String a s) = false ->
  Str.mem OsPath.sep e = false ->
  Str.mem OsPath.extsep e = false ->
  artifact_paths (dir ++ "/" ++ String a s ++ "." ++ e)
  = {| base_file_name := String a s;
       local_video_path := "/tmp/" ++ String a s ++ "." ++ e;
       local_audio_path := "/tmp/" ++ String a s ++ ".flac";
       gcs_audio_path := "audio/" ++ String a s ++ ".flac";
       gcs_transcript_path := "transcripts/" ++ String a s ++ ".txt";
       gcs_analysis_path := "analysis/" ++ String a s ++ "_analysis.txt" |}
  /\ artifact_paths (String a s ++ "." ++ e)
     = artifact_paths (dir ++ "/" ++ String a s ++ "." ++ e).
Proof.
  intros Ha Hs He Hd.
  assert (Hb : Str.mem OsPath.sep (String a s ++ "." ++ e) = false)
    by (rewrite !mem_app, Hs, He; reflexivity).
  split;
    [|unfold artifact_paths;
      now rewrite (basename_join dir _ Hb), (basename_plain _ Hb)].
  unfold artifact_paths.
  rewrite (basename_join dir _ Hb), (splitext_join a s e Ha Hs He Hd).
  cbn [fst]. rewrite (join_temp_dir _ Hb).
  rewrite join_temp_dir by (rewrite mem_app, Hs; reflexivity).
  reflexivity.
Qed.

Lemma X6_witness :
  "c"%char <> OsPath.extsep
  /\ Str.mem OsPath.sep "clip1" = false
  /\ Str.mem OsPath.sep "mp4" = false
  /\ Str.mem OsPath.extsep "mp4" = false
  /\ base_file_name (artifact_paths ("calls/2024" ++ "/" ++ "clip1" ++ "." ++ "mp4"))
     = "clip1".
Proof.
  assert (H1 : "c"%char <> OsPath.extsep) by discriminate.
  assert (H2 : Str.mem OsPath.sep "clip1" = false) by reflexivity.
  assert (H3 : Str.mem OsPath.sep "mp4" = false) by reflexivity.
  assert (H4 : Str.mem OsPath.extsep "mp4" = false) by reflexivity.
  split; [exact H1|]. split; [exact H2|]. split; [exact H3|]. split; [exact H4|].
  exact (f_equal base_file_name
           (proj1 (X6_stem_and_extension "calls/2024" "c" "lip1" "mp4"
                     H1 H2 H3 H4))).
Defined.

(** X7.  A file name that is one dot followed by dot-free characters has no
    extension for [os.path.splitext]: it is the base identifier as a whole,
    so that an object named [.mp4] gets the audio key [audio/.mp4.flac]. *)
Theorem X7_leading_dot_kept (dir e : string) :
  Str.mem OsPath.sep e = false ->
  Str.mem OsPath.extsep e = false ->
  base_file_name (artifact_paths (dir ++ "/" ++ "." ++ e)) = "." ++ e
  /\ base_file_name (artifact_paths ("." ++ e)) = "." ++ e
  /\ gcs_audio_path (artifact_paths ("." ++ e)) = "audio/." ++ e ++ ".flac".
Proof.
  intros He Hd.
  assert (Hb : Str.mem OsPath.sep ("." ++ e) = false)
    by (rewrite mem_app, He; reflexivity).
  unfold artifact_paths. cbn [base_file_name gcs_audio_path].
  rewrite (basename_join dir _ Hb), (basename_plain _ Hb).
  rewrite (splitext_dotfile e He Hd). repeat split.
Qed.

Lemma X7_witness :
  Str.mem OsPath.sep "mp4" = false
  /\ Str.mem OsPath.extsep "mp4" = false
  /\ gcs_audio_path (artifact_paths ("." ++ "mp4")) = "audio/." ++ "mp4" ++ ".flac".
Proof.
  assert (H1 : Str.mem OsPath.sep "mp4" = false) by reflexivity.
  assert (H2 : Str.mem OsPath.extsep "mp4" = false) by reflexivity.
  split; [exact H1|]. split; [exact H2|].
  exact (proj2 (proj2 (X7_leading_dot_kept "" "mp4" H1 H2))).
Defined.

(** X8.  The local audio path is the local video path exactly when the
    extension of the object name is [.flac]: for such an upload the
    transcoder is given the same file to read and to write. *)
Theorem X8_audio_path_is_video_path (file_name : string) :
  local_video_path (artifact_paths file_name)
  = local_audio_path (artifact_paths file_name)
  <-> snd (OsPath.splitext (OsPath.basename file_name)) = ".flac".
Proof.
  destruct (basename_split file_name) as (dir & _ & _ & Hsep).
  destruct (splitext_split (OsPath.basename file_name)) as [Hext _].
  unfold artifact_paths. cbn [local_video_path local_audio_path].
  rewrite (join_temp_dir _ Hsep).
  rewrite join_temp_dir
    by (rewrite mem_app, (splitext_no_sep _ Hsep); reflexivity).
  rewrite Hext at 1. split.
  - intros E. apply (inj (String.app "/tmp/")) in E.
    now apply (inj (String.app _)) in E.
  - now intros ->.
Qed.

(** ** The stages *)

(** X9.  When every collaborator answers (the download leaves the video, the
    transcoder leaves the audio, the recognition service, the LLM and the
    three uploads go through) and every result of the recognition response
    has a top alternative, an event that passes the guards runs to a normal
    return with exactly seven collaborator calls, in this order: the
    download, the transcoder, the audio upload, the recognition request on
    the uploaded audio, the upload of the reconstructed transcript as plain
    text, the LLM request with the instructions followed by that transcript,
    and the upload of the LLM's answer, unchanged, as plain text.  Both
    scratch files are gone afterwards. *)
Theorem X9_complete_run (w : World) (environ : gmap string string)
    (data : UploadEvent) (d after : gmap string Z)
    (results : list SpeechRecognitionResult) (analysis_content : string) :
  reaches_pipeline environ data ->
  collaborators_succeed w environ data d after results analysis_content ->
  result (transcribe_video_from_gcs w environ data d) = inr tt
  /\ List.filter is_external (calls (transcribe_video_from_gcs w environ data d))
     = [DownloadToFilename (bucket data) (name data)
          (local_video_path (artifact_paths (name data)));
        SubprocessRun (ffmpeg_command (artifact_paths (name data)));
        UploadFromFilename (output_bucket environ)
          (gcs_audio_path (artifact_paths (name data)))
          (local_audio_path (artifact_paths (name data)));
        LongRunningRecognize recognition_config
          ("gs://" ++ output_bucket environ ++ "/"
             ++ gcs_audio_path (artifact_paths (name data))) 600;
        UploadFromString (output_bucket environ)
          (gcs_transcript_path (artifact_paths (name data)))
          (transcript_text results) "text/plain";
        GenerateContent (default "" (environ !! "GEMINI_API_KEY"))
          "gemini-2.5-pro"
          (analysis_instructions ++ Str.nl ++ Str.nl ++ "Transcript:" ++ Str.nl
             ++ transcript_text results);
        UploadFromString (output_bucket environ)
          (gcs_analysis_path (artifact_paths (name data)))
          analysis_content "text/plain"]
  /\ disk (transcribe_video_from_gcs w environ data d)
     = delete (local_audio_path (artifact_paths (name data)))
         (delete (local_video_path (artifact_paths (name data))) after).
Proof.
  intros Hreach Hok.
  destruct (stage_sequence_run w environ data d after results analysis_content Hok)
    as (video_size & audio_size & out_text & err_text & E).
  rewrite (run_reaching_pipeline w environ data d Hreach).
  rewrite stages_from_sequence, E. cbn [result disk calls].
  split; [reflexivity|]. split; [|reflexivity].
  rewrite !List.filter_app.
  rewrite (filter_nothing _ _ (reconstruct_log_quiet results)).
  rewrite (filter_nothing _ _ (cleanup_calls_quiet _ _)).
  unfold analyze_calls, transcode_calls. rewrite !List.filter_app.
  rewrite (filter_nothing _ _ (prompt_log_quiet _)).
  destruct (audio_size =? 0); reflexivity.
Qed.

Lemma X9_witness :
  reaches_pipeline Sample.configured Sample.clip1
  /\ collaborators_succeed Sample.cooperative Sample.configured Sample.clip1 ∅
       (<["/tmp/clip1.flac" := 512]> (<["/tmp/clip1.mp4" := 1024]> ∅))
       Sample.two_groups "analysis"
  /\ result (transcribe_video_from_gcs Sample.cooperative Sample.configured
               Sample.clip1 ∅) = inr tt.
Proof.
  assert (H1 : reaches_pipeline Sample.configured Sample.clip1) by (repeat split).
  assert (H2 : collaborators_succeed Sample.cooperative Sample.configured
                 Sample.clip1 ∅
                 (<["/tmp/clip1.flac" := 512]> (<["/tmp/clip1.mp4" := 1024]> ∅))
                 Sample.two_groups "analysis").
  { exists (<["/tmp/clip1.mp4" := 1024]> ∅), 1024, 512, "", "".
    repeat split; try reflexivity. repeat constructor; discriminate. }
  split; [exact H1|]. split; [exact H2|].
  exact (proj1 (X9_complete_run Sample.cooperative Sample.configured Sample.clip1
                  ∅ _ Sample.two_groups "analysis" H1 H2)).
Defined.

(** X10.  For an object name that ends in a file name, an exception of a
    stage other than [CalledProcessError] reaches the caller unchanged, also
    on a disk with the scratch directory: the run writes one ERROR record
    for it after the calls of the stages, runs the whole cleanup, and raises
    the same exception. *)
Theorem X10_exception_raised_again (w : World) (environ : gmap string string)
    (data : UploadEvent) (d : gmap string Z) (e : exn) :
  reaches_pipeline environ data ->
  has_file_name data ->
  result (stage_sequence w environ data d) = inl e ->
  (forall stderr, e <> CalledProcessError stderr) ->
  result (Posix.transcribe_video_from_gcs w environ data d) = inl e
  /\ calls (Posix.transcribe_video_from_gcs w environ data d)
     = (opening_log data
          ++ calls (stage_sequence w environ data d)
          ++ [Log ERROR (ErrorDuringProcess e)]
          ++ cleanup_calls (artifact_paths (name data))
               (disk (stage_sequence w environ data d)))%list.
Proof.
  intros Hreach Hname He Hne.
  rewrite (posix_run w environ data Hname).
  rewrite (run_reaching_pipeline w environ data d Hreach).
  rewrite stages_from_sequence, He. cbn [result calls].
  destruct e; cbn [result disk calls];
    try (split; [reflexivity | now rewrite <- !List.app_assoc]).
  now destruct (Hne stderr).
Qed.

Lemma X10_witness :
  reaches_pipeline Sample.configured Sample.clip1
  /\ has_file_name Sample.clip1
  /\ result (stage_sequence More.missing_object Sample.configured Sample.clip1 ∅)
     = inl (CollaboratorError "NotFound")
  /\ (forall stderr, CollaboratorError "NotFound" <> CalledProcessError stderr)
  /\ result (Posix.transcribe_video_from_gcs More.missing_object Sample.configured
               Sample.clip1 ∅) = inl (CollaboratorError "NotFound").
Proof.
  assert (H1 : reaches_pipeline Sample.configured Sample.clip1) by (repeat split).
  assert (H0 : has_file_name Sample.clip1) by (repeat split; discriminate).
  assert (H2 : result (stage_sequence More.missing_object Sample.configured
                         Sample.clip1 ∅) = inl (CollaboratorError "NotFound"))
    by reflexivity.
  assert (H3 : forall stderr,
             CollaboratorError "NotFound" <> CalledProcessError stderr)
    by discriminate.
  split; [exact H1|]. split; [exact H0|]. split; [exact H2|]. split; [exact H3|].
  exact (proj1 (X10_exception_raised_again More.missing_object Sample.configured
                  Sample.clip1 ∅ _ H1 H0 H2 H3)).
Defined.

(** X11.  When the transcoder exits with a non-zero status, the run ends in
    [AttributeError], not in [CalledProcessError]: the inner handler of line
    89 writes the ERROR record with the captured stderr, the outer handler of
    line 204 fails on [e.stderr.decode()] before it writes its own.  Nothing
    is uploaded, no recognition or LLM request is made, and the cleanup runs
    on the disk the transcoder left. *)
Theorem X11_transcoder_failure (w : World) (environ : gmap string string)
    (data : UploadEvent) (d downloaded after : gmap string Z) (size : Z)
    (err_text : string) :
  reaches_pipeline environ data ->
  download_to_filename w (bucket data) (name data)
    (local_video_path (artifact_paths (name data))) d = (inr tt, downloaded) ->
  downloaded !! local_video_path (artifact_paths (name data)) = Some size ->
  subprocess_run w (ffmpeg_command (artifact_paths (name data))) downloaded
    = (inl (CalledProcessError err_text), after) ->
  result (transcribe_video_from_gcs w environ data d) = inl AttributeError
  /\ calls (transcribe_video_from_gcs w environ data d)
     = (opening_log data
          ++ download_calls (bucket data) (name data)
               (artifact_paths (name data)) size
          ++ [Log INFO (ExecutingFFmpeg
                          (Str.join " " (ffmpeg_command (artifact_paths (name data)))));
              SubprocessRun (ffmpeg_command (artifact_paths (name data)));
              Log ERROR (FFmpegFailed err_text)]
          ++ cleanup_calls (artifact_paths (name data)) after)%list.
Proof.
  intros Hreach Hd Hv Ht.
  assert (E : stage_sequence w environ data d
              = Outcome (inl (CalledProcessError err_text)) after
                  (download_calls (bucket data) (name data)
                     (artifact_paths (name data)) size
                   ++ [Log INFO (ExecutingFFmpeg
                                   (Str.join " "
                                      (ffmpeg_command (artifact_paths (name data)))));
                       SubprocessRun (ffmpeg_command (artifact_paths (name data)));
                       Log ERROR (FFmpegFailed err_text)])).
  { unfold stage_sequence, pipeline.
    run_with (download_video_run w _ _ _ _ _ _ Hd Hv).
    rewrite (bind_exception _ _ _ _ _ _ (extract_audio_failed w _ _ _ _ Ht)).
    reflexivity. }
  rewrite (run_reaching_pipeline w environ data d Hreach).
  rewrite stages_from_sequence, E. cbn [result disk calls].
  split; [reflexivity|]. now rewrite <- !List.app_assoc.
Qed.

Lemma X11_witness :
  reaches_pipeline Sample.configured Sample.clip1
  /\ result (transcribe_video_from_gcs Sample.broken_transcoder Sample.configured
               Sample.clip1 ∅) = inl AttributeError.
Proof.
  assert (H1 : reaches_pipeline Sample.configured Sample.clip1) by (repeat split).
  split; [exact H1|].
  exact (proj1 (X11_transcoder_failure Sample.broken_transcoder Sample.configured
                  Sample.clip1 ∅ (<["/tmp/clip1.mp4" := 1024]> ∅)
                  (<["/tmp/clip1.mp4" := 1024]> ∅) 1024 "no audio stream"
                  H1 eq_refl eq_refl eq_refl)).
Defined.

(** X12.  An empty audio file is not fatal: when the transcoder exits with
    zero and leaves a file of zero bytes, the run writes the WARNING of line
    88 and goes on to upload that file. *)
Theorem X12_empty_audio_is_uploaded (w : World) (environ : gmap string string)
    (data : UploadEvent) (d downloaded after : gmap string Z) (size : Z)
    (out_text err_text : string) :
  reaches_pipeline environ data ->
  download_to_filename w (bucket data) (name data)
    (local_video_path (artifact_paths (name data))) d = (inr tt, downloaded) ->
  downloaded !! local_video_path (artifact_paths (name data)) = Some size ->
  subprocess_run w (ffmpeg_command (artifact_paths (name data))) downloaded
    = (inr (out_text, err_text), after) ->
  after !! local_audio_path (artifact_paths (name data)) = Some 0 ->
  exists before rest,
    calls (transcribe_video_from_gcs w environ data d)
    = (before
         ++ [Log WARNING EmptyAudioFile;
             UploadFromFilename (output_bucket environ)
               (gcs_audio_path (artifact_paths (name data)))
               (local_audio_path (artifact_paths (name data)))]
         ++ rest)%list
    /\ Forall (fun c => is_storage_write c = false) before.
Proof.
  intros Hreach Hd Hv Ht Ha.
  rewrite (run_reaching_pipeline w environ data d Hreach). cbn [calls].
  destruct (stages_calls_begin w environ data d) as [extra ->].
  unfold stage_sequence, pipeline.
  run_with (download_video_run w _ _ _ _ _ _ Hd Hv).
  run_with (extract_audio_run w _ _ _ _ _ _ Ht Ha).
  assert (U : starts_with
                [UploadFromFilename (output_bucket environ)
                   (gcs_audio_path (artifact_paths (name data)))
                   (local_audio_path (artifact_paths (name data)))]
                (upload_audio w (output_bucket environ) (artifact_paths (name data)))).
  { unfold upload_audio. apply starts_with_bind. unfold call_ro.
    apply starts_with_emit, starts_with_nil. }
  eapply starts_with_bind in U. destruct (U after) as [rest ->].
  exists (opening_log data
            ++ download_calls (bucket data) (name data)
                 (artifact_paths (name data)) size
            ++ [Log INFO (ExecutingFFmpeg
                            (Str.join " "
                               (ffmpeg_command (artifact_paths (name data)))));
                SubprocessRun (ffmpeg_command (artifact_paths (name data)));
                Log INFO (FFmpegStdout out_text);
                Log INFO (FFmpegStderr err_text);
                Getsize (local_audio_path (artifact_paths (name data)));
                Log INFO (ExtractedAudio
                            (local_audio_path (artifact_paths (name data))) 0);
                Getsize (local_audio_path (artifact_paths (name data)))])%list,
         (rest ++ extra
            ++ cleanup_calls (artifact_paths (name data))
                 (disk (stages w environ data d)))%list.
  split.
  - change (0 =? 0) with true. cbv iota. unfold download_calls.
    rewrite <- !List.app_assoc. reflexivity.
  - repeat constructor.
Qed.

Lemma X12_witness :
  reaches_pipeline Sample.configured Sample.clip1
  /\ exists before rest,
       calls (transcribe_video_from_gcs More.mute Sample.configured Sample.clip1 ∅)
       = (before
            ++ [Log WARNING EmptyAudioFile;
                UploadFromFilename "out" "audio/clip1.flac" "/tmp/clip1.flac"]
            ++ rest)%list
       /\ Forall (fun c => is_storage_write c = false) before.
Proof.
  assert (H1 : reaches_pipeline Sample.configured Sample.clip1) by (repeat split).
  split; [exact H1|].
  exact (X12_empty_audio_is_uploaded More.mute Sample.configured Sample.clip1 ∅
           (<["/tmp/clip1.mp4" := 1024]> ∅)
           (<["/tmp/clip1.flac" := 0]> (<["/tmp/clip1.mp4" := 1024]> ∅))
           1024 "" "" H1 eq_refl eq_refl eq_refl eq_refl).
Defined.

(** ** The analysis request *)

(** X13.  The prompt is the instruction template, a blank line, the heading
    [Transcript:] and the transcript: 1061 characters more than the
    transcript.  It is sent whole whatever its length.  The test of line 185
    for a prompt shorter than 500 characters never holds, so the prompt is
    logged, and the warning of line 188 written, exactly when the transcript
    is longer than 8939 characters. *)
Theorem X13_prompt_is_never_cut (w : World) (api_key transcript_content : string)
    (d : gmap string Z) :
  Str.len (prompt_for transcript_content) = 1061 + Str.len transcript_content
  /\ In (GenerateContent api_key "gemini-2.5-pro"
           (analysis_instructions ++ Str.nl ++ Str.nl ++ "Transcript:" ++ Str.nl
              ++ transcript_content))
        (calls (analyze w api_key transcript_content d))
  /\ (In (Log WARNING PromptVeryLong)
         (calls (analyze w api_key transcript_content d))
      <-> 8939 < Str.len transcript_content)
  /\ ((exists head, In (Log INFO (FullPrompt head))
                       (calls (analyze w api_key transcript_content d)))
      <-> 8939 < Str.len transcript_content).
Proof.
  split; [apply prompt_len|].
  assert (Hlong : (10000 <? Str.len (prompt_for transcript_content)) = true
                  <-> 8939 < Str.len transcript_content)
    by (rewrite Z.ltb_lt, prompt_len; lia).
  assert (Hcalls : exists after,
            calls (analyze w api_key transcript_content d)
            = (prompt_log transcript_content
                 ++ GenerateContent api_key "gemini-2.5-pro"
                      (prompt_for transcript_content) :: after)%list
            /\ Forall (fun c => exists msg, c = Log INFO msg
                                            /\ msg <> PromptVeryLong
                                            /\ forall h, msg <> FullPrompt h) after).
  { rewrite analyze_run.
    destruct (generate_content w api_key "gemini-2.5-pro"
                (prompt_for transcript_content)) as [e|a]; cbn [calls].
    - exists []. split; [reflexivity | constructor].
    - exists (analysis_log a). split; [reflexivity|].
      repeat constructor; eexists; (split; [reflexivity|]); split; discriminate. }
  destruct Hcalls as (after & -> & Fa).
  rewrite List.Forall_forall in Fa.
  split; [apply in_or_app; right; now left|].
  rewrite <- Hlong. unfold prompt_log.
  destruct (10000 <? Str.len (prompt_for transcript_content)); split.
  - split; [reflexivity|]. intros _. apply in_or_app. left. cbn. auto.
  - split; [reflexivity|]. intros _. eexists. apply in_or_app. left. cbn. eauto.
  - split; [|discriminate]. intros I. exfalso.
    apply in_app_or in I as [I|[I|I]].
    + cbn in I. destruct I as [I|[I|[]]]; discriminate I.
    + discriminate I.
    + destruct (Fa _ I) as (msg & E & N & _). injection E as _ <-. now apply N.
  - split; [|discriminate]. intros [h I]. exfalso.
    apply in_app_or in I as [I|[I|I]].
    + cbn in I. destruct I as [I|[I|[]]]; discriminate I.
    + discriminate I.
    + destruct (Fa _ I) as (msg & E & _ & N). injection E as <-. now apply (N h).
Qed.

(** ** Order and frame *)

(** X14.  Whatever the collaborators answer, the collaborator calls of a run
    are the first calls of one fixed sequence, each addressed as the source
    addresses it: download, transcoder, audio upload, recognition, transcript
    upload, LLM request, analysis upload.  No stage is called twice, skipped
    or called after a later one.  A run that passes the guards and returns
    made all seven; a run that the guards stop made none. *)
Theorem X14_calls_follow_the_plan (w : World) (environ : gmap string string)
    (data : UploadEvent) (d : gmap string Z) :
  exists done,
    stages_of (stage_of (bucket data) (name data) (output_bucket environ)
                 (default "" (environ !! "GEMINI_API_KEY"))
                 (artifact_paths (name data)))
      (calls (transcribe_video_from_gcs w environ data d))
    = map Some done
    /\ done `prefix_of` all_stages
    /\ (reaches_pipeline environ data ->
        result (transcribe_video_from_gcs w environ data d) = inr tt ->
        done = all_stages)
    /\ (~ reaches_pipeline environ data -> done = []).
Proof.
  destruct (credential_present_or_absent environ) as [K|K].
  - destruct (decide (bucket data = input_bucket environ)) as [B|B].
    + destruct (Str.startswith "video/" (contentType data)) eqn:V.
      * assert (Hreach : reaches_pipeline environ data) by (now repeat split).
        rewrite (run_reaching_pipeline w environ data d Hreach).
        cbn [result calls].
        destruct (try_pipeline_plan w (bucket data) (name data)
                    (output_bucket environ)
                    (default "" (environ !! "GEMINI_API_KEY"))
                    (artifact_paths (name data))
                    (artifact_keys_distinct (name data)) d)
          as (done & E & P & S).
        exists done. fold (stages w environ data d) in E, S.
        rewrite !stages_of_app, E.
        rewrite (stages_of_quiet _ _ (cleanup_calls_quiet _ _)).
        rewrite List.app_nil_r.
        split; [reflexivity|]. split; [exact P|].
        split; [intros _; apply S | intros N; contradiction].
      * assert (N : ~ is_video data)
          by (unfold is_video; rewrite V; discriminate).
        rewrite (run_not_video w environ data d K B N).
        exists []. split; [reflexivity|]. split; [apply prefix_nil|].
        split; [|reflexivity]. intros (_ & _ & Hv). contradiction.
    + rewrite (run_other_bucket w environ data d K B).
      exists []. split; [reflexivity|]. split; [apply prefix_nil|].
      split; [|reflexivity]. intros (_ & Hb & _). contradiction.
  - rewrite (run_without_credential w environ data d K).
    exists []. split; [reflexivity|]. split; [apply prefix_nil|].
    split; [|reflexivity]. intros _ R. discriminate R.
Qed.

Lemma X14_witness :
  reaches_pipeline Sample.configured Sample.clip1
  /\ result (transcribe_video_from_gcs Sample.cooperative Sample.configured
               Sample.clip1 ∅) = inr tt
  /\ stages_of (stage_of "in" "clip1.mp4" (output_bucket Sample.configured)
                  (default "" (Sample.configured !! "GEMINI_API_KEY"))
                  (artifact_paths "clip1.mp4"))
       (calls (transcribe_video_from_gcs Sample.cooperative Sample.configured
                 Sample.clip1 ∅))
     = map Some all_stages.
Proof.
  assert (H1 : reaches_pipeline Sample.configured Sample.clip1) by (repeat split).
  assert (H2 : result (transcribe_video_from_gcs Sample.cooperative
                         Sample.configured Sample.clip1 ∅) = inr tt)
    by reflexivity.
  split; [exact H1|]. split; [exact H2|].
  destruct (X14_calls_follow_the_plan Sample.cooperative Sample.configured
              Sample.clip1 ∅) as (done & E & _ & S & _).
  rewrite <- (S H1 H2). exact E.
Defined.

(** X15.  The run touches no local file but its two scratch files: a path
    other than the local video path and the local audio path, which the
    download and the transcoder leave alone, holds after the run what it held
    before, whether the run returns, is stopped by a guard or fails at any
    stage. *)
Theorem X15_other_files_untouched (w : World) (environ : gmap string string)
    (data : UploadEvent) (path : string) (d : gmap string Z) :
  path <> local_video_path (artifact_paths (name data)) ->
  path <> local_audio_path (artifact_paths (name data)) ->
  (forall d', snd (download_to_filename w (bucket data) (name data)
                     (local_video_path (artifact_paths (name data))) d') !! path
              = d' !! path) ->
  (forall d', snd (subprocess_run w (ffmpeg_command (artifact_paths (name data)))
                     d') !! path
              = d' !! path) ->
  disk (transcribe_video_from_gcs w environ data d) !! path = d !! path.
Proof.
  intros Nv Na Hd Ht. revert d.
  change (preserves path (transcribe_video_from_gcs w environ data)).
  unfold transcribe_video_from_gcs. cbv zeta.
  apply preserves_bind; [preserves_steps|]. intros _.
  apply preserves_bind; [preserves_steps|]. intros _.
  destruct (key_missing _); [preserves_steps|].
  destruct (negb (String.eqb _ _)); [preserves_steps|].
  destruct (negb (Str.startswith _ _)); [preserves_steps|].
  now apply guarded_pipeline_preserves.
Qed.

Lemma X15_witness :
  "/tmp/keep.dat" <> local_video_path (artifact_paths (name Sample.clip1))
  /\ "/tmp/keep.dat" <> local_audio_path (artifact_paths (name Sample.clip1))
  /\ disk (transcribe_video_from_gcs Sample.cooperative Sample.configured
             Sample.clip1 {[ "/tmp/keep.dat" := 7 ]}) !! "/tmp/keep.dat"
     = ({[ "/tmp/keep.dat" := 7 ]} : gmap string Z) !! "/tmp/keep.dat".
Proof.
  assert (H1 : "/tmp/keep.dat"
               <> local_video_path (artifact_paths (name Sample.clip1)))
    by (vm_compute; discriminate).
  assert (H2 : "/tmp/keep.dat"
               <> local_audio_path (artifact_paths (name Sample.clip1)))
    by (vm_compute; discriminate).
  split; [exact H1|]. split; [exact H2|].
  apply (X15_other_files_untouched Sample.cooperative Sample.configured
           Sample.clip1 "/tmp/keep.dat" _ H1 H2).
  - intros d'. apply lookup_insert_ne. vm_compute. discriminate.
  - intros d'. apply lookup_insert_ne. vm_compute. discriminate.
Defined.

(** ** Configuration *)

(** X16.  Only the credential is checked: a missing bucket setting is
    replaced by its placeholder.  Without [INPUT_VIDEO_BUCKET] an event from
    any bucket other than [your-input-video-bucket] is skipped with the
    warning of line 47, and without [TRANSCRIPTION_OUTPUT_BUCKET] every
    upload of the run goes to [your-transcription-output-bucket]. *)
Theorem X16_placeholder_buckets (w : World) (environ : gmap string string)
    (data : UploadEvent) (d : gmap string Z) :
  (environ !! "INPUT_VIDEO_BUCKET" = None ->
   credential_present environ ->
   bucket data <> "your-input-video-bucket" ->
   transcribe_video_from_gcs w environ data d
   = Outcome (inr tt) d
       (opening_log data
          ++ [Log WARNING (IgnoringUnexpectedBucket (bucket data)
                             "your-input-video-bucket")]))
  /\ (environ !! "TRANSCRIPTION_OUTPUT_BUCKET" = None ->
      (forall b key filename,
         In (UploadFromFilename b key filename)
            (calls (transcribe_video_from_gcs w environ data d)) ->
         b = "your-transcription-output-bucket")
      /\ (forall b key content content_type,
            In (UploadFromString b key content content_type)
               (calls (transcribe_video_from_gcs w environ data d)) ->
            b = "your-transcription-output-bucket")).
Proof.
  split.
  - intros Hin K B.
    assert (E : input_bucket environ = "your-input-video-bucket")
      by (unfold input_bucket, environ_get; now rewrite Hin).
    rewrite <- E in B. rewrite (run_other_bucket w environ data d K B).
    now rewrite E.
  - intros Hout.
    assert (E : output_bucket environ = "your-transcription-output-bucket")
      by (unfold output_bucket, environ_get; now rewrite Hout).
    split.
    + intros b key filename I.
      destruct (external_calls_addressed w environ data d _ I eq_refl) as [s Hs].
      cbn [stage_of] in Hs. case_bool_decide as C; [|discriminate Hs].
      destruct C as (-> & _). exact E.
    + intros b key content content_type I.
      destruct (external_calls_addressed w environ data d _ I eq_refl) as [s Hs].
      cbn [stage_of] in Hs. case_bool_decide as C.
      * destruct C as (-> & _). exact E.
      * case_bool_decide as C'; [|discriminate Hs].
        destruct C' as (-> & _). exact E.
Qed.

Lemma X16_witness :
  ({[ "GEMINI_API_KEY" := "secret" ]} : gmap string string)
    !! "INPUT_VIDEO_BUCKET" = None
  /\ credential_present {[ "GEMINI_API_KEY" := "secret" ]}
  /\ bucket Sample.clip1 <> "your-input-video-bucket"
  /\ result (transcribe_video_from_gcs Sample.cooperative
               {[ "GEMINI_API_KEY" := "secret" ]} Sample.clip1 ∅) = inr tt.
Proof.
  assert (H1 : ({[ "GEMINI_API_KEY" := "secret" ]} : gmap string string)
               !! "INPUT_VIDEO_BUCKET" = None) by reflexivity.
  assert (H2 : credential_present {[ "GEMINI_API_KEY" := "secret" ]})
    by reflexivity.
  assert (H3 : bucket Sample.clip1 <> "your-input-video-bucket") by discriminate.
  split; [exact H1|]. split; [exact H2|]. split; [exact H3|].
  exact (f_equal result
           (proj1 (X16_placeholder_buckets Sample.cooperative
                     {[ "GEMINI_API_KEY" := "secret" ]} Sample.clip1 ∅)
              H1 H2 H3)).
Defined.

(** ** Cleanup *)

(** X17.  For an object name that ends in a file name, on a disk with the
    scratch directory, an event that passes the guards is cleaned up after
    whatever the collaborators do (every stage succeeding, or any of them
    raising): the run is its opening records and the calls of the stages,
    none of them a cleanup call, followed by one pass of the [finally]
    clause on the disk the stages leave, which looks for the local video
    file and for the local audio file and removes each that is there.  After
    the run neither path is on the disk, and the run signals what the stages
    signalled. *)
Theorem X17_cleanup_with_file_name (w : World) (environ : gmap string string)
    (data : UploadEvent) (d : gmap string Z) :
  reaches_pipeline environ data ->
  has_file_name data ->
  calls (Posix.transcribe_video_from_gcs w environ data d)
    = ((opening_log data ++ calls (stages w environ data d))
         ++ cleanup_calls (artifact_paths (name data))
              (disk (stages w environ data d)))%list
  /\ Forall not_cleanup (opening_log data ++ calls (stages w environ data d))
  /\ Forall (fun c => is_cleanup_call c = true)
            (cleanup_calls (artifact_paths (name data))
               (disk (stages w environ data d)))
  /\ disk (Posix.transcribe_video_from_gcs w environ data d)
     = delete (local_audio_path (artifact_paths (name data)))
         (delete (local_video_path (artifact_paths (name data)))
            (disk (stages w environ data d)))
  /\ disk (Posix.transcribe_video_from_gcs w environ data d)
       !! local_video_path (artifact_paths (name data)) = None
  /\ disk (Posix.transcribe_video_from_gcs w environ data d)
       !! local_audio_path (artifact_paths (name data)) = None
  /\ Posix.is_directory (local_video_path (artifact_paths (name data))) = false
  /\ Posix.is_directory (local_audio_path (artifact_paths (name data))) = false
  /\ result (Posix.transcribe_video_from_gcs w environ data d)
     = result (stages w environ data d).
Proof.
  intros H N. rewrite (posix_run w environ data N).
  rewrite (run_reaching_pipeline w environ data d H).
  cbn [disk calls result].
  split; [now rewrite <- List.app_assoc|].
  split; [apply Forall_app; split;
          [repeat constructor | apply stages_not_cleanup]|].
  split; [apply cleanup_calls_own|].
  split; [reflexivity|].
  split; [|split; [apply lookup_delete_eq|]].
  - destruct (decide (local_audio_path (artifact_paths (name data))
                      = local_video_path (artifact_paths (name data)))) as [E|E].
    + rewrite E. apply lookup_delete_eq.
    + rewrite lookup_delete_ne by exact E. apply lookup_delete_eq.
  - split; [exact (video_path_no_directory data N)|].
    split; [apply audio_path_no_directory | reflexivity].
Qed.

Lemma X17_witness :
  reaches_pipeline Sample.configured Sample.clip1
  /\ has_file_name Sample.clip1
  /\ disk (Posix.transcribe_video_from_gcs Sample.broken_transcoder
             Sample.configured Sample.clip1 ∅) !! "/tmp/clip1.mp4" = None
  /\ disk (Posix.transcribe_video_from_gcs Sample.broken_transcoder
             Sample.configured Sample.clip1 ∅) !! "/tmp/clip1.flac" = None
  /\ result (Posix.transcribe_video_from_gcs Sample.broken_transcoder
               Sample.configured Sample.clip1 ∅) = inl AttributeError.
Proof.
  assert (H : reaches_pipeline Sample.configured Sample.clip1) by (repeat split).
  assert (N : has_file_name Sample.clip1) by (repeat split; discriminate).
  pose proof (X17_cleanup_with_file_name Sample.broken_transcoder
                Sample.configured Sample.clip1 ∅ H N)
    as (_ & _ & _ & _ & V & A & _ & _ & R).
  split; [exact H|]. split; [exact N|]. split; [exact V|]. split; [exact A|].
  rewrite R. reflexivity.
Defined.

(** X18.  For an object name without a file name (empty, ending in the
    separator, or ending in the component [.] or [..]) the local video path
    is the scratch directory or its parent, and the cleanup does not get
    through: whatever the collaborators do, the [finally] clause finds that
    the path exists, [os.remove] raises [IsADirectoryError] on it, and the
    run ends with that exception in place of what the stages signalled.  The
    clause never looks at the local audio path, and the disk is left as the
    stages left it. *)
Theorem X18_cleanup_raises_without_file_name (w : World)
    (environ : gmap string string) (data : UploadEvent) (d : gmap string Z) :
  reaches_pipeline environ data ->
  ~ has_file_name data ->
  Posix.is_directory (local_video_path (artifact_paths (name data))) = true
  /\ result (Posix.transcribe_video_from_gcs w environ data d)
     = inl (IsADirectoryError (local_video_path (artifact_paths (name data))))
  /\ calls (Posix.transcribe_video_from_gcs w environ data d)
     = (opening_log data
          ++ calls (stages w environ data d)
          ++ [PathExists (local_video_path (artifact_paths (name data)));
              Remove (local_video_path (artifact_paths (name data)))])%list
  /\ ~ In (PathExists (local_audio_path (artifact_paths (name data))))
          (calls (Posix.transcribe_video_from_gcs w environ data d))
  /\ disk (Posix.transcribe_video_from_gcs w environ data d)
     = disk (stages w environ data d).
Proof.
  intros H N. rewrite (posix_run_without_file_name w environ data d H N).
  cbn [result disk calls].
  split; [exact (video_path_directory data N)|].
  split; [reflexivity|]. split; [reflexivity|]. split; [|reflexivity].
  rewrite !in_app_iff. intros [I|[I|I]].
  - destruct I as [I|[I|[]]]; discriminate I.
  - pose proof (stages_not_cleanup w environ data d) as F.
    rewrite List.Forall_forall in F. now specialize (F _ I).
  - destruct I as [I|[I|[]]]; [|discriminate I].
    assert (E : local_video_path (artifact_paths (name data))
                = local_audio_path (artifact_paths (name data)))
      by congruence.
    pose proof (audio_path_no_directory (name data)) as A.
    rewrite <- E, (video_path_directory data N) in A. discriminate A.
Qed.

Lemma X18_witness :
  reaches_pipeline Sample.configured Edge.folder
  /\ ~ has_file_name Edge.folder
  /\ result (Posix.transcribe_video_from_gcs Sample.cooperative Sample.configured
               Edge.folder ∅) = inl (IsADirectoryError "/tmp/").
Proof.
  assert (H : reaches_pipeline Sample.configured Edge.folder) by (repeat split).
  assert (N : ~ has_file_name Edge.folder) by (intros (N & _); now apply N).
  split; [exact H|]. split; [exact N|].
  exact (proj1 (proj2 (X18_cleanup_raises_without_file_name Sample.cooperative
                         Sample.configured Edge.folder ∅ H N))).
Defined.

(** X19.  For an object name that ends in a file name, neither scratch path
    names a directory, and the run on a disk with the scratch directory is
    the run on the regular files alone: the same result, the same disk and
    the same calls, for every world and every disk. *)
Theorem X19_scratch_directory_out_of_reach (w : World)
    (environ : gmap string string) (data : UploadEvent) (d : gmap string Z) :
  has_file_name data ->
  Posix.transcribe_video_from_gcs w environ data d
  = transcribe_video_from_gcs w environ data d.
Proof. intros N. now rewrite (posix_run w environ data N). Qed.

Lemma X19_witness :
  has_file_name More.nested_clip
  /\ Posix.transcribe_video_from_gcs Sample.cooperative Sample.configured
       More.nested_clip ∅
     = transcribe_video_from_gcs Sample.cooperative Sample.configured
         More.nested_clip ∅.
Proof.
  assert (N : has_file_name More.nested_clip) by (repeat split; discriminate).
  split; [exact N|].
  exact (X19_scratch_directory_out_of_reach Sample.cooperative Sample.configured
           More.nested_clip ∅ N).
Defined.
